(** * snowpack [build] command: a shallow embedding of [src/commands/build.ts]

    The definitions follow the source top to bottom:
    - [JS]: the JavaScript string primitives the command uses
      ([startsWith], [includes], [split], [substr], [replace]);
    - [NodePath]: [path.extname] of Node's posix [path] module;
    - [Build]: events of the message bus, the two specifier resolvers handed
      to [transformEsmImports], the worker registry, the mount stage, the
      transform dispatcher, the bundle stage and [command] itself, written
      in a writer/exception monad whose log is the list of observable
      effects;
    - [Observe] and [Wording]: what is read off a run, and the terms of
      the specification that the code tests differently;
    - [Sample]: a configuration, an extension table and an outside world
      to run the command on.
    The theorems come after, by stage of the command. *)

From stdpp Require Import base strings list gmap.
From Stdlib Require Import Ascii String.

#[local] Open Scope string_scope.
#[local] Open Scope list_scope.

(* ===================================================================== *)
(** ** JavaScript string primitives *)
(* ===================================================================== *)

Module JS.

(** Strings are sequences of characters; the functions below go through
    [list ascii] where the proofs need list reasoning. *)
Definition chars (s : string) : list ascii := list_ascii_of_string s.
Definition str (l : list ascii) : string := string_of_list_ascii l.

(** [s.startsWith(p)] *)
Definition startsWith (s p : string) : bool := String.prefix p s.

(** [strip_prefix p l]: what follows [p] in [l], when [l] begins with [p]. *)
Fixpoint strip_prefix (p l : list ascii) : option (list ascii) :=
  match p, l with
  | [], _ => Some l
  | c :: p', d :: l' => if Ascii.eqb c d then strip_prefix p' l' else None
  | _ :: _, [] => None
  end.

(** [strip_suffix s suffix]: what precedes [suffix] in [s], when [s] ends
    with [suffix]. *)
Definition strip_suffix (s suffix : string) : option string :=
  option_map (fun r => str (rev r)) (strip_prefix (rev (chars suffix)) (rev (chars s))).

(** [s.endsWith(p)] *)
Definition endsWith (s p : string) : bool :=
  match strip_suffix s p with
  | Some _ => true
  | None => false
  end.

(** [s.includes(sub)]: [sub] occurs somewhere in [s]. *)
Fixpoint includes (s sub : string) : bool :=
  String.prefix sub s ||
  match s with
  | EmptyString => false
  | String _ s' => includes s' sub
  end.

(** [s.substr(1)] *)
Definition substr1 (s : string) : string :=
  match s with
  | EmptyString => EmptyString
  | String _ s' => s'
  end.

(** JavaScript truthiness of a string-valued property read: [undefined]
    (no such key) and the empty string are falsy. *)
Definition truthy_str (o : option string) : option string :=
  match o with
  | Some EmptyString => None
  | Some v => Some v
  | None => None
  end.

(** [s.split(sep)] for a one-character separator: never the empty list. *)
Fixpoint split_chars (sep : ascii) (l : list ascii) : list (list ascii) :=
  match l with
  | [] => [[]]
  | c :: l' =>
      if Ascii.eqb c sep then [] :: split_chars sep l'
      else match split_chars sep l' with
           | [] => [[c]]
           | w :: ws => (c :: w) :: ws
           end
  end.

Definition split (sep : ascii) (s : string) : list string :=
  map str (split_chars sep (chars s)).

(** The characters matched by [\s] that fit in one byte: space, tab, line
    feed, vertical tab, form feed, carriage return. *)
Definition is_space (c : ascii) : bool :=
  let n := nat_of_ascii c in
  Nat.eqb n 32 || (Nat.leb 9 n && Nat.leb n 13).

(** [s.split(/\s+/)]: a run of white space is one separator; white space at
    either end of [s] yields an empty first or last element. *)
Fixpoint split_ws_chars (l : list ascii) (in_gap : bool) : list (list ascii) :=
  match l with
  | [] => [[]]
  | c :: l' =>
      if is_space c then
        if in_gap then split_ws_chars l' true
        else [] :: split_ws_chars l' true
      else match split_ws_chars l' false with
           | [] => [[c]]
           | w :: ws => (c :: w) :: ws
           end
  end.

Definition split_ws (s : string) : list string :=
  map str (split_ws_chars (chars s) false).

(** [s.replace(pat, rep)] with a string pattern: the first occurrence of
    [pat] is replaced, [s] is returned as it is when there is none.  (The
    replacement is taken literally: no [$] pattern occurs in the directory
    names passed here.) *)
Fixpoint replace_first (s pat rep : string) : string :=
  if String.prefix pat s then rep ++ substring (String.length pat) (String.length s) s
  else match s with
       | EmptyString => EmptyString
       | String c s' => String c (replace_first s' pat rep)
       end.

(** [s.replace(new RegExp(`${ext}$`), rep)]: the pattern is the text of
    [ext] anchored at the end of [s], so the only possible match is [ext]
    as a suffix of [s].  This is the reading of the regular expression for
    an [ext] without metacharacters and a [rep] without [$], which is what
    the extension table holds (see [plain]). *)
Definition replace_at_end (s ext rep : string) : string :=
  match strip_suffix s ext with
  | Some stem => stem ++ rep
  | None => s
  end.

(** Letters and digits: characters that stand for themselves in a regular
    expression and in a replacement string, and are neither [.] nor [/]. *)
Definition plain_char (c : ascii) : bool :=
  let n := nat_of_ascii c in
  (Nat.leb 48 n && Nat.leb n 57) || (Nat.leb 65 n && Nat.leb n 90)
  || (Nat.leb 97 n && Nat.leb n 122).

Definition plain (s : string) : bool := forallb plain_char (chars s).

(** The properties every object inherits from [Object.prototype], with the
    text a template literal makes of their value: [constructor] is the
    function [Object], [__proto__] reads the prototype itself, the others
    are its methods (a native function is printed as V8 prints it). *)
Definition prototype_methods : list string :=
  ["__defineGetter__"; "__defineSetter__"; "hasOwnProperty"; "__lookupGetter__";
   "__lookupSetter__"; "isPrototypeOf"; "propertyIsEnumerable"; "toString";
   "valueOf"; "toLocaleString"].

Definition inherited (k : string) : option string :=
  if (k =? "constructor")%string then Some "function Object() { [native code] }"
  else if (k =? "__proto__")%string then Some "[object Object]"
  else if existsb (String.eqb k) prototype_methods
       then Some ("function " +:+ k +:+ "() { [native code] }")
       else None.

(** [o[k]] on an object parsed from JSON whose values are strings: the
    property of [o] itself, or else the inherited one. *)
Definition get (o : gmap string string) (k : string) : option string :=
  match o !! k with
  | Some v => Some v
  | None => inherited k
  end.

End JS.

(* ===================================================================== *)
(** ** Node's [path.extname] (posix) *)
(* ===================================================================== *)

Module NodePath.

Definition is_slash (c : ascii) : bool := Ascii.eqb c "/".
Definition is_dot (c : ascii) : bool := Ascii.eqb c ".".

(** The state of the scan in [extname] of Node's [lib/path.js] (posix). *)
Record scan_state := Scan {
  startDot : Z;
  startPart : Z;
  end_ : Z;
  matchedSlash : bool;
  preDotState : Z;
}.

Definition scan_init : scan_state := Scan (-1) 0 (-1) true 0.

(** The loop body for a character that is not a slash. *)
Definition see_char (code : ascii) (i : Z) (st : scan_state) : scan_state :=
  let st :=
    if (end_ st =? -1)%Z
    then Scan (startDot st) (startPart st) (i + 1) false (preDotState st)
    else st in
  if is_dot code then
    if (startDot st =? -1)%Z
    then Scan i (startPart st) (end_ st) (matchedSlash st) (preDotState st)
    else if negb (preDotState st =? 1)%Z
         then Scan (startDot st) (startPart st) (end_ st) (matchedSlash st) 1
         else st
  else if negb (startDot st =? -1)%Z
       then Scan (startDot st) (startPart st) (end_ st) (matchedSlash st) (-1)
       else st.

(** [for (let i = path.length - 1; i >= 0; --i)], on the characters of the
    path from the last to the first: a slash ends the scan once a character
    of the last component has been seen. *)
Fixpoint extname_loop (rpath : list ascii) (i : Z) (st : scan_state) : scan_state :=
  match rpath with
  | [] => st
  | code :: rest =>
      if is_slash code then
        if negb (matchedSlash st)
        then Scan (startDot st) (i + 1) (end_ st) (matchedSlash st) (preDotState st)
        else extname_loop rest (i - 1) st
      else extname_loop rest (i - 1) (see_char code i st)
  end.

(** [path.slice(a, b)] for [0 <= a <= b]. *)
Definition slice (path : list ascii) (a b : Z) : list ascii :=
  take (Z.to_nat (b - a)) (drop (Z.to_nat a) path).

(** The function as Node writes it. *)
Definition extname_scan (path : list ascii) : list ascii :=
  let st := extname_loop (rev path) (Z.of_nat (List.length path) - 1) scan_init in
  if (startDot st =? -1)%Z || (end_ st =? -1)%Z || (preDotState st =? 0)%Z
     || ((preDotState st =? 1)%Z && (startDot st =? end_ st - 1)%Z
         && (startDot st =? startPart st + 1)%Z)
  then []
  else slice path (startDot st) (end_ st).

(** [path.extname(p)] *)
Definition extname (p : string) : string := JS.str (extname_scan (JS.chars p)).

(** The same function by the parts of the path ([extname_scan_chars]
    below).  Read from the end, the path is its trailing slashes, then its
    last component, in which the first dot met is the last dot of the
    component. *)
Fixpoint drop_slashes (l : list ascii) : list ascii :=
  match l with
  | c :: l' => if is_slash c then drop_slashes l' else l
  | [] => []
  end.

Fixpoint take_component (l : list ascii) : list ascii :=
  match l with
  | c :: l' => if is_slash c then [] else c :: take_component l'
  | [] => []
  end.

(** [break_dot l = Some (a, b)] when [l = a ++ "." :: b] and [a] has no dot. *)
Fixpoint break_dot (l : list ascii) : option (list ascii * list ascii) :=
  match l with
  | [] => None
  | c :: l' =>
      if is_dot c then Some ([], l')
      else match break_dot l' with
           | Some (a, b) => Some (c :: a, b)
           | None => None
           end
  end.

(** [extname_chars p] is the extension with its dot, or the empty list:
    - no dot in the last component: no extension;
    - the last dot is the first character of the component ([.bashrc]):
      no extension;
    - the component is exactly [..]: no extension;
    - otherwise everything from the last dot to the end of the component
      (so [a.] has extension [.]). *)
Definition extname_chars (p : list ascii) : list ascii :=
  match break_dot (take_component (drop_slashes (rev p))) with
  | None => []
  | Some (_, []) => []
  | Some (rext, rpre) =>
      match rext, rpre with
      | [], [d] => if is_dot d then [] else ["."%char]
      | _, _ => "."%char :: rev rext
      end
  end.

End NodePath.

Import JS NodePath.

(* ===================================================================== *)
(** ** The build command *)
(* ===================================================================== *)

Module Build.

(** *** Data *)

(** [DevScript] of [../config]: one entry of [config.scripts]. *)
Record DevScript := { cmd : string; watch : option string }.

(** The fields of [SnowpackConfig] the command reads.  [scripts] is kept as
    [Object.entries] lists it: in declaration order, one entry per id. *)
Record SnowpackConfig := {
  scripts : list (string * DevScript);
  include : option string;
  devOptions_bundle : bool;
  devOptions_out : string;
  devOptions_dist : string;
  devOptions_fallback : string;
  installOptions_dest : string;
}.

(** A thrown JavaScript exception. *)
Inductive error :=
  | Error (message : string)
  | TypeError (message : string).

Definition message_of (e : error) : string :=
  match e with Error m => m | TypeError m => m end.

Definition with_message (e : error) (m : string) : error :=
  match e with Error _ => Error m | TypeError _ => TypeError m end.

(** What user code throws: an exception object, or a value that is no
    object ([undefined], [null], a string, a number), of which only the
    text is kept. *)
Inductive thrown :=
  | Exception (e : error)
  | Value (shown : string).

(** [err.toString()] *)
Definition toString (e : error) : string :=
  match e with
  | Error m => "Error: " +:+ m
  | TypeError m => "TypeError: " +:+ m
  end.

(** The states sent with [WORKER_UPDATE]: [['RUNNING', 'yellow']],
    ['WATCHING'] and [['ERROR', 'red']]. *)
Inductive worker_state := RUNNING | WATCHING | ERROR.

Inductive level := log | warn | error_level.

(** The events emitted on [messageBus]. *)
Inductive event :=
  | CONSOLE (lvl : level) (args : list string)
  | WORKER_UPDATE (id : string) (state : worker_state)
  | WORKER_MSG (id : string) (lvl : level) (msg : string)
  | WORKER_COMPLETE (id : string) (err : option error)
  | WORKER_RESET (id : string)
  | MISSING_WEB_MODULE (specifier : string).

(** JSON values, as [JSON.parse] returns them.  Numbers are kept as
    integers: the command only tests them for truthiness. *)
#[warnings="-register-all"]
Inductive json :=
  | JNull
  | JBool (b : bool)
  | JNum (n : Z)
  | JStr (s : string)
  | JArr (l : list json)
  | JObj (fields : gmap string json).

(** Everything the command does to the outside world, in order.  [Stderr]
    is a line written by [console.error] before the console is redirected
    (colour codes left out). *)
Inductive effect :=
  | SetNodeEnv (value : string)
  | Stderr (line : string)
  | Rimraf (dir : string)
  | Mkdirp (dir : string)
  | Emit (e : event)
  | Paint (workers : list string) (dest : string)
  | ExecaLint (id command_line : string)
  | Copy (src dst : string)
  | ExecaBuild (command_line file : string)
  | PluginBuild (modulePath file : string)
  | Mkdir (dir : string)
  | WriteFile (path code : string)
  | CopyAssets (src dst : string)
  | WriteManifest (path : string) (manifest : gmap string json)
  | Parcel (entry outDir cwd : string).

(** *** The monad: a log of effects and a result or a thrown exception *)

Definition M (A : Type) : Type := list effect * (error + A).

Definition ret {A} (a : A) : M A := ([], inr a).
Definition throw {A} (e : error) : M A := ([], inl e).
Definition tell (x : effect) : M unit := ([x], inr tt).
Definition emit (e : event) : M unit := tell (Emit e).

Definition bind {A B} (m : M A) (k : A → M B) : M B :=
  match m with
  | (l, inl e) => (l, inl e)
  | (l, inr a) => let '(l', r) := k a in (l ++ l', r)
  end.

#[export] Instance M_ret : MRet M := @ret.
#[export] Instance M_bind : MBind M := fun A B k m => bind m k.

Definition trace {A} (m : M A) : list effect := fst m.
Definition outcome {A} (m : M A) : error + A := snd m.

(** [for (const x of xs) { body }] *)
Fixpoint for_each {A} (xs : list A) (body : A → M unit) : M unit :=
  match xs with
  | [] => ret tt
  | x :: xs' => body x ;; for_each xs' body
  end.

(** [await p]: a rejected promise is a thrown exception. *)
Definition await {A} (r : error + A) : M A :=
  match r with
  | inl e => throw e
  | inr a => ret a
  end.

(** A scanned module: the specifier literals of its import and export
    statements, and the text around them. *)
Inductive segment := Text (t : string) | Specifier (s : string).

(** *** The outside world

    What the command gets from Node, from the file system and from the
    processes and plugins it runs.  [path.join], [path.resolve],
    [path.relative] and [path.dirname] are used on directory names only
    and stay abstract. *)
Record World := {
  path_join : string → string → string;
  path_resolve : string → string → string;
  path_relative : string → string → string;
  path_dirname : string → string;
  (** [glob.sync] under the include root, tests left out *)
  glob_sync : string → list string;
  (** [execa.command(cmd, {input: createReadStream(f)})]: [stdout] and
      [stderr], or the rejection *)
  execa_command : string → string → error + (string * string);
  (** how a [lintall:] process settles *)
  execa_lint : string → option error;
  (** [require.resolve(cmd, {paths: [cwd]})] and the [require] of the
      module (lines 229-230) *)
  require_resolve : string → string → error + string;
  (** [build(f)] of the plugin module: its [result], or what it throws *)
  plugin_build : string → string → thrown + string;
  (** [copy(src, dst)] of fs-extra *)
  copy : string → string → option error;
  (** the [to] option [yargs] finds in the mount command, when a string *)
  yargs_to : list string → option string;
  (** the import and export specifiers the rewriter finds in a module *)
  scan : string → list segment;
  (** [JSON.parse(await fs.readFile(path))] *)
  read_manifest : string → error + gmap string json;
  (** [require.resolve('@babel/plugin-syntax-import-meta')] *)
  resolve_babel_plugin : error + string;
  (** how the [parcel build] process settles *)
  parcel : string → string → string → option error;
}.

Section Command.

(** [./src-file-extension-mapping]: source extension to output extension. *)
Variable srcFileExtensionMapping : gmap string string.
Variable W : World.

(** [console.error(...)] once the console has been redirected to the bus
    (line 81). *)
Definition console_error (args : list string) : M unit :=
  emit (CONSOLE error_level args).

(** *** Import rewriting *)

(** Modelled from the spec: [transformEsmImports] of [../rewrite-imports]
    is not part of the sources.  It "scans code for ESM import/export ...
    from specifier string literals and replaces each one in place; all
    other text is untouched byte-for-byte": the specifiers found by the
    scan are handed to [replaceImport] one by one, each occurrence once,
    and the pieces are put back together. *)
Definition rewrite_segment (replaceImport : string → M string) (seg : segment) : M string :=
  match seg with
  | Text t => ret t
  | Specifier s => replaceImport s
  end.

Fixpoint rewrite_segments (replaceImport : string → M string) (segs : list segment) : M string :=
  match segs with
  | [] => ret ""
  | seg :: segs' =>
      piece ← rewrite_segment replaceImport seg;
      rest ← rewrite_segments replaceImport segs';
      ret (piece +:+ rest)
  end.

Definition transformEsmImports (code : string) (replaceImport : string → M string) : M string :=
  rewrite_segments replaceImport (scan W code).

(** The relative case, the same text in both resolvers (lines 206-217 and
    251-262). *)
Definition resolve_relative (f spec : string) : M string :=
  let ext := substr1 (extname spec) in
  if (ext =? "")%string then
    console_error [f +:+ ": Import " +:+ spec +:+ " is missing a required file extension."] ;;
    ret spec
  else
    match truthy_str (srcFileExtensionMapping !! ext) with
    | Some extToReplace => ret (replace_at_end spec ext extToReplace)
    | None => ret spec
    end.

(** The resolver of a [build:] worker (lines 202-223).  The import map is
    an object parsed from JSON: the lookup of line 218 finds the entries of
    the map and the properties every object inherits. *)
Definition build_resolver (dependencyImportMap : gmap string string)
    (f spec : string) : M string :=
  if startsWith spec "http" || startsWith spec "/" then ret spec
  else if startsWith spec "./" || startsWith spec "../" then resolve_relative f spec
  else
    match truthy_str (get dependencyImportMap spec) with
    | Some mapped => ret ("/web_modules/" +:+ mapped)
    | None =>
        emit (MISSING_WEB_MODULE spec) ;;
        ret ("/web_modules/" +:+ spec +:+ ".js")
    end.

(** The resolver of a [plugin:] worker (lines 247-264). *)
Definition plugin_resolver (f spec : string) : M string :=
  if startsWith spec "http" || startsWith spec "/" then ret spec
  else if startsWith spec "./" || startsWith spec "../" then resolve_relative f spec
  else ret ("/web_modules/" +:+ spec +:+ ".js").

(** The resolver used for a file, by the kind of worker that produced it. *)
Inductive worker_kind := BuildWorker | PluginWorker.

Definition resolver (k : worker_kind) (dependencyImportMap : gmap string string)
    (f spec : string) : M string :=
  match k with
  | BuildWorker => build_resolver dependencyImportMap f spec
  | PluginWorker => plugin_resolver f spec
  end.

(** *** Worker registry (lines 52-73) *)

Definition worker : Type := string * DevScript.

Definition is_relevant (id : string) : bool :=
  startsWith id "build:" || startsWith id "plugin:"
  || startsWith id "lintall:" || startsWith id "mount:".

Definition is_build_or_plugin (id : string) : bool :=
  startsWith id "build:" || startsWith id "plugin:".

(** [id.split(':')[1].split(',')]: the extension list an id declares.  An
    id that starts with [build:] or [plugin:] always has the second part. *)
Definition declared_extensions (id : string) : list string :=
  match split ":" id with
  | _ :: exts :: _ => split "," exts
  | _ => []
  end.

(** Lines 65-66: [extToWorkerMap[ext] = extToWorkerMap[ext] || []] and the
    [push].  The index is a plain object: for an extension that names an
    inherited property and has no entry yet, the value read is that
    property, which has no [push]. *)
Definition register_extension (m : gmap string (list worker)) (w : worker) (ext : string)
    : error + gmap string (list worker) :=
  match m !! ext with
  | Some l => inr (<[ext := l ++ [w]]> m)
  | None =>
      match inherited ext with
      | Some _ => inl (TypeError "extToWorkerMap[ext].push is not a function")
      | None => inr (<[ext := [w]]> m)
      end
  end.

(** Lines 64-67. *)
Fixpoint register_extensions (m : gmap string (list worker)) (w : worker)
    (exts : list string) : error + gmap string (list worker) :=
  match exts with
  | [] => inr m
  | ext :: exts' =>
      match register_extension m w ext with
      | inl e => inl e
      | inr m' => register_extensions m' w exts'
      end
  end.

(** Lines 62-68. *)
Definition register_worker (m : gmap string (list worker)) (w : worker)
    : error + gmap string (list worker) :=
  if is_build_or_plugin (fst w)
  then register_extensions m w (declared_extensions (fst w))
  else inr m.

(** Lines 53-69, as far as the index goes. *)
Fixpoint register_workers (m : gmap string (list worker)) (ws : list worker)
    : error + gmap string (list worker) :=
  match ws with
  | [] => inr m
  | w :: ws' =>
      match register_worker m w with
      | inl e => inl e
      | inr m' => register_workers m' ws'
      end
  end.

Definition extToWorkerMap (allRegisteredWorkers : list worker)
    : error + gmap string (list worker) :=
  register_workers ∅ allRegisteredWorkers.

Definition relevantWorkers (config : SnowpackConfig) : list worker :=
  List.filter (fun w => is_relevant (fst w)) (scripts config)
  ++ (if devOptions_bundle config
      then [("bundle:*", {| cmd := "NA"; watch := None |})]
      else []).

(** *** Lint workers (lines 90-132)

    A [lintall:] process is started and left running.  Its output handlers
    fire while the rest of the command runs; the two completion handlers
    are recorded where the command waits for the process, at the join of
    line 274. *)
Definition start_lint (w : worker) : M unit :=
  let '(id, workerConfig) := w in
  if negb (startsWith id "lintall:") then ret tt
  else
    emit (WORKER_UPDATE id RUNNING);;
    tell (ExecaLint id (cmd workerConfig)).

Definition settle_lint (w : worker) : M unit :=
  let '(id, _) := w in
  if negb (startsWith id "lintall:") then ret tt
  else
    match execa_lint W id with
    | Some err =>
        emit (WORKER_MSG id error_level (toString err));;
        emit (WORKER_COMPLETE id (Some err));;
        throw err
    | None => emit (WORKER_COMPLETE id None)
    end.

(** *** Mount stage (lines 134-161) *)

Definition mount_error (id : string) : error :=
  Error ("script[" +:+ id +:+ "] must use the mount command").

Definition mount_worker (cwd buildDirectoryLoc : string) (w : worker) : M unit :=
  let '(id, workerConfig) := w in
  if negb (startsWith id "mount:") then ret tt
  else
    let cmdArr := split_ws (cmd workerConfig) in
    if negb (bool_decide (head cmdArr = Some "mount")) then throw (mount_error id)
    else
      let cmdArr := tail cmdArr in
      '(dirDisk, dirUrl) ←
        match cmdArr with
        | [dir] => ret (path_resolve W cwd dir, Some ("/" +:+ dir))
        | [] => throw (TypeError "The path argument must be of type string")
        | dir :: _ => ret (path_resolve W cwd dir, yargs_to W cmdArr)
        end;
      destinationFile ←
        match dirUrl with
        | Some url =>
            if (url =? "/")%string then ret buildDirectoryLoc
            else ret (path_join W buildDirectoryLoc url)
        | None => throw (TypeError "The path argument must be of type string")
        end;
      tell (Copy dirDisk destinationFile);;
      match copy W dirDisk destinationFile with
      | Some err =>
          emit (WORKER_MSG id error_level (toString err));;
          emit (WORKER_COMPLETE id (Some err));;
          throw err
      | None => emit (WORKER_COMPLETE id None)
      end.

(** *** Transform dispatcher (lines 163-272) *)

(** Line 176: the test that lets a worker process a file. *)
Definition handles (id fileExtension : string) : bool :=
  includes id (":" +:+ fileExtension) || includes id ("," +:+ fileExtension).

(** Lines 194-199 and 239-244: where the output of [f] is written. *)
Definition out_path (include_ distDirectoryLoc f : string) : string :=
  let outPath := replace_first f include_ distDirectoryLoc in
  let extToFind := substr1 (extname f) in
  match truthy_str (srcFileExtensionMapping !! extToFind) with
  | Some extToReplace => replace_at_end outPath extToFind extToReplace
  | None => outPath
  end.

(** Lines 200-226 and 245-267: rewrite the imports of a script and write
    the file. *)
Definition write_output (outPath code : string) (replaceImport : string → M string)
    : M unit :=
  code ← (if (extname outPath =? ".js")%string
          then transformEsmImports code replaceImport
          else ret code);
  tell (Mkdir (path_dirname W outPath));;
  tell (WriteFile outPath code).

(** Lines 181-227.  The result says whether the iteration goes on to the
    rest of the loop body ([false] after the [continue] of line 192). *)
Definition build_file (dependencyImportMap : gmap string string)
    (include_ distDirectoryLoc command_line f : string) : M bool :=
  tell (ExecaBuild command_line f);;
  '(stdout, stderr) ← await (execa_command W command_line f);
  (if (stderr =? "")%string then ret tt else console_error [stderr]);;
  if (stdout =? "")%string then ret false
  else
    write_output (out_path include_ distDirectoryLoc f) stdout
                 (build_resolver dependencyImportMap f);;
    ret true.

(** Lines 228-268.  The module is in strict mode: the assignment of line
    234 throws a [TypeError] when what was caught is no object, and that
    error leaves the loop (the text of its message depends on the value and
    on the version of Node). *)
Definition plugin_file (cwd include_ distDirectoryLoc id command_line f : string)
    : M unit :=
  modulePath ← await (require_resolve W command_line cwd);
  tell (PluginBuild modulePath f);;
  match plugin_build W modulePath f with
  | inl (Exception err) =>
      let err := with_message err ("[" +:+ id +:+ "] " +:+ message_of err) in
      console_error [toString err];;
      emit (WORKER_COMPLETE id (Some err))
  | inl (Value shown) =>
      throw (TypeError ("Cannot create property 'message' on " +:+ shown))
  | inr result =>
      write_output (out_path include_ distDirectoryLoc f) result (plugin_resolver f)
  end.

(** Lines 174-269: one file under one worker. *)
Definition dispatch_file (dependencyImportMap : gmap string string)
    (cwd include_ distDirectoryLoc : string) (w : worker) (f : string) : M unit :=
  let '(id, workerConfig) := w in
  let fileExtension := substr1 (extname f) in
  if negb (handles id fileExtension) then ret tt
  else
    go_on ← (if startsWith id "build:"
             then build_file dependencyImportMap include_ distDirectoryLoc
                             (cmd workerConfig) f
             else ret true);
    if (go_on : bool) && startsWith id "plugin:"
    then plugin_file cwd include_ distDirectoryLoc id (cmd workerConfig) f
    else ret tt.

(** Lines 169-271: one worker over all the files. *)
Definition dispatch_worker (dependencyImportMap : gmap string string)
    (cwd include_ distDirectoryLoc : string) (allFiles : list string) (w : worker)
    : M unit :=
  let id := fst w in
  if negb (startsWith id "build:") && negb (startsWith id "plugin:") then ret tt
  else
    emit (WORKER_UPDATE id RUNNING);;
    for_each allFiles (dispatch_file dependencyImportMap cwd include_ distDirectoryLoc w);;
    emit (WORKER_COMPLETE id None).

(** Lines 163-272.  [config.include] is tested for truthiness. *)
Definition dispatch (dependencyImportMap : gmap string string)
    (cwd distDirectoryLoc : string) (config : SnowpackConfig) : M unit :=
  match truthy_str (include config) with
  | None => ret tt
  | Some include_ =>
      let allFiles := glob_sync W include_ in
      for_each (relevantWorkers config)
        (dispatch_worker dependencyImportMap cwd include_ distDirectoryLoc allFiles)
  end.

(** *** Bundle stage (lines 276-338) *)

(** JavaScript truthiness of a JSON value. *)
Definition truthy (v : json) : bool :=
  match v with
  | JNull => false
  | JBool b => b
  | JNum n => negb (n =? 0)%Z
  | JStr s => negb (s =? "")%string
  | JArr _ | JObj _ => true
  end.

(** [o[k] || d] *)
Definition or_default (v : option json) (d : json) : json :=
  match v with
  | Some x => if truthy x then x else d
  | None => d
  end.

(** Lines 296-299, on the parsed [package.json].  The value handed to
    [JSON.stringify] is returned.  A property set on an array is not
    serialised; a property set on a boolean, a number or a string throws in
    strict mode. *)
Definition prepare_manifest (tempBuildManifest : gmap string json)
    : error + gmap string json :=
  let m := delete "name" tempBuildManifest in
  let devDependencies := or_default (m !! "devDependencies") (JObj ∅) in
  match devDependencies with
  | JObj deps =>
      let core := or_default (deps !! "@babel/core") (JStr "^7.9.0") in
      inr (<["devDependencies" := JObj (<["@babel/core" := core]> deps)]> m)
  | JArr _ => inr (<["devDependencies" := devDependencies]> m)
  | _ => inl (TypeError "Cannot create property '@babel/core'")
  end.

Definition dq : string := String (ascii_of_nat 34) EmptyString.

(** Lines 278-308. *)
Definition prepareBuildDirectoryForParcel (cwd buildDirectoryLoc finalDirectoryLoc : string)
    : M unit :=
  tell (CopyAssets buildDirectoryLoc finalDirectoryLoc);;
  match copy W buildDirectoryLoc finalDirectoryLoc with
  | Some err =>
      emit (WORKER_MSG "bundle:*" error_level (toString err));;
      emit (WORKER_COMPLETE "bundle:*" (Some err));;
      throw err
  | None =>
      tempBuildManifest ← await (read_manifest W (path_join W cwd "package.json"));
      manifest ← await (prepare_manifest tempBuildManifest);
      tell (WriteManifest (path_join W buildDirectoryLoc "package.json") manifest);;
      plugin ← await (resolve_babel_plugin W);
      tell (WriteFile (path_join W buildDirectoryLoc ".babelrc")
                      ("{" +:+ dq +:+ "plugins" +:+ dq +:+ ": [[" +:+ dq +:+ plugin
                       +:+ dq +:+ "]]}"))
  end.

(** Lines 276-338. *)
Definition bundle (cwd buildDirectoryLoc finalDirectoryLoc : string)
    (config : SnowpackConfig) : M unit :=
  emit (WORKER_UPDATE "bundle:*" RUNNING);;
  prepareBuildDirectoryForParcel cwd buildDirectoryLoc finalDirectoryLoc;;
  tell (Parcel (devOptions_fallback config) finalDirectoryLoc buildDirectoryLoc);;
  match parcel W (devOptions_fallback config) finalDirectoryLoc buildDirectoryLoc with
  | Some err =>
      emit (WORKER_MSG "bundle:*" error_level (toString err));;
      emit (WORKER_COMPLETE "bundle:*" (Some err));;
      throw err
  | None =>
      emit (WORKER_COMPLETE "bundle:*" None);;
      if negb (finalDirectoryLoc =? buildDirectoryLoc)%string
      then tell (Rimraf buildDirectoryLoc)
      else ret tt
  end.

(** *** The command (lines 24-339)

    [required] is what the [require] of line 37 gives: the [imports] table
    of [import-map.json], or the exception it throws when the file cannot be
    loaded. *)

Definition has_build_script (allRegisteredWorkers : list worker) : bool :=
  negb (Nat.eqb (List.length (List.filter (fun w => startsWith (fst w) "build")
                                            allRegisteredWorkers)) 0).

Definition buildDirectoryLoc (cwd : string) (config : SnowpackConfig) : string :=
  if devOptions_bundle config then path_join W cwd ".build" else devOptions_out config.

(** Lines 45-50. *)
Definition reset_directories (finalDirectoryLoc buildDirectoryLoc : string) : M unit :=
  tell (Rimraf finalDirectoryLoc);;
  tell (Mkdirp finalDirectoryLoc);;
  if negb (finalDirectoryLoc =? buildDirectoryLoc)%string
  then tell (Rimraf buildDirectoryLoc);; tell (Mkdirp buildDirectoryLoc)
  else ret tt.

(** Lines 84-88. *)
Definition start_paint (cwd : string) (config : SnowpackConfig) : M unit :=
  let relDest := path_relative W cwd (devOptions_out config) in
  let relDest := if startsWith relDest "../" then relDest else "./" +:+ relDest in
  tell (Paint (map fst (relevantWorkers config)) relDest).

(** Everything after the directories have been reset (lines 52-338).  The
    index built on lines 52-69 is not read again: of the loop, what is left
    is the list of relevant workers and the exception it may throw. *)
Definition run_stages (dependencyImportMap : gmap string string)
    (cwd : string) (config : SnowpackConfig) : M unit :=
  let finalDirectoryLoc := devOptions_out config in
  let buildDirectoryLoc := buildDirectoryLoc cwd config in
  let distDirectoryLoc := path_join W buildDirectoryLoc (devOptions_dist config) in
  await (extToWorkerMap (scripts config));;
  start_paint cwd config;;
  for_each (relevantWorkers config) start_lint;;
  for_each (relevantWorkers config) (mount_worker cwd buildDirectoryLoc);;
  dispatch dependencyImportMap cwd distDirectoryLoc config;;
  for_each (relevantWorkers config) settle_lint;;
  if devOptions_bundle config
  then bundle cwd buildDirectoryLoc finalDirectoryLoc config
  else ret tt.

Definition command (required : error + gmap string string)
    (cwd : string) (config : SnowpackConfig) : M unit :=
  tell (SetNodeEnv "production");;
  dependencyImportMap ← await required;
  if negb (has_build_script (scripts config)) then
    tell (Stderr "No build scripts found, so nothing to build.");;
    tell (Stderr "See https://www.snowpack.dev/#build-scripts for help configuring your build.");;
    ret tt
  else
    reset_directories (devOptions_out config) (buildDirectoryLoc cwd config);;
    run_stages dependencyImportMap cwd config.

End Command.

End Build.

(* ===================================================================== *)
(** ** The callbacks of the command *)
(* ===================================================================== *)

(** The functions the command hands to the processes it starts and to
    [copy]: they run when the process writes, or for each file of the tree
    that is copied. *)
Module Callbacks.

Import Build.

(** The two characters [\x1Bc] (which [\u001bc] spells as well): the
    sequence that clears the screen. *)
Definition esc : ascii := ascii_of_nat 27.
Definition clear_screen : string := String esc "c".

(** The line terminators, which [.] does not match: line feed and carriage
    return, and the separators U+2028 and U+2029, which the chunk, decoded
    from UTF-8, holds as three bytes each. *)
Definition is_line_terminator (c : ascii) : bool :=
  let n := nat_of_ascii c in
  Nat.eqb n 10 || Nat.eqb n 13.

Definition line_separator : list ascii :=
  [ascii_of_nat 226; ascii_of_nat 128; ascii_of_nat 168].
Definition paragraph_separator : list ascii :=
  [ascii_of_nat 226; ascii_of_nat 128; ascii_of_nat 169].

(** [l] begins with a line terminator. *)
Definition at_line_terminator (l : list ascii) : bool :=
  match l with
  | [] => false
  | c :: _ =>
      is_line_terminator c
      || bool_decide (is_Some (strip_prefix line_separator l))
      || bool_decide (is_Some (strip_prefix paragraph_separator l))
  end.

(** [/Watching for file changes./gm.test(s)]: the text, followed by one
    character that does not end a line, somewhere in [s]. *)
Definition watching_at (l : list ascii) : bool :=
  match strip_prefix (chars "Watching for file changes") l with
  | Some [] => false
  | Some rest => negb (at_line_terminator rest)
  | None => false
  end.

Fixpoint watching_chars (l : list ascii) : bool :=
  watching_at l ||
  match l with
  | [] => false
  | _ :: l' => watching_chars l'
  end.

Definition watching (s : string) : bool := watching_chars (chars s).

Definition is_digit (c : ascii) : bool :=
  let n := nat_of_ascii c in
  Nat.leb 48 n && Nat.leb n 57.

Fixpoint take_digits (l : list ascii) : list ascii :=
  match l with
  | c :: l' => if is_digit c then c :: take_digits l' else []
  | [] => []
  end.

Fixpoint drop_digits (l : list ascii) : list ascii :=
  match l with
  | c :: l' => if is_digit c then drop_digits l' else l
  | [] => []
  end.

(** [/Found (\d+) error/] at the head of [l]: the digits of the group.  The
    group is greedy and what follows it is a space, so it is the whole run
    of digits. *)
Definition found_at (l : list ascii) : option (list ascii) :=
  match strip_prefix (chars "Found ") l with
  | Some r =>
      match take_digits r, strip_prefix (chars " error") (drop_digits r) with
      | _ :: _, Some _ => Some (take_digits r)
      | _, _ => None
      end
  | None => None
  end.

(** [s.match(/Found (\d+) error/)]: the group of the first match, [None]
    when the pattern does not occur. *)
Fixpoint found_chars (l : list ascii) : option (list ascii) :=
  match found_at l with
  | Some ds => Some ds
  | None =>
      match l with
      | [] => None
      | _ :: l' => found_chars l'
      end
  end.

Definition found_errors (s : string) : option string :=
  option_map str (found_chars (chars s)).

(** The handler of the [data] events of a lint worker's standard output
    (lines 109-128): the events it emits for one chunk [b]. *)
Definition lint_stdout (id b : string) : list event :=
  let cleared := includes b clear_screen || includes b clear_screen in
  let stdOutput :=
    if cleared
    then replace_first (replace_first b clear_screen "") clear_screen ""
    else b in
  (if cleared then [WORKER_RESET id] else [])
  ++ (if endsWith id ":tsc" then
        (if includes stdOutput clear_screen || includes stdOutput clear_screen
         then [WORKER_UPDATE id RUNNING] else [])
        ++ (if watching stdOutput then [WORKER_UPDATE id WATCHING] else [])
        ++ match found_errors stdOutput with
           | Some n => if (n =? "0")%string then [] else [WORKER_UPDATE id ERROR]
           | None => []
           end
      else [])
  ++ [WORKER_MSG id log stdOutput].

(** The handler of the [data] events of its standard error (lines
    129-131). *)
Definition lint_stderr (id b : string) : list event :=
  [WORKER_MSG id error_level b].

(** The [filter] of the copy into the final directory (lines 282-287), with
    [/] for [path.sep]. *)
Definition copy_filter (buildDirectoryLoc dist srcLoc : string) : bool :=
  negb (startsWith srcLoc (buildDirectoryLoc +:+ "/" +:+ "web_modules"))
  && negb (startsWith srcLoc (buildDirectoryLoc +:+ "/" +:+ substr1 dist)).

End Callbacks.

(* ===================================================================== *)
(** ** Observations on a run, and the wording of the specification *)
(* ===================================================================== *)

Module Observe.

Import Build.

(** The value of a computation that cannot throw. *)
Definition value_or {A} (d : A) (m : M A) : A :=
  match outcome m with
  | inr a => a
  | inl _ => d
  end.

(** What a resolver puts in the place of [spec]. *)
Definition resolved (tbl : gmap string string) (k : worker_kind)
    (dependencyImportMap : gmap string string) (f spec : string) : string :=
  value_or spec (resolver tbl k dependencyImportMap f spec).

(** [rewrite(code, resolve)]: the code [transformEsmImports] returns under
    the resolver of a worker of kind [k]. *)
Definition rewrite (tbl : gmap string string) (W : World) (k : worker_kind)
    (dependencyImportMap : gmap string string) (f code : string) : string :=
  value_or code (transformEsmImports W code (resolver tbl k dependencyImportMap f)).

(** The occurrences of a scanned module after rewriting. *)
Definition resolve_segment (tbl : gmap string string) (k : worker_kind)
    (dependencyImportMap : gmap string string) (f : string) (seg : segment) : segment :=
  match seg with
  | Text t => Text t
  | Specifier s => Specifier (resolved tbl k dependencyImportMap f s)
  end.

(** The extension remapper: [srcFileExtensionMapping[ext] || ext]. *)
Definition remap (tbl : gmap string string) (ext : string) : string :=
  default ext (truthy_str (tbl !! ext)).

(** A table whose output extensions are made of letters and digits and are
    not remapped further. *)
Definition canonical (tbl : gmap string string) : Prop :=
  map_Forall (fun _ rep => rep = "" ∨ (plain rep = true ∧ remap tbl rep = rep)) tbl.

(** A specifier that begins with [./] or [../]. *)
Definition relative (spec : string) : Prop :=
  startsWith spec "./" = true ∨ startsWith spec "../" = true.

(** Properties of reversed paths, for [path.extname]. *)
Definition slashes (l : list ascii) : Prop := Forall (fun c => is_slash c = true) l.
Definition slash_free (l : list ascii) : Prop := Forall (fun c => is_slash c = false) l.
Definition dot_free (l : list ascii) : Prop := Forall (fun c => is_dot c = false) l.
Definition at_slash (l : list ascii) : Prop :=
  match l with [] => True | c :: _ => is_slash c = true end.

(** The extension [e] of a path, seen from the end of the path: trailing
    slashes, the extension, its dot, the rest of the last component, which
    is not empty, and what comes before the component. *)
Definition has_extension (p e : list ascii) : Prop :=
  ∃ s rpre rest,
    rev p = s ++ rev e ++ "."%char :: rpre ++ rest
    ∧ slashes s ∧ slash_free e ∧ dot_free e ∧ e ≠ []
    ∧ slash_free rpre ∧ rpre ≠ [] ∧ at_slash rest.

(** The text of a scanned module. *)
Definition unparse (segs : list segment) : string :=
  fold_right (fun seg rest =>
                match seg with Text t => t | Specifier s => s end +:+ rest) "" segs.

(** The specifiers of a scanned module, in order. *)
Definition specifiers (segs : list segment) : list string :=
  omap (fun seg => match seg with Specifier s => Some s | Text _ => None end) segs.

(** The characters of a component, scanned from its end. *)
Fixpoint run (l : list ascii) (i : Z) (st : scan_state) : scan_state :=
  match l with
  | [] => st
  | c :: l' => run l' (i - 1) (see_char c i st)
  end.

(** The state after the characters [l] of the last component, scanned from
    index [i0] down. *)
Definition summary (l : list ascii) (i0 : Z) : scan_state :=
  match break_dot l with
  | None => Scan (-1) 0 (if l is [] then -1 else i0 + 1) (if l is [] then true else false) 0
  | Some (a, b) =>
      Scan (i0 - Z.of_nat (List.length a)) 0 (i0 + 1) false
           (match last b with
            | None => 0
            | Some c => if is_dot c then 1 else -1
            end)
  end.

(** The missing-extension diagnostic of lines 209 and 254. *)
Definition missing_extension (f spec : string) : effect :=
  Emit (CONSOLE error_level
          [f +:+ ": Import " +:+ spec +:+ " is missing a required file extension."]).

(** The errors sent with the [WORKER_COMPLETE] events of worker [id]. *)
Definition completions (id : string) (l : list effect) : list (option error) :=
  omap (fun x => match x with
                 | Emit (WORKER_COMPLETE id' err) =>
                     if (id' =? id)%string then Some err else None
                 | _ => None
                 end) l.

(** An effect that is not a completion event of worker [id]. *)
Definition silent (id : string) (x : effect) : Prop := completions id [x] = [].

(** Effects that only the transform dispatcher, the join of the lint
    workers and the bundle stage produce. *)
Definition later_stage_effect (x : effect) : bool :=
  match x with
  | ExecaBuild _ _ | PluginBuild _ _ | Mkdir _ | WriteFile _ _
  | CopyAssets _ _ | WriteManifest _ _ | Parcel _ _ _ => true
  | Emit (WORKER_UPDATE id _) => negb (startsWith id "lintall:")
  | Emit (WORKER_COMPLETE id _) | Emit (WORKER_MSG id _ _) => negb (startsWith id "mount:")
  | Emit (CONSOLE _ _) | Emit (MISSING_WEB_MODULE _) => true
  | _ => false
  end.


(** The [devDependencies] object the bundle stage starts from: the empty
    object when the field is absent or falsy, nothing when the field holds
    something else than an object. *)
Definition declared_deps (m : gmap string json) : option (gmap string json) :=
  match m !! "devDependencies" with
  | None => Some ∅
  | Some (JObj deps) => Some deps
  | Some v => if truthy v then None else Some ∅
  end.

(** The plugin throws an exception object, if it throws. *)
Definition throws_object (r : thrown + string) : bool :=
  match r with
  | inl (Value _) => false
  | _ => true
  end.

(** The completion event a plugin worker sends for the file [f] inside the
    loop: the error of the plugin, when the file passes the test of line 176
    and the plugin throws an exception object on it. *)
Definition plugin_failure (W : World) (id modulePath f : string) : option (option error) :=
  if handles id (substr1 (extname f)) then
    match plugin_build W modulePath f with
    | inl (Exception err) =>
        Some (Some (with_message err ("[" +:+ id +:+ "] " +:+ message_of err)))
    | _ => None
    end
  else None.

(** A build or plugin worker whose id declares an extension that names an
    inherited property. *)
Definition declares_inherited (w : worker) : bool :=
  is_build_or_plugin (fst w)
  && existsb (fun ext => bool_decide (is_Some (inherited ext)))
             (declared_extensions (fst w)).

(** What starting a lint worker does (lines 94-100). *)
Definition lint_start (w : worker) : list effect :=
  if startsWith (fst w) "lintall:"
  then [Emit (WORKER_UPDATE (fst w) RUNNING); ExecaLint (fst w) (cmd (snd w))]
  else [].

Definition starts_lint (x : effect) : bool :=
  match x with
  | ExecaLint _ _ => true
  | _ => false
  end.

(** Unfolds the monad operations. *)
Ltac msimpl :=
  unfold mbind, M_bind, mret, M_ret, bind, ret, throw, tell, emit, await,
         console_error in *;
  simpl in *.

End Observe.

(** The specification's own terms, to set against the tests the code makes. *)
Module Wording.










End Wording.

(* ===================================================================== *)
(** ** Sample instances, for the examples *)
(* ===================================================================== *)

Module Sample.

Import Build.

(** An extension table of the kind the build uses: script and style
    sources to [js], [html] and [css]. *)
Definition mapping : gmap string string :=
  list_to_map
    [("jsx", "js"); ("ts", "js"); ("tsx", "js"); ("vue", "js"); ("svelte", "js");
     ("mdx", "js"); ("php", "html"); ("md", "html"); ("ejs", "html"); ("njk", "html");
     ("scss", "css"); ("less", "css")].

(** A scanner that takes every single-quoted literal for a specifier. *)
Definition is_quote (c : ascii) : bool := Ascii.eqb c "'".

Fixpoint scan_quoted (l : list ascii) (inside : bool) (cur : list ascii) : list segment :=
  match l with
  | [] => if inside then [Specifier (str (rev cur))] else [Text (str (rev cur))]
  | c :: l' =>
      if is_quote c then
        if inside then Specifier (str (rev cur)) :: scan_quoted l' false [c]
        else Text (str (rev (c :: cur))) :: scan_quoted l' true []
      else scan_quoted l' inside (c :: cur)
  end.

Definition scanner (code : string) : list segment := scan_quoted (chars code) false [].

Definition a_ts : string := "export const x = 1;
import z from './b.ts';".

Definition dev_dependencies : gmap string json :=
  {[ "parcel" := JStr "^1.12.4" ]}.

Definition manifest : gmap string json :=
  {[ "name" := JStr "app"; "version" := JStr "1.0.0";
     "devDependencies" := JObj dev_dependencies ]}.

Fixpoint drop_component (l : list ascii) : list ascii :=
  match l with
  | c :: l' => if is_slash c then l' else drop_component l'
  | [] => []
  end.

Definition dirname (p : string) : string := str (rev (drop_component (rev (chars p)))).

Definition world_of (copy_result : option error) : World := {|
  path_join := fun a b => if startsWith b "/" then a +:+ b else a +:+ "/" +:+ b;
  path_resolve := fun a b => a +:+ "/" +:+ b;
  path_relative := fun _ b => b;
  path_dirname := dirname;
  glob_sync := fun _ => ["src/a.ts"];
  execa_command := fun _ f => if (f =? "src/a.ts")%string then inr (a_ts, "") else inr ("", "");
  execa_lint := fun _ => None;
  require_resolve := fun c _ => inr c;
  plugin_build := fun _ _ => inl (Exception (Error "boom"));
  copy := fun _ _ => copy_result;
  yargs_to := fun _ => Some "/static";
  scan := scanner;
  read_manifest := fun _ => inr manifest;
  resolve_babel_plugin := inr "node_modules/@babel/plugin-syntax-import-meta/lib/index.js";
  parcel := fun _ _ _ => None;
|}.

Definition world : World := world_of None.

(** A world in which every build command is rejected. *)
Definition rejecting (e : error) : World := {|
  path_join := path_join world;
  path_resolve := path_resolve world;
  path_relative := path_relative world;
  path_dirname := path_dirname world;
  glob_sync := glob_sync world;
  execa_command := fun _ _ => inl e;
  execa_lint := execa_lint world;
  require_resolve := require_resolve world;
  plugin_build := plugin_build world;
  copy := copy world;
  yargs_to := yargs_to world;
  scan := scan world;
  read_manifest := read_manifest world;
  resolve_babel_plugin := resolve_babel_plugin world;
  parcel := parcel world;
|}.

(** A world in which every plugin throws the string [v], not an exception
    object. *)
Definition throwing (v : string) : World := {|
  path_join := path_join world;
  path_resolve := path_resolve world;
  path_relative := path_relative world;
  path_dirname := path_dirname world;
  glob_sync := glob_sync world;
  execa_command := execa_command world;
  execa_lint := execa_lint world;
  require_resolve := require_resolve world;
  plugin_build := fun _ _ => inl (Value v);
  copy := copy world;
  yargs_to := yargs_to world;
  scan := scan world;
  read_manifest := read_manifest world;
  resolve_babel_plugin := resolve_babel_plugin world;
  parcel := parcel world;
|}.

(** A world in which [package.json] cannot be read. *)
Definition unreadable (e : error) : World := {|
  path_join := path_join world;
  path_resolve := path_resolve world;
  path_relative := path_relative world;
  path_dirname := path_dirname world;
  glob_sync := glob_sync world;
  execa_command := execa_command world;
  execa_lint := execa_lint world;
  require_resolve := require_resolve world;
  plugin_build := plugin_build world;
  copy := copy world;
  yargs_to := yargs_to world;
  scan := scan world;
  read_manifest := fun _ => inl e;
  resolve_babel_plugin := resolve_babel_plugin world;
  parcel := parcel world;
|}.

Definition script (c : string) : DevScript := {| cmd := c; watch := None |}.

Definition config (ss : list (string * DevScript)) (bundled : bool) : SnowpackConfig := {|
  scripts := ss;
  include := Some "src";
  devOptions_bundle := bundled;
  devOptions_out := "out";
  devOptions_dist := "_dist_";
  devOptions_fallback := "index.html";
  installOptions_dest := "web_modules";
|}.

End Sample.

(* ===================================================================== *)
(** ** Examples *)
(* ===================================================================== *)

(** The examples of Node's documentation of [path.extname]. *)
Example extname_doc_html : extname "index.html" = ".html". Proof. reflexivity. Qed.
Example extname_doc_coffee : extname "index.coffee.md" = ".md". Proof. reflexivity. Qed.
Example extname_doc_dot : extname "index." = ".". Proof. reflexivity. Qed.
Example extname_doc_none : extname "index" = "". Proof. reflexivity. Qed.
Example extname_doc_hidden : extname ".index" = "". Proof. reflexivity. Qed.
Example extname_doc_hidden_md : extname ".index.md" = ".md". Proof. reflexivity. Qed.

Example extname_ts : extname "./b.ts" = ".ts". Proof. reflexivity. Qed.
Example extname_none : extname "./b" = "". Proof. reflexivity. Qed.
Example extname_dotfile : extname "./.bashrc" = "". Proof. reflexivity. Qed.
Example extname_dotdot : extname "../.." = "". Proof. reflexivity. Qed.
Example extname_trailing_dot : extname "./a." = ".". Proof. reflexivity. Qed.
Example extname_trailing_slash : extname "./a.ts/" = ".ts". Proof. reflexivity. Qed.
Example extname_dir_dot : extname "./a.b/c" = "". Proof. reflexivity. Qed.
Example extname_three_dots : extname "..." = ".". Proof. reflexivity. Qed.
Example split_ids : split ":" "build:ts,tsx" = ["build"; "ts,tsx"]. Proof. reflexivity. Qed.
Example split_empty : split "," "" = [""]. Proof. reflexivity. Qed.
Example split_ws_mount : split_ws "mount public  --to /static" = ["mount"; "public"; "--to"; "/static"].
Proof. reflexivity. Qed.
Example split_ws_leading : split_ws " mount public" = [""; "mount"; "public"]. Proof. reflexivity. Qed.
Example split_ws_trailing : split_ws "mount " = ["mount"; ""]. Proof. reflexivity. Qed.
Example replace_at_end_ts : replace_at_end "./b.ts" "ts" "js" = "./b.js". Proof. reflexivity. Qed.
Example replace_at_end_slash : replace_at_end "./b.ts/" "ts" "js" = "./b.ts/". Proof. reflexivity. Qed.
Example replace_first_src : replace_first "src/a/src.ts" "src" "/out/_dist_" = "/out/_dist_/a/src.ts".
Proof. reflexivity. Qed.
Example includes_ts : includes "build:tsx" ":ts" = true. Proof. reflexivity. Qed.

(* ===================================================================== *)
(** ** The monad *)
(* ===================================================================== *)

Import Build Observe.

Section MonadFacts.
Context {A B : Type}.

Lemma bind_ret (a : A) (k : A → M B) : (mret a ≫= k) = k a.
Proof. unfold mbind, M_bind, bind, mret, M_ret, ret. destruct (k a); reflexivity. Qed.

Lemma bind_throw (e : error) (k : A → M B) : (throw e ≫= k) = throw e.
Proof. reflexivity. Qed.

Lemma trace_bind (m : M A) (k : A → M B) :
  trace (m ≫= k) =
  trace m ++ match outcome m with inr a => trace (k a) | inl _ => [] end.
Proof.
  destruct m as [l [e|a]]; simpl.
  - by rewrite app_nil_r.
  - unfold mbind, M_bind, bind. destruct (k a); reflexivity.
Qed.

Lemma outcome_bind (m : M A) (k : A → M B) :
  outcome (m ≫= k) =
  match outcome m with inr a => outcome (k a) | inl e => inl e end.
Proof.
  destruct m as [l [e|a]]; simpl; [reflexivity|].
  unfold mbind, M_bind, bind. destruct (k a); reflexivity.
Qed.

End MonadFacts.

Lemma M_eta {A} (m : M A) : m = (trace m, outcome m).
Proof. by destruct m. Qed.

Lemma tell_bind {A} (x : effect) (k : unit → M A) :
  (tell x ≫= k) = (x :: trace (k tt), outcome (k tt)).
Proof. unfold mbind, M_bind, bind, tell. by destruct (k tt). Qed.

(* ===================================================================== *)
(** ** Bare specifiers *)
(* ===================================================================== *)




(** C8.  The resolver of a [plugin:] worker gives the same answer whatever
    the dependency import map holds, never emits [MISSING_WEB_MODULE], and
    rewrites every specifier that begins with none of [http], [/], [./],
    [../] to ["/web_modules/" + s + ".js"]. *)
Theorem plugin_resolver_ignores_import_map
    (tbl dependencyImportMap : gmap string string) (f s : string) :
  (∀ other : gmap string string,
     resolver tbl PluginWorker other f s = resolver tbl PluginWorker dependencyImportMap f s)
  ∧ (∀ x, ¬ In (Emit (MISSING_WEB_MODULE x))
              (trace (resolver tbl PluginWorker dependencyImportMap f s)))
  ∧ (startsWith s "http" = false → startsWith s "/" = false →
     startsWith s "./" = false → startsWith s "../" = false →
     resolver tbl PluginWorker dependencyImportMap f s
     = ([], inr ("/web_modules/" +:+ s +:+ ".js"))).
Proof.
  split; [reflexivity|]. split.
  - intros x. unfold resolver, plugin_resolver, resolve_relative.
    destruct (startsWith s "http" || startsWith s "/"); [simpl; tauto|].
    destruct (startsWith s "./" || startsWith s "../"); [|simpl; tauto].
    destruct (substr1 (extname s) =? "")%string.
    + simpl. intros [H|[]]. discriminate H.
    + destruct (truthy_str _); simpl; tauto.
  - intros H1 H2 H3 H4. unfold resolver, plugin_resolver.
    rewrite H1, H2, H3, H4. reflexivity.
Qed.

Lemma plugin_resolver_ignores_import_map_witness :
  resolver Sample.mapping PluginWorker {[ "preact" := "./preact.js" ]} "src/a.svelte" "preact"
  = ([], inr "/web_modules/preact.js").
Proof.
  exact (proj2 (proj2 (plugin_resolver_ignores_import_map Sample.mapping
                         {[ "preact" := "./preact.js" ]} "src/a.svelte" "preact"))
               eq_refl eq_refl eq_refl eq_refl).
Defined.

(* ===================================================================== *)
(** ** The early return and the reset of the output directories *)
(* ===================================================================== *)

Lemma has_build_script_false (ws : list worker) :
  Forall (fun w => startsWith (fst w) "build" = false) ws ↔ has_build_script ws = false.
Proof.
  unfold has_build_script. split.
  - induction 1 as [|w ws Hw _ IH]; [reflexivity|].
    simpl. rewrite Hw. exact IH.
  - induction ws as [|w ws IH]; [constructor|].
    simpl. destruct (startsWith w.1 "build") eqn:Hw; [discriminate|].
    intros H. constructor; auto.
Qed.

Lemma command_early_return
    (tbl : gmap string string) (W : World) (dependencyImportMap : gmap string string)
    (cwd : string) (config : SnowpackConfig) :
  has_build_script (scripts config) = false →
  command tbl W (inr dependencyImportMap) cwd config
  = ([SetNodeEnv "production";
      Stderr "No build scripts found, so nothing to build.";
      Stderr "See https://www.snowpack.dev/#build-scripts for help configuring your build."],
     inr tt).
Proof. intros H. unfold command. rewrite tell_bind. simpl await. rewrite bind_ret, H. reflexivity. Qed.

Lemma command_past_early_return
    (tbl : gmap string string) (W : World) (dependencyImportMap : gmap string string)
    (cwd : string) (config : SnowpackConfig) :
  has_build_script (scripts config) = true →
  let final := devOptions_out config in
  let build := buildDirectoryLoc W cwd config in
  let stages := run_stages tbl W dependencyImportMap cwd config in
  command tbl W (inr dependencyImportMap) cwd config
  = ([SetNodeEnv "production"; Rimraf final; Mkdirp final]
       ++ (if (final =? build)%string then [] else [Rimraf build; Mkdirp build])
       ++ trace stages, outcome stages).
Proof.
  intros H final build stages.
  unfold command. rewrite tell_bind. simpl await. rewrite bind_ret, H. simpl negb. cbv iota.
  unfold reset_directories.
  fold final build stages.
  destruct (final =? build)%string eqn:E; simpl negb; cbv iota;
    rewrite (M_eta stages); reflexivity.
Qed.

(** When the import map has been loaded and no script id starts with
    [build] (the test of line 39), the command writes its two lines to the
    error stream and returns normally: no directory is removed or created
    and no stage runs. *)
Lemma command_without_build_scripts
    (tbl : gmap string string) (W : World) (dependencyImportMap : gmap string string)
    (cwd : string) (config : SnowpackConfig) :
  Forall (fun w => startsWith (fst w) "build" = false) (scripts config) →
  command tbl W (inr dependencyImportMap) cwd config
  = ([SetNodeEnv "production";
      Stderr "No build scripts found, so nothing to build.";
      Stderr "See https://www.snowpack.dev/#build-scripts for help configuring your build."],
     inr tt).
Proof.
  intros H. apply has_build_script_false in H.
  by apply command_early_return.
Qed.

Lemma command_without_build_scripts_witness :
  command Sample.mapping Sample.world (inr ∅) "/proj"
    (Sample.config [("mount:public", Sample.script "mount public");
                    ("plugin:svelte", Sample.script "svelte-plugin")] true)
  = ([SetNodeEnv "production";
      Stderr "No build scripts found, so nothing to build.";
      Stderr "See https://www.snowpack.dev/#build-scripts for help configuring your build."],
     inr tt).
Proof.
  apply command_without_build_scripts.
  repeat constructor.
Defined.

(** C6, at the failing input.  The one script is named [build], without a
    colon: no worker is of the build category (no id begins with [build:],
    none is relevant to any stage), and yet the test of line 39, which
    looks for the prefix [build], lets the command go on: the output
    directory is removed and recreated and the dashboard is started, where
    the claim has the command report and return before touching any
    directory. *)
Theorem command_resets_without_build_worker :
  let config := Sample.config [("build", Sample.script "tsc")] false in
  Forall (fun w => startsWith (fst w) "build:" = false) (scripts config)
  ∧ relevantWorkers config = []
  ∧ command Sample.mapping Sample.world (inr ∅) "/proj" config
    = ([SetNodeEnv "production"; Rimraf "out"; Mkdirp "out"; Paint [] "./out"], inr tt).
Proof.
  intros config. split; [by repeat constructor|].
  split; vm_compute; reflexivity.
Qed.

(** The import map is loaded on line 37, before the test of line 39: when
    it cannot be loaded the command throws, whatever the scripts, before it
    reports anything. *)
Lemma command_without_import_map
    (tbl : gmap string string) (W : World) (cwd : string) (config : SnowpackConfig)
    (e : error) :
  command tbl W (inl e) cwd config = ([SetNodeEnv "production"], inl e).
Proof. reflexivity. Qed.

(** For the ids of the worker grammar, where the id of a build worker is
    the only one to start with [build], the test of line 39 asks whether
    there is a [build:] worker. *)
Lemma command_without_build_workers
    (tbl : gmap string string) (W : World) (dependencyImportMap : gmap string string)
    (cwd : string) (config : SnowpackConfig) :
  Forall (fun w => startsWith (fst w) "build" = true → startsWith (fst w) "build:" = true)
         (scripts config) →
  Forall (fun w => startsWith (fst w) "build:" = false) (scripts config) →
  trace (command tbl W (inr dependencyImportMap) cwd config)
  = [SetNodeEnv "production";
     Stderr "No build scripts found, so nothing to build.";
     Stderr "See https://www.snowpack.dev/#build-scripts for help configuring your build."]
  ∧ outcome (command tbl W (inr dependencyImportMap) cwd config) = inr tt.
Proof.
  intros Hg Hb.
  rewrite command_early_return; [by split|].
  apply has_build_script_false.
  rewrite Forall_forall in *. intros w Hw.
  destruct (startsWith w.1 "build") eqn:E; [|reflexivity].
  rewrite <- (Hb w Hw). symmetry. by apply Hg.
Qed.

(** C9.  Past the test for build scripts, the first thing the command does
    is to remove and recreate the output directory, and the build directory
    when it is another one; every stage comes after, and the command ends
    as the stages end: a run that throws in a stage has removed the output
    directory.  The build directory is removed and recreated whether or not
    it is the output directory. *)
Theorem command_resets_directories_first
    (tbl : gmap string string) (W : World) (dependencyImportMap : gmap string string)
    (cwd : string) (config : SnowpackConfig) :
  has_build_script (scripts config) = true →
  let final := devOptions_out config in
  let build := buildDirectoryLoc W cwd config in
  let run := command tbl W (inr dependencyImportMap) cwd config in
  let stages := run_stages tbl W dependencyImportMap cwd config in
  trace run
  = [SetNodeEnv "production"; Rimraf final; Mkdirp final]
    ++ (if (final =? build)%string then [] else [Rimraf build; Mkdirp build])
    ++ trace stages
  ∧ outcome run = outcome stages
  ∧ In (Rimraf build) (trace run) ∧ In (Mkdirp build) (trace run)
  ∧ In (Rimraf final) (trace run) ∧ In (Mkdirp final) (trace run).
Proof.
  intros H final build run stages.
  pose proof (command_past_early_return tbl W dependencyImportMap cwd config H) as Hrun.
  cbv zeta in Hrun. fold final build stages run in Hrun.
  rewrite Hrun. simpl trace. simpl outcome.
  split; [reflexivity|]. split; [reflexivity|].
  destruct (final =? build)%string eqn:E.
  - apply String.eqb_eq in E. rewrite <- E. simpl. tauto.
  - simpl. tauto.
Qed.

Lemma command_resets_directories_first_witness :
  In (Rimraf "/proj/.build")
     (trace (command Sample.mapping Sample.world (inr ∅) "/proj"
               (Sample.config [("build:ts", Sample.script "cat")] true))).
Proof.
  exact (proj1 (proj2 (proj2
    (command_resets_directories_first Sample.mapping Sample.world ∅ "/proj"
       (Sample.config [("build:ts", Sample.script "cat")] true) eq_refl)))).
Defined.

(** A run that stops on a malformed mount command has removed the output
    directory. *)
Example aborted_run_has_removed_output :
  command Sample.mapping Sample.world (inr ∅) "/proj"
    (Sample.config [("build:ts", Sample.script "cat");
                    ("mount:public", Sample.script "cp -r public")] false)
  = ([SetNodeEnv "production"; Rimraf "out"; Mkdirp "out";
      Paint ["build:ts"; "mount:public"] "./out"],
     inl (mount_error "mount:public")).
Proof. reflexivity. Qed.

(** A run that throws has removed the output directory before. *)
Lemma failed_run_has_reset_output
    (tbl : gmap string string) (W : World) (dependencyImportMap : gmap string string)
    (cwd : string) (config : SnowpackConfig) (e : error) :
  outcome (command tbl W (inr dependencyImportMap) cwd config) = inl e →
  ∃ rest, trace (command tbl W (inr dependencyImportMap) cwd config)
          = SetNodeEnv "production" :: Rimraf (devOptions_out config)
            :: Mkdirp (devOptions_out config) :: rest.
Proof.
  intros He.
  destruct (has_build_script (scripts config)) eqn:Hb.
  - rewrite (command_past_early_return tbl W dependencyImportMap cwd config Hb).
    eexists. reflexivity.
  - rewrite (command_early_return tbl W dependencyImportMap cwd config Hb) in He.
    discriminate He.
Qed.

(* ===================================================================== *)
(** ** Loops *)
(* ===================================================================== *)

Section Loops.
Context {A : Type}.
Implicit Types (body : A → M unit) (xs : list A).

Lemma for_each_cons x xs body :
  for_each (x :: xs) body = (body x ≫= fun _ => for_each xs body).
Proof. reflexivity. Qed.

Lemma for_each_app xs ys body :
  for_each (xs ++ ys) body = (for_each xs body ≫= fun _ => for_each ys body).
Proof.
  induction xs as [|x xs IH]; simpl.
  - unfold mbind, M_bind, bind, ret. by destruct (for_each ys body).
  - rewrite IH. destruct (body x) as [l [e|[]]]; [reflexivity|].
    unfold mbind, M_bind, bind.
    destruct (for_each xs body) as [l1 [e1|[]]]; [reflexivity|].
    destruct (for_each ys body) as [l2 r2]. by rewrite app_assoc.
Qed.

Lemma for_each_outcome_ok xs body :
  (∀ x, In x xs → outcome (body x) = inr tt) → outcome (for_each xs body) = inr tt.
Proof.
  induction xs as [|x xs IH]; intros H; [reflexivity|].
  simpl. rewrite outcome_bind, (H x) by (by left). apply IH.
  intros y Hy. apply H. by right.
Qed.

Lemma for_each_trace_Forall (P : effect → Prop) xs body :
  (∀ x, In x xs → Forall P (trace (body x))) → Forall P (trace (for_each xs body)).
Proof.
  induction xs as [|x xs IH]; intros H; [constructor|].
  simpl. rewrite trace_bind. apply Forall_app. split; [apply H; by left|].
  destruct (outcome (body x)); [constructor|].
  apply IH. intros y Hy. apply H. by right.
Qed.

End Loops.

(* ===================================================================== *)
(** ** The mount stage *)
(* ===================================================================== *)


Lemma str_chars (s : string) : str (chars s) = s.
Proof. apply string_of_list_ascii_of_string. Qed.

Lemma chars_str (l : list ascii) : chars (str l) = l.
Proof. apply list_ascii_of_string_of_list_ascii. Qed.



Lemma start_lint_returns (w : worker) : outcome (start_lint w) = inr tt.
Proof. destruct w as [id sc]. unfold start_lint. by destruct (startsWith id "lintall:"). Qed.

Lemma start_lint_early_stage (w : worker) :
  Forall (fun x => later_stage_effect x = false) (trace (start_lint w)).
Proof.
  destruct w as [id sc]. unfold start_lint.
  destruct (startsWith id "lintall:") eqn:E; simpl; repeat constructor.
  simpl. by rewrite E.
Qed.

Lemma mount_worker_early_stage (W : World) (cwd build : string) (w : worker) :
  Forall (fun x => later_stage_effect x = false) (trace (mount_worker W cwd build w)).
Proof.
  destruct w as [id sc]. unfold mount_worker.
  destruct (startsWith id "mount:") eqn:E; simpl; [|constructor].
  destruct (bool_decide _); simpl; [|constructor].
  destruct (tail (split_ws (cmd sc))) as [|d [|d' l]]; msimpl; [constructor| |].
  - destruct (_ =? _)%string; simpl; destruct (copy W _ _); simpl;
      repeat constructor; simpl; by rewrite E.
  - destruct (yargs_to W _) as [url|]; simpl; [|constructor].
    destruct (url =? "/")%string; simpl; destruct (copy W _ _); simpl;
      repeat constructor; simpl; by rewrite E.
Qed.


(** Past the loop of lines 52-69, the stages in their order. *)
Lemma run_stages_registered
    (tbl : gmap string string) (W : World) (dependencyImportMap : gmap string string)
    (cwd : string) (config : SnowpackConfig) (index : gmap string (list worker)) :
  extToWorkerMap (scripts config) = inr index →
  run_stages tbl W dependencyImportMap cwd config
  = (start_paint W cwd config;;
     for_each (relevantWorkers config) start_lint;;
     for_each (relevantWorkers config) (mount_worker W cwd (buildDirectoryLoc W cwd config));;
     dispatch tbl W dependencyImportMap cwd
       (path_join W (buildDirectoryLoc W cwd config) (devOptions_dist config)) config;;
     for_each (relevantWorkers config) (settle_lint W);;
     if devOptions_bundle config
     then bundle W cwd (buildDirectoryLoc W cwd config) (devOptions_out config) config
     else ret tt).
Proof.
  intros Hreg. unfold run_stages. rewrite Hreg. cbn [await].
  unfold mbind at 1, M_bind at 1, bind at 1, ret at 1.
  by destruct (_ ≫= _).
Qed.

Lemma run_stages_unregistered
    (tbl : gmap string string) (W : World) (dependencyImportMap : gmap string string)
    (cwd : string) (config : SnowpackConfig) (e : error) :
  extToWorkerMap (scripts config) = inl e →
  run_stages tbl W dependencyImportMap cwd config = ([], inl e).
Proof. intros Hreg. unfold run_stages. by rewrite Hreg. Qed.







(* ===================================================================== *)
(** ** Completion events of the transform dispatcher *)
(* ===================================================================== *)

Lemma completions_app (id : string) (l1 l2 : list effect) :
  completions id (l1 ++ l2) = completions id l1 ++ completions id l2.
Proof. apply omap_app. Qed.

(** A plugin that throws on a file is reported and does not stop the loop. *)
Lemma plugin_file_failure_is_caught
    (tbl : gmap string string) (W : World)
    (cwd include_ dist id command_line f modulePath : string) (err : error) :
  require_resolve W command_line cwd = inr modulePath →
  plugin_build W modulePath f = inl (Exception err) →
  plugin_file tbl W cwd include_ dist id command_line f
  = ([PluginBuild modulePath f;
      Emit (CONSOLE error_level
              [toString (with_message err ("[" +:+ id +:+ "] " +:+ message_of err))]);
      Emit (WORKER_COMPLETE id
              (Some (with_message err ("[" +:+ id +:+ "] " +:+ message_of err))))],
     inr tt).
Proof.
  intros Hr Hp. unfold plugin_file. rewrite Hr. msimpl. rewrite Hp. reflexivity.
Qed.

Lemma dispatch_worker_finished
    (tbl : gmap string string) (W : World) (dependencyImportMap : gmap string string)
    (cwd include_ dist : string) (allFiles : list string) (w : worker) :
  is_build_or_plugin (fst w) = true →
  outcome (for_each allFiles (dispatch_file tbl W dependencyImportMap cwd include_ dist w))
  = inr tt →
  dispatch_worker tbl W dependencyImportMap cwd include_ dist allFiles w
  = (Emit (WORKER_UPDATE (fst w) RUNNING)
       :: trace (for_each allFiles (dispatch_file tbl W dependencyImportMap cwd include_ dist w))
       ++ [Emit (WORKER_COMPLETE (fst w) None)], inr tt).
Proof.
  intros Hk Hloop. unfold dispatch_worker.
  set (loop := for_each allFiles _) in *.
  unfold is_build_or_plugin in Hk.
  destruct (startsWith w.1 "build:"), (startsWith w.1 "plugin:");
    try discriminate Hk; simpl negb; cbv iota;
    unfold emit; rewrite tell_bind;
    rewrite (M_eta loop), Hloop; reflexivity.
Qed.

Lemma dispatch_worker_returned
    (tbl : gmap string string) (W : World) (dependencyImportMap : gmap string string)
    (cwd include_ dist : string) (allFiles : list string) (w : worker) :
  is_build_or_plugin (fst w) = true →
  outcome (dispatch_worker tbl W dependencyImportMap cwd include_ dist allFiles w) = inr tt →
  outcome (for_each allFiles (dispatch_file tbl W dependencyImportMap cwd include_ dist w))
  = inr tt.
Proof.
  intros Hk. unfold dispatch_worker.
  set (loop := for_each allFiles _) in *.
  unfold is_build_or_plugin in Hk.
  destruct (startsWith w.1 "build:"), (startsWith w.1 "plugin:");
    try discriminate Hk; cbn [negb andb];
    rewrite outcome_bind; simpl; rewrite outcome_bind;
    by destruct (outcome loop) as [e|[]].
Qed.

(** C10.  When the file loop of a [build:] or [plugin:] worker comes to its
    end, the dispatcher emits [WORKER_COMPLETE] with no error, whatever the
    loop has emitted: the last completion event of the worker reports
    success. *)
Theorem dispatch_worker_completes_without_error
    (tbl : gmap string string) (W : World) (dependencyImportMap : gmap string string)
    (cwd include_ dist : string) (allFiles : list string) (w : worker) :
  is_build_or_plugin (fst w) = true →
  let loop := for_each allFiles (dispatch_file tbl W dependencyImportMap cwd include_ dist w) in
  let run := dispatch_worker tbl W dependencyImportMap cwd include_ dist allFiles w in
  outcome loop = inr tt →
  run = (Emit (WORKER_UPDATE (fst w) RUNNING) :: trace loop
           ++ [Emit (WORKER_COMPLETE (fst w) None)], inr tt)
  ∧ last (completions (fst w) (trace run)) = Some None.
Proof.
  intros Hk loop run Hloop.
  assert (Hrun : run = (Emit (WORKER_UPDATE (fst w) RUNNING) :: trace loop
                          ++ [Emit (WORKER_COMPLETE (fst w) None)], inr tt)).
  { by apply dispatch_worker_finished. }
  split; [exact Hrun|].
  rewrite Hrun. simpl trace.
  change (Emit (WORKER_UPDATE w.1 RUNNING) :: trace loop ++ [Emit (WORKER_COMPLETE w.1 None)])
    with ((Emit (WORKER_UPDATE w.1 RUNNING) :: trace loop) ++ [Emit (WORKER_COMPLETE w.1 None)]).
  rewrite completions_app. simpl. rewrite String.eqb_refl.
  apply last_snoc.
Qed.

Lemma dispatch_worker_completes_without_error_witness :
  completions "plugin:ts"
    (trace (dispatch_worker Sample.mapping Sample.world ∅ "/proj" "src" "out/_dist_"
              ["src/a.ts"] ("plugin:ts", Sample.script "ts-plugin")))
  = [Some (Error "[plugin:ts] boom"); None]
  ∧ last (completions "plugin:ts"
            (trace (dispatch_worker Sample.mapping Sample.world ∅ "/proj" "src" "out/_dist_"
                      ["src/a.ts"] ("plugin:ts", Sample.script "ts-plugin"))))
    = Some None.
Proof.
  split; [reflexivity|].
  exact (proj2 (dispatch_worker_completes_without_error Sample.mapping Sample.world ∅
                  "/proj" "src" "out/_dist_" ["src/a.ts"]
                  ("plugin:ts", Sample.script "ts-plugin") eq_refl eq_refl)).
Defined.

(* ===================================================================== *)
(** ** The manifest of the bundle stage *)
(* ===================================================================== *)

Lemma prepare_manifest_object (m deps : gmap string json) :
  declared_deps m = Some deps →
  prepare_manifest m
  = inr (<["devDependencies" :=
             JObj (<["@babel/core" := or_default (deps !! "@babel/core") (JStr "^7.9.0")]> deps)]>
           (delete "name" m)).
Proof.
  unfold declared_deps, prepare_manifest.
  rewrite lookup_delete_ne by done.
  destruct (m !! "devDependencies") as [v|]; simpl.
  - destruct v as [|b|n|s| |]; simpl.
    + by intros [= <-].
    + destruct b; [discriminate|]. by intros [= <-].
    + destruct (n =? 0)%Z; simpl; [|discriminate]. by intros [= <-].
    + destruct (s =? "")%string; simpl; [|discriminate]. by intros [= <-].
    + discriminate.
    + by intros [= <-].
  - by intros [= <-].
Qed.

(** C7 (as amended).  When the bundle stage has copied the assets and read
    a manifest whose [devDependencies] is absent, falsy or an object, it
    writes one manifest, into the build directory: the manifest read,
    without its [name], with every other field but [devDependencies] as it
    was, and with a [devDependencies] object that keeps every entry but
    [@babel/core] as it was; [@babel/core] keeps its value when that value
    is truthy, and is set to [^7.9.0] when it is absent or falsy (the empty
    string, for one). *)
Theorem bundle_stage_manifest
    (W : World) (cwd build final : string) (m deps : gmap string json) :
  copy W build final = None →
  read_manifest W (path_join W cwd "package.json") = inr m →
  declared_deps m = Some deps →
  ∃ m' deps' : gmap string json,
    (∀ path written,
       In (WriteManifest path written) (trace (prepareBuildDirectoryForParcel W cwd build final))
       ↔ path = path_join W build "package.json" ∧ written = m')
    ∧ m' !! "name" = None
    ∧ (∀ k, k ≠ "name" → k ≠ "devDependencies" → m' !! k = m !! k)
    ∧ m' !! "devDependencies" = Some (JObj deps')
    ∧ (∀ k, k ≠ "@babel/core" → deps' !! k = deps !! k)
    ∧ (∀ v, deps !! "@babel/core" = Some v → truthy v = true →
            deps' !! "@babel/core" = Some v)
    ∧ (∀ v, deps !! "@babel/core" = Some v → truthy v = false →
            deps' !! "@babel/core" = Some (JStr "^7.9.0"))
    ∧ (deps !! "@babel/core" = None → deps' !! "@babel/core" = Some (JStr "^7.9.0")).
Proof.
  intros Hc Hr Hd.
  pose proof (prepare_manifest_object m deps Hd) as Hp.
  set (deps' := <["@babel/core" := or_default (deps !! "@babel/core") (JStr "^7.9.0")]> deps) in *.
  exists (<["devDependencies" := JObj deps']> (delete "name" m)), deps'.
  split; [|repeat split].
  - intros path written. unfold prepareBuildDirectoryForParcel.
    rewrite Hc, Hr. msimpl. rewrite Hp.
    destruct (resolve_babel_plugin W); simpl;
      (split;
       [ intros H; repeat (destruct H as [H|H]); try discriminate H; try contradiction;
         injection H as <- <-; by split
       | intros [-> ->]; right; by left ]).
  - rewrite lookup_insert_ne by done. apply lookup_delete_eq.
  - intros k H1 H2. rewrite lookup_insert_ne by done. by rewrite lookup_delete_ne.
  - apply lookup_insert_eq.
  - intros k Hk. unfold deps'. by rewrite lookup_insert_ne.
  - intros v Hv Ht. unfold deps'. rewrite lookup_insert_eq, Hv. simpl. by rewrite Ht.
  - intros v Hv Ht. unfold deps'. rewrite lookup_insert_eq, Hv. simpl. by rewrite Ht.
  - intros Hv. unfold deps'. rewrite lookup_insert_eq, Hv. reflexivity.
Qed.

Lemma bundle_stage_manifest_witness :
  ∃ m' deps' : gmap string json,
    In (WriteManifest "/proj/.build/package.json" m')
       (trace (prepareBuildDirectoryForParcel Sample.world "/proj" "/proj/.build" "out"))
    ∧ m' !! "name" = None
    ∧ m' !! "version" = Some (JStr "1.0.0")
    ∧ m' !! "devDependencies" = Some (JObj deps')
    ∧ deps' !! "parcel" = Some (JStr "^1.12.4")
    ∧ deps' !! "@babel/core" = Some (JStr "^7.9.0").
Proof.
  destruct (bundle_stage_manifest Sample.world "/proj" "/proj/.build" "out"
              Sample.manifest Sample.dev_dependencies eq_refl eq_refl eq_refl)
    as (m' & deps' & Hw & Hname & Hother & Hd & Hdeps & _ & _ & Hnone).
  exists m', deps'. repeat split.
  - apply Hw. by split.
  - exact Hname.
  - by rewrite Hother.
  - exact Hd.
  - by rewrite Hdeps.
  - by apply Hnone.
Defined.

(** C7 as stated fails on a manifest that declares [@babel/core] with the
    empty version range: the entry is present, and it is overwritten. *)
Lemma manifest_counterexample :
  let deps : gmap string json := {[ "@babel/core" := JStr "" ]} in
  let m : gmap string json := {[ "name" := JStr "app"; "devDependencies" := JObj deps ]} in
  deps !! "@babel/core" = Some (JStr "")
  ∧ prepare_manifest m
    = inr {[ "devDependencies" := JObj {[ "@babel/core" := JStr "^7.9.0" ]} ]}.
Proof. split; [reflexivity|]. vm_compute. reflexivity. Qed.

(* ===================================================================== *)
(** ** Which workers process a file *)
(* ===================================================================== *)

(** C3, at the failing input.  The worker [build:tsx] declares the one
    extension [tsx]; the extension index has no worker for [ts]; the test
    of line 176 lets the worker process [src/a.ts] all the same, and the
    file is transformed and written. *)
Theorem dispatcher_runs_undeclared_extension :
  let w : worker := ("build:tsx", Sample.script "cat") in
  declared_extensions (fst w) = ["tsx"]
  ∧ (∃ index, extToWorkerMap [w] = inr index
              ∧ index !! "ts" = None
              ∧ index !! "tsx" = Some [w])
  ∧ substr1 (extname "src/a.ts") = "ts"
  ∧ handles (fst w) "ts" = true
  ∧ dispatch_worker Sample.mapping Sample.world ∅ "/proj" "src" "out/_dist_" ["src/a.ts"] w
    = ([Emit (WORKER_UPDATE "build:tsx" RUNNING);
        ExecaBuild "cat" "src/a.ts";
        Mkdir "out/_dist_";
        WriteFile "out/_dist_/a.js" "export const x = 1;
import z from './b.js';";
        Emit (WORKER_COMPLETE "build:tsx" None)], inr tt).
Proof.
  intros w. split; [reflexivity|]. split.
  - exists {[ "tsx" := [w] ]}. repeat split; vm_compute; reflexivity.
  - repeat split; vm_compute; reflexivity.
Qed.

(** A file without extension is processed by every [build:] and [plugin:]
    worker: its extension is the empty string, and every such id includes
    a colon. *)
Example handles_no_extension :
  substr1 (extname "src/LICENSE") = "" ∧ handles "build:ts" "" = true.
Proof. split; reflexivity. Qed.

(* ===================================================================== *)
(** ** Strings as character lists *)
(* ===================================================================== *)

Lemma chars_app (a b : string) : chars (a +:+ b) = chars a ++ chars b.
Proof. induction a as [|c a IH]; simpl; [reflexivity|]. unfold chars in *. simpl. by rewrite IH. Qed.

Lemma str_app (a b : list ascii) : str (a ++ b) = str a +:+ str b.
Proof. induction a as [|c a IH]; simpl; [reflexivity|]. unfold str in *. simpl. by rewrite IH. Qed.

Lemma chars_inj (a b : string) : chars a = chars b → a = b.
Proof. intros H. rewrite <- (str_chars a), <- (str_chars b). by rewrite H. Qed.

Lemma startsWith_chars (s p : string) :
  startsWith s p = true ↔ ∃ rest, chars s = chars p ++ rest.
Proof.
  unfold startsWith. revert s. induction p as [|c p IH]; intros s; simpl.
  - split; [intros _; by exists (chars s)|]. by destruct s.
  - destruct s as [|d s]; simpl.
    + split; [discriminate|]. intros [rest H]. discriminate H.
    + destruct (ascii_dec c d) as [->|Hne].
      * rewrite IH. unfold chars. simpl. split; intros [rest H]; exists rest; congruence.
      * split; [discriminate|]. intros [rest H]. unfold chars in H. simpl in H. congruence.
Qed.

Lemma strip_prefix_Some (p l rest : list ascii) :
  strip_prefix p l = Some rest ↔ l = p ++ rest.
Proof.
  revert l. induction p as [|c p IH]; intros l; simpl.
  - split; congruence.
  - destruct l as [|d l]; [split; discriminate|].
    destruct (Ascii.eqb_spec c d) as [->|Hne].
    + rewrite IH. split; congruence.
    + split; [discriminate|]. congruence.
Qed.

Lemma strip_suffix_Some (s suffix stem : string) :
  strip_suffix s suffix = Some stem ↔ s = stem +:+ suffix.
Proof.
  unfold strip_suffix. split.
  - destruct (strip_prefix _ _) as [r|] eqn:E; simpl; [|discriminate].
    intros [= <-]. apply strip_prefix_Some in E.
    apply chars_inj. rewrite chars_app, chars_str.
    rewrite <- (rev_involutive (chars s)), E, rev_app_distr. by rewrite rev_involutive.
  - intros ->. rewrite chars_app, rev_app_distr.
    rewrite (proj2 (strip_prefix_Some _ _ (rev (chars stem))) eq_refl). simpl.
    by rewrite rev_involutive, str_chars.
Qed.


(* ===================================================================== *)
(** ** The shape of a path that has an extension *)
(* ===================================================================== *)

Lemma drop_slashes_app (s l : list ascii) :
  slashes s → match l with [] => True | c :: _ => is_slash c = false end →
  drop_slashes (s ++ l) = l.
Proof.
  intros Hs Hl. induction Hs as [|c s Hc _ IH]; simpl.
  - destruct l as [|c l]; simpl; [reflexivity|]. by rewrite Hl.
  - by rewrite Hc.
Qed.

Lemma drop_slashes_spec (r : list ascii) :
  ∃ s, r = s ++ drop_slashes r ∧ slashes s
       ∧ match drop_slashes r with [] => True | c :: _ => is_slash c = false end.
Proof.
  induction r as [|c r (s & Hr & Hs & Hd)]; simpl.
  - exists []. repeat split. constructor.
  - destruct (is_slash c) eqn:E.
    + exists (c :: s). repeat split; [simpl; congruence | by constructor | exact Hd].
    + exists []. repeat split; [constructor | exact E].
Qed.

Lemma take_component_app (l rest : list ascii) :
  slash_free l → at_slash rest → take_component (l ++ rest) = l.
Proof.
  intros Hl Hr. induction Hl as [|c l Hc _ IH]; simpl.
  - destruct rest as [|c rest]; simpl; [reflexivity|]. simpl in Hr. by rewrite Hr.
  - by rewrite Hc, IH.
Qed.

Lemma take_component_spec (r : list ascii) :
  ∃ rest, r = take_component r ++ rest ∧ slash_free (take_component r) ∧ at_slash rest.
Proof.
  induction r as [|c r (rest & Hr & Hf & Ha)]; simpl.
  - exists []. repeat split. constructor.
  - destruct (is_slash c) eqn:E.
    + exists (c :: r). repeat split; [constructor | exact E].
    + exists rest. repeat split; [simpl; congruence | by constructor | exact Ha].
Qed.

Lemma break_dot_app (a b : list ascii) :
  dot_free a → break_dot (a ++ "."%char :: b) = Some (a, b).
Proof.
  induction 1 as [|c a Hc _ IH]; simpl; [reflexivity|]. by rewrite Hc, IH.
Qed.

Lemma break_dot_Some (l a b : list ascii) :
  break_dot l = Some (a, b) → l = a ++ "."%char :: b ∧ dot_free a.
Proof.
  revert a b. induction l as [|c l IH]; intros a b; simpl; [discriminate|].
  destruct (is_dot c) eqn:E.
  - intros [= <- <-]. split; [|constructor].
    simpl. f_equal. by apply Ascii.eqb_eq in E.
  - destruct (break_dot l) as [[a' b']|]; [|discriminate].
    intros [= <- <-]. destruct (IH a' b' eq_refl) as [-> Hd].
    split; [reflexivity|]. by constructor.
Qed.

Lemma slash_free_rev (l : list ascii) : slash_free l → slash_free (rev l).
Proof. apply List.Forall_rev. Qed.

Lemma dot_free_rev (l : list ascii) : dot_free l → dot_free (rev l).
Proof. apply List.Forall_rev. Qed.

Lemma extname_chars_intro (p e : list ascii) :
  has_extension p e → extname_chars p = "."%char :: e.
Proof.
  intros (s & rpre & rest & Hp & Hs & Hes & Hed & Hne & Hps & Hpne & Hr).
  unfold extname_chars. rewrite Hp.
  assert (Hre : rev e ≠ []).
  { intros H. apply Hne. by rewrite <- (rev_involutive e), H. }
  rewrite drop_slashes_app; [|exact Hs|].
  2:{ pose proof (slash_free_rev e Hes) as Hrs.
      destruct (rev e) as [|c re]; [done|]. by inversion Hrs. }
  replace (rev e ++ "."%char :: rpre ++ rest)
    with ((rev e ++ "."%char :: rpre) ++ rest) by (by rewrite <- app_assoc).
  rewrite take_component_app; [|apply Forall_app; split|exact Hr].
  2:{ by apply slash_free_rev. }
  2:{ by constructor. }
  rewrite break_dot_app by (by apply dot_free_rev).
  destruct rpre as [|d rpre]; [done|].
  destruct (rev e) as [|c re] eqn:E; [done|].
  rewrite <- E, rev_involutive. reflexivity.
Qed.

Lemma extname_chars_inv (p e : list ascii) :
  extname_chars p = "."%char :: e → e ≠ [] → has_extension p e.
Proof.
  unfold extname_chars. intros H Hne.
  destruct (drop_slashes_spec (rev p)) as (s & Hp & Hs & Hd).
  destruct (take_component_spec (drop_slashes (rev p))) as (rest & Hc & Hcf & Hr).
  destruct (break_dot (take_component (drop_slashes (rev p)))) as [[rext rpre]|] eqn:Hb;
    [|discriminate H].
  apply break_dot_Some in Hb as [Hb Hdf].
  assert (He : rpre ≠ [] ∧ e = rev rext).
  { destruct rpre as [|d rpre]; [discriminate H|]. split; [done|].
    destruct rext as [|c rext].
    - destruct rpre; [destruct (is_dot d); [discriminate H|]|]; by injection H as <-.
    - destruct rpre; by injection H as <-. }
  destruct He as [Hpne ->].
  rewrite Hb in Hcf. apply Forall_app in Hcf as [Hcf1 Hcf2]. inversion Hcf2; subst.
  exists s, rpre, rest. repeat split; try done.
  - rewrite rev_involutive. rewrite Hp at 1. rewrite Hc, Hb at 1. by rewrite <- app_assoc.
  - by apply slash_free_rev.
  - by apply dot_free_rev.
Qed.

(* ===================================================================== *)
(** ** The scan of [path.extname] *)
(* ===================================================================== *)

Lemma run_snoc (l : list ascii) (c : ascii) (i : Z) (st : scan_state) :
  run (l ++ [c]) i st = see_char c (i - Z.of_nat (List.length l)) (run l i st).
Proof.
  revert i st. induction l as [|d l IH]; intros i st; simpl run.
  - simpl. by rewrite Z.sub_0_r.
  - rewrite IH. f_equal. simpl List.length. lia.
Qed.

Lemma loop_run (l rest : list ascii) (i : Z) (st : scan_state) :
  slash_free l →
  extname_loop (l ++ rest) i st = extname_loop rest (i - Z.of_nat (List.length l)) (run l i st).
Proof.
  intros Hl. revert i st. induction Hl as [|c l Hc _ IH]; intros i st.
  - simpl. by rewrite Z.sub_0_r.
  - simpl app. simpl extname_loop. rewrite Hc, IH. simpl run. f_equal.
    simpl List.length. lia.
Qed.

Lemma loop_slashes (s rest : list ascii) (i : Z) :
  slashes s →
  extname_loop (s ++ rest) i scan_init
  = extname_loop rest (i - Z.of_nat (List.length s)) scan_init.
Proof.
  intros Hs. revert i. induction Hs as [|c s Hc _ IH]; intros i.
  - simpl. by rewrite Z.sub_0_r.
  - simpl app. simpl extname_loop. rewrite Hc. simpl. rewrite IH. f_equal.
    simpl List.length. lia.
Qed.

Lemma break_dot_snoc (l : list ascii) (c : ascii) :
  break_dot (l ++ [c])
  = match break_dot l with
    | Some (a, b) => Some (a, b ++ [c])
    | None => if is_dot c then Some (l, []) else None
    end.
Proof.
  induction l as [|d l IH]; simpl.
  - by destruct (is_dot c).
  - destruct (is_dot d); [reflexivity|]. rewrite IH.
    destruct (break_dot l) as [[a b]|]; [reflexivity|]. by destruct (is_dot c).
Qed.

Lemma break_dot_length (l a b : list ascii) :
  break_dot l = Some (a, b) → List.length l = List.length a + 1 + List.length b.
Proof.
  intros [-> _]%break_dot_Some. rewrite length_app. simpl. lia.
Qed.

Lemma run_summary (l : list ascii) (i0 : Z) :
  (Z.of_nat (List.length l) ≤ i0 + 1)%Z → run l i0 scan_init = summary l i0.
Proof.
  induction l as [|c l IH] using rev_ind; intros Hi; [reflexivity|].
  rewrite length_app in Hi. simpl in Hi.
  rewrite run_snoc, IH by lia. unfold summary. rewrite break_dot_snoc.
  assert (E1 : (i0 + 1 =? -1)%Z = false) by (apply Z.eqb_neq; lia).
  destruct (break_dot l) as [[a b]|] eqn:E.
  - pose proof (break_dot_length l a b E) as Hlen.
    assert (E2 : (i0 - Z.of_nat (List.length a) =? -1)%Z = false) by (apply Z.eqb_neq; lia).
    rewrite last_snoc. unfold see_char. simpl. rewrite E1. simpl. rewrite E2. simpl.
    destruct (is_dot c); simpl; [|reflexivity].
    destruct (last b) as [d|]; [destruct (is_dot d)|]; reflexivity.
  - unfold see_char. destruct l as [|d l]; simpl.
    + destruct (is_dot c); simpl; rewrite ?Z.sub_0_r; reflexivity.
    + rewrite E1. simpl.
      destruct (is_dot c); simpl;
        first [ reflexivity
              | by destruct (l ++ [c])
              | f_equal; rewrite ?length_app in *; simpl in *; lia ].
Qed.

Lemma slice_app (x y z : list ascii) (a b : Z) :
  a = Z.of_nat (List.length x) → b = Z.of_nat (List.length x + List.length y) →
  slice (x ++ y ++ z) a b = y.
Proof.
  intros -> ->. unfold slice.
  rewrite Nat2Z.id.
  replace (Z.to_nat (Z.of_nat (List.length x + List.length y) - Z.of_nat (List.length x)))
    with (List.length y) by lia.
  rewrite drop_app_length. by rewrite take_app_length.
Qed.

(** The scan of Node's [extname] computes [extname_chars]. *)
Theorem extname_scan_chars (p : list ascii) : extname_scan p = extname_chars p.
Proof.
  unfold extname_scan, extname_chars.
  destruct (drop_slashes_spec (rev p)) as (s & Hp & Hs & Hd).
  destruct (take_component_spec (drop_slashes (rev p))) as (rest & Hc & Hcf & Hr).
  set (comp := take_component (drop_slashes (rev p))) in *.
  assert (Hlen : List.length p = List.length s + List.length comp + List.length rest).
  { rewrite <- length_rev, Hp, Hc, !length_app. lia. }
  assert (Hpath : p = rev rest ++ rev comp ++ rev s).
  { rewrite <- (rev_involutive p), Hp, Hc, !rev_app_distr. by rewrite <- app_assoc. }
  set (i1 := (Z.of_nat (List.length p) - 1 - Z.of_nat (List.length s))%Z).
  set (i2 := (i1 - Z.of_nat (List.length comp))%Z).
  assert (Hloop : extname_loop (rev p) (Z.of_nat (List.length p) - 1) scan_init
                  = extname_loop rest i2 (summary comp i1)).
  { rewrite Hp at 1. rewrite loop_slashes by exact Hs. fold i1.
    rewrite Hc at 1. rewrite loop_run by exact Hcf. fold i2.
    rewrite run_summary; [reflexivity|]. subst i1. lia. }
  rewrite Hloop. clear Hloop.
  assert (Hfin : extname_loop rest i2 (summary comp i1)
                 = match break_dot comp with
                   | None => Scan (-1) (startPart (extname_loop rest i2 (summary comp i1)))
                                  (end_ (summary comp i1)) (matchedSlash (summary comp i1)) 0
                   | Some (a, b) =>
                       Scan (i1 - Z.of_nat (List.length a)) (i2 + 1) (i1 + 1) false
                            (match last b with
                             | None => 0
                             | Some c => if is_dot c then 1 else -1
                             end)
                   end).
  { destruct rest as [|c rest].
    - simpl. unfold summary.
      destruct (break_dot comp) as [[a b]|] eqn:E; [|reflexivity].
      f_equal. subst i2 i1. simpl in Hlen. lia.
    - simpl in Hr. simpl. rewrite Hr.
      destruct comp as [|d comp'] eqn:Ecomp.
      { exfalso. simpl in Hc. rewrite Hc in Hd. congruence. }
      unfold summary.
      destruct (break_dot (d :: comp')) as [[a b]|]; reflexivity. }
  rewrite Hfin. clear Hfin.
  destruct (break_dot comp) as [[a b]|] eqn:E; [|reflexivity].
  pose proof (break_dot_length comp a b E) as Hcl.
  apply break_dot_Some in E as [Hcomp Hdf].
  simpl.
  assert (E1 : (i1 - Z.of_nat (List.length a) =? -1)%Z = false).
  { apply Z.eqb_neq. subst i1. lia. }
  assert (E2 : (i1 + 1 =? -1)%Z = false).
  { apply Z.eqb_neq. subst i1. lia. }
  rewrite E1, E2. simpl.
  assert (Hslice : slice p (i1 - Z.of_nat (List.length a)) (i1 + 1) = "."%char :: rev a).
  { rewrite Hpath, Hcomp, rev_app_distr. simpl. rewrite <- !app_assoc. simpl.
    rewrite (app_assoc (rev rest) (rev b)).
    change ("."%char :: rev a ++ rev s) with (("."%char :: rev a) ++ rev s).
    apply slice_app.
    - rewrite length_app, !length_rev. subst i1. lia.
    - rewrite length_app, !length_rev. simpl. rewrite length_rev. subst i1. lia. }
  rewrite Hslice. clear Hslice.
  destruct b as [|d b]; [reflexivity|].
  destruct (last (d :: b)) as [x|] eqn:El; [|by apply last_None in El].
  assert (Hcase : match a, b with
                  | [], [] =>
                      x = d
                      ∧ (i1 - Z.of_nat (List.length a) =? i1 + 1 - 1)%Z = true
                      ∧ (i1 - Z.of_nat (List.length a) =? i2 + 1 + 1)%Z = true
                  | _, _ =>
                      (i1 - Z.of_nat (List.length a) =? i1 + 1 - 1)%Z
                      && (i1 - Z.of_nat (List.length a) =? i2 + 1 + 1)%Z = false
                  end).
  { destruct a as [|c a], b as [|d' b]; simpl in Hcl |- *.
    - split; [by injection El|]. split; apply Z.eqb_eq; subst i2; lia.
    - apply andb_false_iff. right. apply Z.eqb_neq. subst i2. lia.
    - apply andb_false_iff. left. apply Z.eqb_neq. lia.
    - apply andb_false_iff. left. apply Z.eqb_neq. lia. }
  destruct a as [|c a], b as [|d' b].
  - destruct Hcase as (-> & -> & ->). by destruct (is_dot d).
  - rewrite <- andb_assoc, Hcase, andb_false_r. by destruct (is_dot x).
  - rewrite <- andb_assoc, Hcase, andb_false_r. by destruct (is_dot x).
  - rewrite <- andb_assoc, Hcase, andb_false_r. by destruct (is_dot x).
Qed.

Lemma extname_eq (path : string) : extname path = str (extname_chars (chars path)).
Proof. unfold extname. by rewrite extname_scan_chars. Qed.

(* ===================================================================== *)
(** ** Relative specifiers *)
(* ===================================================================== *)

Lemma relative_first_char (spec : string) :
  relative spec → ∃ l, chars spec = "."%char :: l.
Proof.
  intros [H|H]; apply startsWith_chars in H as [rest H]; rewrite H; simpl; eauto.
Qed.

Lemma relative_not_absolute (spec : string) :
  relative spec → startsWith spec "http" = false ∧ startsWith spec "/" = false.
Proof.
  intros [l Hl]%relative_first_char.
  split; apply not_true_is_false; intros [rest H]%startsWith_chars;
    rewrite Hl in H; discriminate H.
Qed.

(** Both resolvers send a relative specifier to the same code. *)
Lemma resolver_relative (tbl : gmap string string) (k : worker_kind)
    (dependencyImportMap : gmap string string) (f spec : string) :
  relative spec →
  resolver tbl k dependencyImportMap f spec = resolve_relative tbl f spec.
Proof.
  intros Hr. destruct (relative_not_absolute spec Hr) as [H1 H2].
  assert (H3 : startsWith spec "./" || startsWith spec "../" = true).
  { destruct Hr as [-> | ->]; [reflexivity | apply orb_true_r]. }
  destruct k; unfold resolver, build_resolver, plugin_resolver; by rewrite H1, H2, H3.
Qed.

Lemma extname_chars_shape (p : list ascii) :
  extname_chars p = [] ∨ ∃ e, extname_chars p = "."%char :: e.
Proof.
  unfold extname_chars.
  destruct (break_dot _) as [[rext rpre]|]; [|by left].
  destruct rpre as [|d rpre]; [by left|].
  destruct rext as [|c rext]; [destruct rpre; [destruct (is_dot d)|]|]; eauto.
Qed.

Lemma extension_of_spec (spec : string) :
  substr1 (extname spec) ≠ "" →
  has_extension (chars spec) (chars (substr1 (extname spec))).
Proof.
  rewrite !extname_eq. intros Hne.
  destruct (extname_chars_shape (chars spec)) as [H|[e H]]; rewrite H in *.
  - by destruct Hne.
  - change (substr1 (str ("."%char :: e))) with (str e) in *.
    rewrite chars_str. apply extname_chars_inv; [exact H|].
    intros ->. by destruct Hne.
Qed.

Lemma endsWith_slash (spec : string) :
  endsWith spec "/" = true ↔ ∃ l, rev (chars spec) = "/"%char :: l.
Proof.
  unfold endsWith, strip_suffix.
  change (rev (chars "/")) with ["/"%char].
  destruct (rev (chars spec)) as [|c l]; cbn [strip_prefix option_map].
  - split; [discriminate|]. intros [l H]. discriminate H.
  - destruct (Ascii.eqb_spec "/"%char c) as [<-|Hne]; cbn [strip_prefix option_map].
    + split; eauto.
    + split; [discriminate|]. intros [l' H]. congruence.
Qed.

(** A specifier with an extension and no trailing slash ends with the
    extension, which follows a stem that ends with the dot. *)
Lemma extension_ends_spec (spec : string) :
  substr1 (extname spec) ≠ "" → endsWith spec "/" = false →
  ∃ body, spec = (str body +:+ ".") +:+ substr1 (extname spec) ∧ body ≠ [].
Proof.
  intros Hne Hslash.
  destruct (extension_of_spec spec Hne)
    as (s & rpre & rest & Hp & Hs & Hes & Hed & Hene & Hps & Hpne & Hr).
  destruct s as [|c s].
  - exists (rev (rpre ++ rest)). split.
    + apply chars_inj. rewrite !chars_app, chars_str.
      rewrite <- (rev_involutive (chars spec)), Hp. simpl.
      rewrite rev_app_distr, rev_involutive. simpl.
      by rewrite <- !app_assoc.
    + intros H. apply (f_equal (@rev ascii)) in H. rewrite rev_involutive in H.
      simpl in H. by destruct rpre.
  - apply not_true_iff_false in Hslash. destruct Hslash.
    apply endsWith_slash. inversion Hs as [|? ? Hc]; subst.
    apply Ascii.eqb_eq in Hc as ->. simpl in Hp. eauto.
Qed.

Lemma extension_before_slash (spec : string) :
  substr1 (extname spec) ≠ "" → endsWith spec "/" = true →
  strip_suffix spec (substr1 (extname spec)) = None.
Proof.
  intros Hne [l Hl]%endsWith_slash.
  destruct (strip_suffix _ _) as [stem|] eqn:E; [|reflexivity].
  apply strip_suffix_Some in E.
  destruct (extension_of_spec spec Hne)
    as (_ & _ & _ & _ & _ & Hes & _ & Hene & _).
  apply (f_equal chars) in E. rewrite chars_app in E.
  rewrite E, rev_app_distr in Hl.
  apply slash_free_rev in Hes.
  destruct (rev (chars (substr1 (extname spec)))) as [|c re] eqn:Er.
  - destruct Hene. by rewrite <- (rev_involutive (chars _)), Er.
  - simpl in Hl. injection Hl as -> _. by inversion Hes.
Qed.

(** Away from the failing input of C4, the relative case does what C4
    says.  For a specifier that begins with [./] or [../], under either
    resolver:
    - when [path.extname] finds no extension, the specifier is returned as
      it is and exactly one missing-extension diagnostic is emitted;
    - when it has an extension and does not end with a slash, it is a stem
      followed by the extension, and the stem followed by the remapped
      extension is returned (an extension without a non-empty entry in the
      table is its own image), with no diagnostic. *)
Theorem relative_specifier_rewrite (tbl : gmap string string) (k : worker_kind)
    (dependencyImportMap : gmap string string) (f spec : string) :
  startsWith spec "./" = true ∨ startsWith spec "../" = true →
  let ext := substr1 (extname spec) in
  (ext = "" →
     resolver tbl k dependencyImportMap f spec = ([missing_extension f spec], inr spec))
  ∧ (ext ≠ "" → endsWith spec "/" = false →
     ∃ stem, spec = stem +:+ ext
             ∧ resolver tbl k dependencyImportMap f spec
               = ([], inr (stem +:+ remap tbl ext))).
Proof.
  intros Hrel ext. rewrite (resolver_relative tbl k dependencyImportMap f spec Hrel).
  unfold resolve_relative. fold ext. split.
  - intros ->. reflexivity.
  - intros Hne Hslash.
    destruct (extension_ends_spec spec Hne Hslash) as (body & Hspec & _).
    fold ext in Hspec. exists (str body +:+ "."). split; [exact Hspec|].
    rewrite (proj2 (String.eqb_neq ext "")) by exact Hne.
    unfold remap, replace_at_end.
    destruct (truthy_str (tbl !! ext)) as [rep|]; simpl.
    + by rewrite (proj2 (strip_suffix_Some spec ext _) Hspec).
    + by rewrite <- Hspec.
Qed.

Lemma relative_specifier_rewrite_witness :
  resolver Sample.mapping BuildWorker ∅ "src/a.ts" "./b"
    = ([missing_extension "src/a.ts" "./b"], inr "./b")
  ∧ (∃ stem, "../lib/b.ts" = stem +:+ "ts"
             ∧ resolver Sample.mapping PluginWorker ∅ "src/a.ts" "../lib/b.ts"
               = ([], inr (stem +:+ "js"))).
Proof.
  split.
  - exact (proj1 (relative_specifier_rewrite Sample.mapping BuildWorker ∅ "src/a.ts" "./b"
                    (or_introl eq_refl)) eq_refl).
  - refine (proj2 (relative_specifier_rewrite Sample.mapping PluginWorker ∅
                     "src/a.ts" "../lib/b.ts" (or_intror eq_refl)) _ eq_refl).
    vm_compute. discriminate.
Defined.

(** X17.  A relative specifier whose extension is followed by trailing
    slashes is returned as it is, and nothing is emitted: the pattern of
    lines 214 and 259 looks for the extension at the very end. *)
Lemma relative_specifier_trailing_slash (tbl : gmap string string) (k : worker_kind)
    (dependencyImportMap : gmap string string) (f spec : string) :
  relative spec → substr1 (extname spec) ≠ "" → endsWith spec "/" = true →
  resolver tbl k dependencyImportMap f spec = ([], inr spec).
Proof.
  intros Hrel Hne Hslash.
  rewrite (resolver_relative tbl k dependencyImportMap f spec Hrel).
  unfold resolve_relative.
  rewrite (proj2 (String.eqb_neq _ "")) by exact Hne.
  unfold replace_at_end.
  rewrite (extension_before_slash spec Hne Hslash).
  by destruct (truthy_str _).
Qed.

Lemma relative_specifier_trailing_slash_witness :
  resolver Sample.mapping BuildWorker ∅ "src/a.ts" "./b.ts/" = ([], inr "./b.ts/").
Proof.
  apply (relative_specifier_trailing_slash Sample.mapping BuildWorker ∅ "src/a.ts" "./b.ts/");
    [by left| |reflexivity].
  vm_compute. discriminate.
Defined.

(** C4, at the failing input.  In the relative specifier [./b.ts/] the
    extension is followed by a slash: [path.extname] finds the extension
    [ts], which the table maps to [js], and the replacement of lines 214
    and 259 is attempted with a pattern that only matches at the very end.
    The specifier is returned as it is, with the extension not remapped,
    and no diagnostic is emitted. *)
Theorem relative_specifier_with_slash_unchanged :
  startsWith "./b.ts/" "./" = true
  ∧ substr1 (extname "./b.ts/") = "ts"
  ∧ remap Sample.mapping "ts" = "js"
  ∧ resolver Sample.mapping BuildWorker ∅ "src/a.ts" "./b.ts/" = ([], inr "./b.ts/")
  ∧ resolver Sample.mapping PluginWorker ∅ "src/a.ts" "./b.ts/" = ([], inr "./b.ts/").
Proof. repeat split; vm_compute; reflexivity. Qed.

(* ===================================================================== *)
(** ** Rewriting twice *)
(* ===================================================================== *)

Lemma resolve_relative_returns (tbl : gmap string string) (f spec : string) :
  ∃ s', outcome (resolve_relative tbl f spec) = inr s'.
Proof.
  unfold resolve_relative.
  destruct (_ =? _)%string; [by eexists|].
  destruct (truthy_str _); by eexists.
Qed.

(** The resolvers do not throw. *)
Lemma resolver_returns (tbl : gmap string string) (k : worker_kind)
    (dependencyImportMap : gmap string string) (f spec : string) :
  outcome (resolver tbl k dependencyImportMap f spec)
  = inr (resolved tbl k dependencyImportMap f spec).
Proof.
  unfold resolved, value_or.
  assert (H : ∃ s', outcome (resolver tbl k dependencyImportMap f spec) = inr s').
  { destruct k; unfold resolver, build_resolver, plugin_resolver;
      (destruct (_ || _); [by eexists|]);
      (destruct (_ || _); [apply resolve_relative_returns|]);
      [destruct (truthy_str _)|]; by eexists. }
  destruct H as [s' ->]. reflexivity.
Qed.

Lemma rewrite_segments_returns (tbl : gmap string string) (k : worker_kind)
    (dependencyImportMap : gmap string string) (f : string) (segs : list segment) :
  outcome (rewrite_segments (resolver tbl k dependencyImportMap f) segs)
  = inr (unparse (map (resolve_segment tbl k dependencyImportMap f) segs)).
Proof.
  induction segs as [|seg segs IH]; [reflexivity|].
  simpl. rewrite outcome_bind.
  assert (Hseg : outcome (rewrite_segment (resolver tbl k dependencyImportMap f) seg)
                 = inr (match resolve_segment tbl k dependencyImportMap f seg with
                        | Text t => t | Specifier s => s end)).
  { destruct seg; [reflexivity|]. simpl. apply resolver_returns. }
  rewrite Hseg, outcome_bind, IH. reflexivity.
Qed.

Lemma rewrite_unparse (tbl : gmap string string) (W : World) (k : worker_kind)
    (dependencyImportMap : gmap string string) (f code : string) :
  rewrite tbl W k dependencyImportMap f code
  = unparse (map (resolve_segment tbl k dependencyImportMap f) (scan W code)).
Proof.
  unfold rewrite, value_or, transformEsmImports.
  by rewrite rewrite_segments_returns.
Qed.

(** A specifier that begins with a slash is left as it is. *)
Lemma resolved_rooted (tbl : gmap string string) (k : worker_kind)
    (dependencyImportMap : gmap string string) (f spec : string) :
  startsWith spec "http" || startsWith spec "/" = true →
  resolved tbl k dependencyImportMap f spec = spec.
Proof.
  intros H. unfold resolved, value_or.
  destruct k; unfold resolver, build_resolver, plugin_resolver; by rewrite H.
Qed.

Lemma plain_chars (s : string) :
  plain s = true → slash_free (chars s) ∧ dot_free (chars s).
Proof.
  unfold plain. rewrite forallb_forall. intros H.
  split; apply List.Forall_forall; intros c Hc; specialize (H c Hc);
    apply not_true_is_false; intros Hx; apply Ascii.eqb_eq in Hx; subst c;
    discriminate H.
Qed.

Lemma truthy_str_Some (o : option string) (v : string) :
  truthy_str o = Some v ↔ o = Some v ∧ v ≠ "".
Proof.
  destruct o as [[|c s]|]; simpl; split; try discriminate.
  - intros [[= <-] H]. by destruct H.
  - by intros [= <-].
  - by intros [[= <-] _].
  - by intros [? ?].
Qed.

(** Changing the extension of a relative specifier leaves it relative. *)
Lemma relative_stem (body e e' : list ascii) :
  relative (str (body ++ "."%char :: e)) → body ≠ [] → slash_free e → e ≠ [] →
  relative (str (body ++ "."%char :: e')).
Proof.
  intros Hrel Hb He Hne.
  destruct Hrel as [H|H]; apply startsWith_chars in H as [rest H];
    rewrite chars_str in H; simpl in H.
  - left. apply startsWith_chars. rewrite chars_str.
    destruct body as [|b0 [|b1 body]]; simpl in *; [done|discriminate H|].
    injection H as -> -> _. eauto.
  - right. apply startsWith_chars. rewrite chars_str.
    destruct body as [|b0 [|b1 [|b2 body]]]; simpl in *; [done| |discriminate H|].
    + destruct e as [|c e]; [done|]. injection H as _ -> _. by inversion He.
    + injection H as -> -> -> _. eauto.
Qed.

(** What a relative specifier becomes is left as it is by the resolver,
    when the table is canonical. *)
Lemma resolve_relative_fixed (tbl : gmap string string) (f spec : string) :
  canonical tbl → relative spec →
  ∀ s', outcome (resolve_relative tbl f spec) = inr s' →
        relative s' ∧ outcome (resolve_relative tbl f s') = inr s'.
Proof.
  intros Hcan Hrel s'. unfold resolve_relative at 1.
  set (ext := substr1 (extname spec)).
  destruct (ext =? "")%string eqn:Eext.
  { intros [= <-]. split; [exact Hrel|].
    unfold resolve_relative. fold ext. by rewrite Eext. }
  destruct (truthy_str (tbl !! ext)) as [rep|] eqn:Erep.
  2:{ intros [= <-]. split; [exact Hrel|].
      unfold resolve_relative. fold ext. by rewrite Eext, Erep. }
  unfold replace_at_end.
  destruct (strip_suffix spec ext) as [stem|] eqn:Estem.
  2:{ intros [= <-]. split; [exact Hrel|].
      unfold resolve_relative, replace_at_end. fold ext. by rewrite Eext, Erep, Estem. }
  intros [= <-].
  apply String.eqb_neq in Eext.
  apply strip_suffix_Some in Estem.
  apply truthy_str_Some in Erep as [Hlook Hrep].
  destruct (Hcan ext rep Hlook) as [Hempty|[Hplain Hremap]]; [by destruct Hrep|].
  destruct (plain_chars rep Hplain) as [Hrs Hrd].
  destruct (extension_of_spec spec Eext)
    as (s0 & rpre & rest & Hp & Hs & Hes & Hed & Hene & Hps & Hpne & Hr).
  fold ext in Hp, Hes, Hed, Hene.
  assert (Hspec : rev (chars spec) = rev (chars ext) ++ rev (chars stem)).
  { by rewrite Estem, chars_app, rev_app_distr. }
  assert (Hs0 : s0 = []).
  { destruct s0 as [|c s0]; [reflexivity|]. exfalso.
    apply Forall_cons in Hs as [Hc _]. rewrite Hspec in Hp.
    apply slash_free_rev in Hes.
    destruct (rev (chars ext)) as [|d re] eqn:Er.
    - apply Hene. by rewrite <- (rev_involutive (chars ext)), Er.
    - simpl in Hp. injection Hp as -> _. inversion Hes; congruence. }
  subst s0. simpl in Hp. rewrite Hspec in Hp. apply app_inv_head in Hp.
  assert (Hstem : chars stem = rev (rpre ++ rest) ++ ["."%char]).
  { rewrite <- (rev_involutive (chars stem)), Hp. reflexivity. }
  assert (Hcrep : chars rep ≠ []).
  { intros H. apply Hrep. apply chars_inj. by rewrite H. }
  assert (Hext' : substr1 (extname (stem +:+ rep)) = rep).
  { rewrite extname_eq, (extname_chars_intro _ (chars rep)).
    - change (substr1 (str ("."%char :: chars rep))) with (str (chars rep)).
      apply str_chars.
    - exists [], rpre, rest. repeat split; try done.
      rewrite chars_app, rev_app_distr, Hp. reflexivity. }
  assert (Hrel' : relative (stem +:+ rep)).
  { rewrite <- (str_chars (stem +:+ rep)), chars_app, Hstem, <- app_assoc. simpl.
    apply (relative_stem _ (chars ext)); try done.
    - rewrite <- (str_chars spec), Estem, chars_app, Hstem, <- app_assoc in Hrel.
      exact Hrel.
    - intros H. apply (f_equal (@rev ascii)) in H. rewrite rev_involutive in H.
      simpl in H. by destruct rpre. }
  split; [exact Hrel'|].
  unfold resolve_relative. rewrite Hext'.
  rewrite (proj2 (String.eqb_neq rep "")) by exact Hrep.
  unfold remap in Hremap. unfold replace_at_end.
  destruct (truthy_str (tbl !! rep)) as [rep'|]; [|reflexivity].
  simpl in Hremap. subst rep'.
  by rewrite (proj2 (strip_suffix_Some (stem +:+ rep) rep stem) eq_refl).
Qed.

(** Resolving a specifier a second time changes nothing. *)
Lemma resolved_idempotent (tbl : gmap string string) (k : worker_kind)
    (dependencyImportMap : gmap string string) (f spec : string) :
  canonical tbl →
  resolved tbl k dependencyImportMap f (resolved tbl k dependencyImportMap f spec)
  = resolved tbl k dependencyImportMap f spec.
Proof.
  intros Hcan.
  destruct (startsWith spec "http" || startsWith spec "/") eqn:H1.
  { by rewrite !(resolved_rooted tbl k dependencyImportMap f spec H1). }
  destruct (startsWith spec "./" || startsWith spec "../") eqn:H2.
  - assert (Hrel : relative spec).
    { apply orb_true_iff in H2. exact H2. }
    pose proof (resolver_returns tbl k dependencyImportMap f spec) as Hret.
    rewrite resolver_relative in Hret by exact Hrel.
    destruct (resolve_relative_fixed tbl f spec Hcan Hrel _ Hret) as [Hrel' Hfix].
    rewrite <- (resolver_relative tbl k dependencyImportMap) in Hfix by exact Hrel'.
    unfold resolved at 1, value_or. by rewrite Hfix.
  - apply resolved_rooted.
    unfold resolved, value_or.
    destruct k; unfold resolver, build_resolver, plugin_resolver; rewrite H1, H2;
      [destruct (truthy_str _)|]; reflexivity.
Qed.

(** On the scanned form of a module, no assumption on the scan is needed:
    rewriting the rewritten occurrences returns them as they are. *)
Lemma rewrite_segments_idempotent (tbl : gmap string string) (k : worker_kind)
    (dependencyImportMap : gmap string string) (f : string) (segs : list segment) :
  canonical tbl →
  outcome (rewrite_segments (resolver tbl k dependencyImportMap f)
             (map (resolve_segment tbl k dependencyImportMap f) segs))
  = outcome (rewrite_segments (resolver tbl k dependencyImportMap f) segs).
Proof.
  intros Hcan. rewrite !rewrite_segments_returns. do 2 f_equal.
  rewrite map_map. apply map_ext.
  intros [t|s]; simpl; [reflexivity|].
  f_equal. by apply resolved_idempotent.
Qed.

(** C2 (as amended).  With an extension table whose output extensions are
    plain and are not remapped again, under the resolver of either kind of
    worker and whatever the dependency import map: what the resolver
    returns for a specifier is returned as it is when it is resolved again,
    for every specifier; and rewriting the rewritten code gives the
    rewritten code, for every module in which the scan finds the rewritten
    specifiers where it found the original ones. *)
Theorem rewrite_idempotent (tbl : gmap string string) (W : World) (k : worker_kind)
    (dependencyImportMap : gmap string string) (f : string) :
  canonical tbl →
  (∀ spec,
     resolved tbl k dependencyImportMap f (resolved tbl k dependencyImportMap f spec)
     = resolved tbl k dependencyImportMap f spec)
  ∧ (∀ code,
       scan W (rewrite tbl W k dependencyImportMap f code)
       = map (resolve_segment tbl k dependencyImportMap f) (scan W code) →
       rewrite tbl W k dependencyImportMap f (rewrite tbl W k dependencyImportMap f code)
       = rewrite tbl W k dependencyImportMap f code).
Proof.
  intros Hcan. split; [intros spec; by apply resolved_idempotent|].
  intros code Hscan.
  rewrite (rewrite_unparse tbl W k dependencyImportMap f (rewrite _ _ _ _ _ _)), Hscan.
  rewrite (rewrite_unparse tbl W k dependencyImportMap f code).
  f_equal. rewrite map_map. apply map_ext.
  intros [t|s]; simpl; [reflexivity|].
  f_equal. by apply resolved_idempotent.
Qed.

Lemma sample_mapping_canonical : canonical Sample.mapping.
Proof.
  unfold canonical.
  set (P := fun (_ : string) (rep : string) =>
              rep = "" ∨ (plain rep = true ∧ remap Sample.mapping rep = rep)).
  unfold Sample.mapping at 1. cbn [list_to_map foldr uncurry].
  repeat (apply map_Forall_insert_2; [right; split; vm_compute; reflexivity|]).
  apply map_Forall_empty.
Defined.

Lemma rewrite_idempotent_witness :
  rewrite Sample.mapping Sample.world BuildWorker {[ "preact" := "./preact.js" ]} "src/a.ts"
    (rewrite Sample.mapping Sample.world BuildWorker {[ "preact" := "./preact.js" ]} "src/a.ts"
       "import {h} from 'preact'; import z from './b.ts'; import y from 'vue';")
  = rewrite Sample.mapping Sample.world BuildWorker {[ "preact" := "./preact.js" ]} "src/a.ts"
      "import {h} from 'preact'; import z from './b.ts'; import y from 'vue';".
Proof.
  apply (proj2 (rewrite_idempotent Sample.mapping Sample.world BuildWorker
                  {[ "preact" := "./preact.js" ]} "src/a.ts" sample_mapping_canonical)).
  vm_compute. reflexivity.
Defined.

(** C2 as stated fails for a dependency import map whose entry holds a
    quote: the replacement brings a second import statement into the
    rewritten code, which the second rewrite resolves. *)
Lemma rewrite_twice_counterexample :
  let imports : gmap string string := {[ "x" := "y'; import 'z" ]} in
  let once := rewrite Sample.mapping Sample.world BuildWorker imports "src/a.ts"
                "import a from 'x';" in
  let twice := rewrite Sample.mapping Sample.world BuildWorker imports "src/a.ts" once in
  once = "import a from '/web_modules/y'; import 'z';"
  ∧ twice = "import a from '/web_modules/y'; import '/web_modules/z.js';"
  ∧ twice ≠ once.
Proof.
  split; [vm_compute; reflexivity|]. split; [vm_compute; reflexivity|].
  vm_compute. discriminate.
Qed.

Example rewrite_sample :
  rewrite Sample.mapping Sample.world BuildWorker {[ "preact" := "./preact.js" ]} "src/a.ts"
      "import {h} from 'preact'; import z from './b.ts'; import y from 'vue';"
  = "import {h} from '/web_modules/./preact.js'; import z from './b.js'; import y from '/web_modules/vue.js';".
Proof. vm_compute. reflexivity. Qed.

(* ===================================================================== *)
(** ** One resolver call per occurrence *)
(* ===================================================================== *)

(** Rewriting a module emits what the resolver emits on each specifier
    the scan finds, in the order of the scan, and nothing else. *)
Lemma transformEsmImports_trace (tbl : gmap string string) (W : World) (k : worker_kind)
    (dependencyImportMap : gmap string string) (f code : string) :
  trace (transformEsmImports W code (resolver tbl k dependencyImportMap f))
  = flat_map (fun s => trace (resolver tbl k dependencyImportMap f s))
             (specifiers (scan W code)).
Proof.
  unfold transformEsmImports.
  induction (scan W code) as [|seg segs IH]; [reflexivity|].
  simpl rewrite_segments. rewrite trace_bind.
  destruct seg as [t|s]; simpl.
  - rewrite trace_bind, IH, rewrite_segments_returns. simpl. by rewrite app_nil_r.
  - rewrite resolver_returns, trace_bind, IH, rewrite_segments_returns. simpl.
    by rewrite app_nil_r.
Qed.

(** The events of a module with one bare specifier that has no entry. *)
Example one_event_per_occurrence :
  trace (transformEsmImports Sample.world
           "import {h} from 'preact'; import y from 'vue'; import x from 'vue';"
           (resolver Sample.mapping BuildWorker {[ "preact" := "./preact.js" ]} "src/a.ts"))
  = [Emit (MISSING_WEB_MODULE "vue"); Emit (MISSING_WEB_MODULE "vue")].
Proof. reflexivity. Qed.

(* ===================================================================== *)
(** ** Declared extensions are handled *)
(* ===================================================================== *)

Lemma includes_unfold (s sub : string) :
  includes s sub
  = String.prefix sub s || match s with EmptyString => false | String _ s' => includes s' sub end.
Proof. by destruct s. Qed.

Lemma includes_chars (s sub : string) (pre tail : list ascii) :
  chars s = pre ++ chars sub ++ tail → includes s sub = true.
Proof.
  revert s. induction pre as [|c pre IH]; intros s H.
  - rewrite includes_unfold. change (String.prefix sub s) with (startsWith s sub).
    rewrite (proj2 (startsWith_chars s sub)); [reflexivity|]. eauto.
  - destruct s as [|d s]; [discriminate H|].
    rewrite includes_unfold, (IH s); [apply orb_true_r|].
    unfold chars in *. simpl in H. congruence.
Qed.

Lemma split_chars_nonempty (sep : ascii) (l : list ascii) : split_chars sep l ≠ [].
Proof.
  destruct l as [|c l]; simpl; [done|].
  destruct (Ascii.eqb c sep); [done|]. by destruct (split_chars sep l).
Qed.

(** The first piece of a split string starts the string; every other piece
    follows a separator. *)
Lemma split_chars_pieces (sep : ascii) (l w : list ascii) (ws : list (list ascii)) :
  split_chars sep l = w :: ws →
  (∃ tail, l = w ++ tail)
  ∧ (∀ e, In e ws → ∃ pre tail, l = pre ++ sep :: e ++ tail).
Proof.
  revert w ws. induction l as [|c l IH]; intros w ws; simpl.
  - intros [= <- <-]. split; [by exists []|]. intros e [].
  - destruct (split_chars sep l) as [|w' ws'] eqn:E.
    { by destruct (split_chars_nonempty sep l). }
    destruct (IH w' ws' eq_refl) as [[tail' Hhead] Hrest].
    destruct (Ascii.eqb_spec c sep) as [->|Hne]; intros [= <- <-].
    + split; [by exists (sep :: l)|].
      intros e [<-|Hin].
      * exists [], tail'. simpl. by rewrite Hhead at 1.
      * destruct (Hrest e Hin) as (pre & tail & Hl).
        exists (sep :: pre), tail. simpl. by rewrite Hl at 1.
    + split; [exists tail'; simpl; by rewrite Hhead at 1|].
      intros e Hin. destruct (Hrest e Hin) as (pre & tail & Hl).
      exists (c :: pre), tail. simpl. by rewrite Hl at 1.
Qed.

(** X15.  A worker handles every extension its id declares: the test of
    line 176 lets through at least the files the extension index would give
    it. *)
Lemma handles_declared (id ext : string) :
  is_build_or_plugin id = true → In ext (declared_extensions id) → handles id ext = true.
Proof.
  intros Hk Hin.
  assert (Hid : ∃ (kind : string) rest,
             (kind = "build" ∨ kind = "plugin") ∧ chars id = chars kind ++ ":"%char :: rest).
  { unfold is_build_or_plugin in Hk. apply orb_true_iff in Hk as [H|H];
      apply startsWith_chars in H as [rest H].
    - exists "build", rest. split; [by left|exact H].
    - exists "plugin", rest. split; [by right|exact H]. }
  destruct Hid as (kind & rest & Hkind & Hid).
  unfold declared_extensions, split in Hin. rewrite Hid in Hin.
  assert (Hsplit : split_chars ":" (chars kind ++ ":"%char :: rest)
                   = chars kind :: split_chars ":" rest).
  { destruct Hkind as [-> | ->]; reflexivity. }
  rewrite Hsplit in Hin. simpl in Hin.
  destruct (split_chars ":" rest) as [|w ws] eqn:E; [done|].
  destruct (split_chars_pieces ":" rest w ws E) as [[tail Hrest] _].
  simpl in Hin. unfold split in Hin. rewrite chars_str in Hin.
  apply in_map_iff in Hin as (e & <- & He).
  unfold handles.
  destruct (split_chars "," w) as [|p ps] eqn:Ew; [done|].
  destruct (split_chars_pieces "," w p ps Ew) as [[ptail Hp] Hps].
  destruct He as [<-|He].
  - rewrite (includes_chars id (":" +:+ str p) (chars kind) (ptail ++ tail)); [reflexivity|].
    rewrite Hid, Hrest, Hp, chars_app, chars_str. simpl.
    by rewrite <- !app_assoc.
  - destruct (Hps e He) as (pre & etail & Hw).
    rewrite (includes_chars id ("," +:+ str e) (chars kind ++ ":"%char :: pre) (etail ++ tail));
      [apply orb_true_r|].
    rewrite Hid, Hrest, Hw, chars_app, chars_str. simpl.
    rewrite <- !app_assoc. simpl. by rewrite <- !app_assoc.
Qed.

Lemma handles_declared_witness : handles "plugin:svelte,vue" "vue" = true.
Proof.
  apply (handles_declared "plugin:svelte,vue" "vue"); [reflexivity|].
  right. left. reflexivity.
Defined.

(* ===================================================================== *)
(** ** The last completion event of a worker, among all workers *)
(* ===================================================================== *)

Lemma completions_silent (id : string) (l : list effect) :
  Forall (silent id) l → completions id l = [].
Proof.
  induction 1 as [|x l Hx _ IH]; [reflexivity|].
  change (x :: l) with ([x] ++ l). by rewrite completions_app, Hx, IH.
Qed.

Lemma bind_silent {A B} (id : string) (m : M A) (k : A → M B) :
  Forall (silent id) (trace m) → (∀ a, Forall (silent id) (trace (k a))) →
  Forall (silent id) (trace (m ≫= k)).
Proof.
  intros Hm Hk. rewrite trace_bind. apply Forall_app. split; [exact Hm|].
  destruct (outcome m); [constructor|apply Hk].
Qed.

Lemma resolver_silent (tbl : gmap string string) (k : worker_kind)
    (dependencyImportMap : gmap string string) (f spec id : string) :
  Forall (silent id) (trace (resolver tbl k dependencyImportMap f spec)).
Proof.
  destruct k; unfold resolver, build_resolver, plugin_resolver, resolve_relative;
    repeat (match goal with
            | |- context [if ?b then _ else _] => destruct b
            | |- context [match truthy_str ?o with _ => _ end] => destruct (truthy_str o)
            end; simpl);
    repeat constructor.
Qed.

Lemma write_output_silent (tbl : gmap string string) (W : World) (k : worker_kind)
    (dependencyImportMap : gmap string string) (f outPath code id : string) :
  Forall (silent id)
         (trace (write_output W outPath code (resolver tbl k dependencyImportMap f))).
Proof.
  unfold write_output. apply bind_silent.
  - destruct (_ =? _)%string; [|constructor].
    rewrite transformEsmImports_trace.
    induction (specifiers _) as [|s l IH]; simpl; [constructor|].
    apply Forall_app. split; [apply resolver_silent|exact IH].
  - intros c. repeat constructor.
Qed.

Lemma dispatch_file_silent (tbl : gmap string string) (W : World)
    (dependencyImportMap : gmap string string) (cwd include_ dist : string)
    (w : worker) (f id : string) :
  fst w ≠ id →
  Forall (silent id) (trace (dispatch_file tbl W dependencyImportMap cwd include_ dist w f)).
Proof.
  destruct w as [id' sc]. simpl. intros Hne.
  assert (Hself : ∀ err, silent id (Emit (WORKER_COMPLETE id' err))).
  { intros err. unfold silent. simpl. by rewrite (proj2 (String.eqb_neq id' id)). }
  unfold dispatch_file. destruct (handles _ _); simpl; [|constructor].
  apply bind_silent.
  - destruct (startsWith id' "build:"); [|constructor].
    unfold build_file. apply bind_silent; [repeat constructor|]. intros _.
    apply bind_silent.
    { destruct (execa_command W _ _); constructor. }
    intros [stdout stderr]. apply bind_silent.
    { destruct (_ =? _)%string; repeat constructor. }
    intros _. destruct (_ =? _)%string; [constructor|].
    apply bind_silent; [|intros; constructor].
    apply (write_output_silent tbl W BuildWorker).
  - intros go_on. destruct (go_on && _); [|constructor].
    unfold plugin_file. apply bind_silent.
    { destruct (require_resolve W _ _); constructor. }
    intros modulePath. apply bind_silent; [repeat constructor|]. intros _.
    destruct (plugin_build W _ _) as [[err|shown]|result].
    + apply bind_silent; [repeat constructor|]. intros _. constructor; [apply Hself|constructor].
    + constructor.
    + apply (write_output_silent tbl W PluginWorker ∅).
Qed.

Lemma dispatch_worker_silent (tbl : gmap string string) (W : World)
    (dependencyImportMap : gmap string string) (cwd include_ dist : string)
    (allFiles : list string) (w : worker) (id : string) :
  fst w ≠ id →
  Forall (silent id)
         (trace (dispatch_worker tbl W dependencyImportMap cwd include_ dist allFiles w)).
Proof.
  intros Hne. unfold dispatch_worker.
  destruct (negb _ && negb _); [constructor|].
  apply bind_silent; [repeat constructor|]. intros _.
  apply bind_silent.
  - apply for_each_trace_Forall. intros f _. by apply dispatch_file_silent.
  - intros _. constructor; [|constructor].
    unfold silent. simpl. by rewrite (proj2 (String.eqb_neq w.1 id)).
Qed.

(** X16.  Among workers with distinct ids, when the dispatcher has gone
    through all of them, the last completion event of each [build:] or
    [plugin:] worker reports no error. *)
Lemma dispatcher_last_completion (tbl : gmap string string) (W : World)
    (dependencyImportMap : gmap string string) (cwd include_ dist : string)
    (allFiles : list string) (workers : list worker) (w : worker) :
  NoDup (map fst workers) → In w workers → is_build_or_plugin (fst w) = true →
  outcome (for_each workers
             (dispatch_worker tbl W dependencyImportMap cwd include_ dist allFiles)) = inr tt →
  last (completions (fst w)
          (trace (for_each workers
                    (dispatch_worker tbl W dependencyImportMap cwd include_ dist allFiles))))
  = Some None.
Proof.
  intros Hnd Hin Hk.
  set (body := dispatch_worker tbl W dependencyImportMap cwd include_ dist allFiles).
  induction workers as [|w' ws IH]; [destruct Hin|].
  simpl in Hnd. apply NoDup_cons in Hnd as [Hfresh Hnd].
  rewrite for_each_cons, outcome_bind, trace_bind.
  destruct (outcome (body w')) as [e|[]] eqn:Ew'; [discriminate|].
  intros Hrest. rewrite completions_app.
  destruct Hin as [->|Hin].
  - assert (Hws : completions w.1 (trace (for_each ws body)) = []).
    { apply completions_silent, for_each_trace_Forall. intros w2 Hw2.
      apply dispatch_worker_silent. intros Heq. apply Hfresh.
      rewrite <- Heq. apply list_elem_of_In, in_map, Hw2. }
    rewrite Hws, app_nil_r.
    subst body.
    rewrite (dispatch_worker_finished tbl W dependencyImportMap cwd include_ dist allFiles w Hk)
      by (by apply dispatch_worker_returned).
    simpl trace.
    change (?x :: ?l ++ ?r) with ((x :: l) ++ r).
    rewrite completions_app. simpl. rewrite String.eqb_refl. apply last_snoc.
  - assert (Hw' : completions w.1 (trace (body w')) = []).
    { apply completions_silent, dispatch_worker_silent. intros Heq. apply Hfresh.
      rewrite Heq. apply list_elem_of_In, in_map, Hin. }
    rewrite Hw'. simpl. by apply IH.
Qed.

Lemma dispatcher_last_completion_witness :
  last (completions "plugin:svelte"
          (trace (for_each [("build:ts", Sample.script "cat");
                            ("plugin:svelte", Sample.script "my-plugin")]
                    (dispatch_worker Sample.mapping Sample.world ∅ "/proj" "src" "out/_dist_"
                       ["src/a.ts"; "src/App.svelte"]))))
  = Some None.
Proof.
  apply (dispatcher_last_completion Sample.mapping Sample.world ∅ "/proj" "src" "out/_dist_"
           ["src/a.ts"; "src/App.svelte"]
           [("build:ts", Sample.script "cat"); ("plugin:svelte", Sample.script "my-plugin")]
           ("plugin:svelte", Sample.script "my-plugin"));
    [|right; left; reflexivity|reflexivity|reflexivity].
  apply NoDup_cons. split; [|apply NoDup_singleton].
  intros H. apply list_elem_of_singleton in H. discriminate H.
Defined.

(* ===================================================================== *)
(** ** The output of a lint worker *)
(* ===================================================================== *)

Import Callbacks.

Lemma substring_all (s : string) (m : nat) :
  (String.length s <= m)%nat → substring 0 m s = s.
Proof.
  revert m. induction s as [|c s IH]; intros m Hm; [by destruct m|].
  destruct m as [|m]; simpl in *; [lia|]. rewrite IH; [reflexivity|lia].
Qed.

Lemma substring_after (a b : string) (m : nat) :
  substring (String.length a) m (a +:+ b) = substring 0 m b.
Proof. induction a as [|c a IH]; simpl; [reflexivity|exact IH]. Qed.

Lemma length_append (a b : string) :
  String.length (a +:+ b) = (String.length a + String.length b)%nat.
Proof. induction a as [|c a IH]; simpl; [reflexivity|by rewrite IH]. Qed.

Lemma replace_first_unfold (s pat rep : string) :
  replace_first s pat rep
  = if String.prefix pat s then rep +:+ substring (String.length pat) (String.length s) s
    else match s with
         | EmptyString => EmptyString
         | String c s' => String c (replace_first s' pat rep)
         end.
Proof. by destruct s. Qed.

Lemma replace_first_here (pat rest rep : string) :
  replace_first (pat +:+ rest) pat rep = rep +:+ rest.
Proof.
  assert (Hp : String.prefix pat (pat +:+ rest) = true).
  { apply (proj2 (startsWith_chars (pat +:+ rest) pat)). exists (chars rest). apply chars_app. }
  rewrite replace_first_unfold, Hp, substring_after, substring_all; [reflexivity|].
  rewrite length_append; lia.
Qed.

Lemma prefix_first_char (c d : ascii) (pat s : string) :
  c ≠ d → String.prefix (String c pat) (String d s) = false.
Proof. intros Hne. simpl. by destruct (ascii_dec c d). Qed.

Lemma includes_none (c : ascii) (pat s : string) :
  Forall (fun d => d ≠ c) (chars s) → includes s (String c pat) = false.
Proof.
  induction s as [|d s IH]; intros H; [reflexivity|].
  unfold chars in H. simpl in H. apply Forall_cons in H as [Hd Hs].
  rewrite includes_unfold, prefix_first_char by congruence. by apply IH.
Qed.

Lemma includes_app_none (c : ascii) (pat a b : string) :
  Forall (fun d => d ≠ c) (chars a) → Forall (fun d => d ≠ c) (chars b) →
  includes (a +:+ b) (String c pat) = false.
Proof.
  intros Ha Hb. apply includes_none. rewrite chars_app. by apply Forall_app.
Qed.

Lemma replace_first_skip (c : ascii) (pat pre rest rep : string) :
  Forall (fun d => d ≠ c) (chars pre) →
  replace_first (pre +:+ rest) (String c pat) rep
  = pre +:+ replace_first rest (String c pat) rep.
Proof.
  induction pre as [|d pre IH]; intros H; [reflexivity|].
  unfold chars in H. simpl in H. apply Forall_cons in H as [Hd Hs].
  change (String d pre +:+ rest) with (String d (pre +:+ rest)).
  rewrite (replace_first_unfold (String d _)), prefix_first_char by congruence.
  rewrite IH by exact Hs. reflexivity.
Qed.

Lemma replace_first_none (c : ascii) (pat s rep : string) :
  Forall (fun d => d ≠ c) (chars s) → replace_first s (String c pat) rep = s.
Proof.
  induction s as [|d s IH]; intros H; [reflexivity|].
  unfold chars in H. simpl in H. apply Forall_cons in H as [Hd Hs].
  rewrite replace_first_unfold, prefix_first_char by congruence. f_equal. by apply IH.
Qed.

(** X1.  A chunk in which the escape character occurs once, at the head of
    a clear-screen sequence, resets the worker and is forwarded without the
    sequence; the update to [RUNNING] of line 117 is not sent, for a [tsc]
    worker either: by then the sequence has been removed. *)
Theorem lint_stdout_clear_screen (id pre post : string) :
  Forall (fun c => c ≠ esc) (chars pre) → Forall (fun c => c ≠ esc) (chars post) →
  lint_stdout id (pre +:+ clear_screen +:+ post)
  = [WORKER_RESET id]
    ++ (if endsWith id ":tsc" then
          (if watching (pre +:+ post) then [WORKER_UPDATE id WATCHING] else [])
          ++ match found_errors (pre +:+ post) with
             | Some n => if (n =? "0")%string then [] else [WORKER_UPDATE id ERROR]
             | None => []
             end
        else [])
    ++ [WORKER_MSG id log (pre +:+ post)].
Proof.
  intros Hpre Hpost. unfold lint_stdout.
  assert (Hin : includes (pre +:+ clear_screen +:+ post) clear_screen = true).
  { apply (includes_chars _ _ (chars pre) (chars post)). by rewrite !chars_app. }
  assert (Hout : replace_first (replace_first (pre +:+ clear_screen +:+ post) clear_screen "")
                               clear_screen "" = pre +:+ post).
  { rewrite (replace_first_skip esc "c" pre (clear_screen +:+ post) "" Hpre
               : replace_first (pre +:+ clear_screen +:+ post) clear_screen "" = _).
    rewrite replace_first_here. simpl append.
    apply (replace_first_none esc "c").
    rewrite chars_app. by apply Forall_app. }
  rewrite Hin. simpl orb. cbv iota. rewrite Hout.
  assert (Hno : includes (pre +:+ post) clear_screen = false).
  { by apply includes_app_none. }
  rewrite Hno. reflexivity.
Qed.

Lemma lint_stdout_clear_screen_witness :
  lint_stdout "lintall:tsc"
    ("12:00:00 " +:+ clear_screen +:+ "File change detected. Starting incremental compilation...")
  = [WORKER_RESET "lintall:tsc";
     WORKER_MSG "lintall:tsc" log
       "12:00:00 File change detected. Starting incremental compilation..."].
Proof.
  refine (lint_stdout_clear_screen "lintall:tsc" "12:00:00 "
            "File change detected. Starting incremental compilation..." _ _);
    repeat (constructor; [discriminate|]); constructor.
Defined.

Lemma strip_prefix_app (p rest : list ascii) : strip_prefix p (p ++ rest) = Some rest.
Proof.
  induction p as [|c p IH]; [reflexivity|]. simpl. by rewrite Ascii.eqb_refl.
Qed.

Lemma strip_prefix_first_char (c d : ascii) (p l : list ascii) :
  c ≠ d → strip_prefix (c :: p) (d :: l) = None.
Proof.
  intros Hne. simpl. destruct (Ascii.eqb_spec c d); [contradiction|reflexivity].
Qed.

Lemma take_digits_app (ds rest : list ascii) (c : ascii) :
  Forall (fun d => is_digit d = true) ds → is_digit c = false →
  take_digits (ds ++ c :: rest) = ds ∧ drop_digits (ds ++ c :: rest) = c :: rest.
Proof.
  intros Hds Hc. induction Hds as [|d ds Hd _ IH]; simpl.
  - by rewrite Hc.
  - rewrite Hd. destruct IH as [-> ->]. done.
Qed.

Lemma found_at_count (ds post : list ascii) :
  ds ≠ [] → Forall (fun d => is_digit d = true) ds →
  found_at (chars "Found " ++ ds ++ chars " error" ++ post) = Some ds.
Proof.
  intros Hne Hds. unfold found_at. rewrite strip_prefix_app.
  change (chars " error" ++ post) with (" "%char :: (chars "error" ++ post)).
  destruct (take_digits_app ds (chars "error" ++ post) " "%char Hds eq_refl) as [-> ->].
  change (" "%char :: chars "error" ++ post) with (chars " error" ++ post).
  rewrite strip_prefix_app. by destruct ds.
Qed.

Lemma found_chars_here (l r : list ascii) : found_at l = Some r → found_chars l = Some r.
Proof. intros H. destruct l; unfold found_chars; fold found_chars; by rewrite H. Qed.

(** No occurrence of [Found ] begins in front of another one and runs into
    it: the letter [F] is not found again in the word. *)
Lemma found_within (p tail r : list ascii) :
  p ≠ [] →
  strip_prefix (chars "Found ") (p ++ chars "Found " ++ tail) = Some r →
  ∃ p', p = chars "Found " ++ p'.
Proof.
  change (chars "Found ") with ["F"; "o"; "u"; "n"; "d"; " "]%char.
  intros Hne H.
  destruct p as [|c1 [|c2 [|c3 [|c4 [|c5 [|c6 p]]]]]]; [done| | | | | |];
    cbn [strip_prefix app] in H;
    repeat match type of H with
           | context [Ascii.eqb ?a ?b] =>
               destruct (Ascii.eqb_spec a b) as [Heq|Hneq];
               [try discriminate Heq; try subst|discriminate H];
               cbn [strip_prefix app] in H
           end;
    try discriminate H.
  eexists. reflexivity.
Qed.

Lemma found_chars_skip (pre : string) (tail : list ascii) :
  includes pre "Found " = false →
  found_chars (chars pre ++ chars "Found " ++ tail) = found_chars (chars "Found " ++ tail).
Proof.
  induction pre as [|c pre IH]; intros H; [reflexivity|].
  rewrite includes_unfold in H. apply orb_false_iff in H as [Hp Hi].
  change (chars (String c pre) ++ chars "Found " ++ tail)
    with (c :: (chars pre ++ chars "Found " ++ tail)).
  unfold found_chars; fold found_chars.
  assert (Hat : found_at (c :: (chars pre ++ chars "Found " ++ tail)) = None).
  { unfold found_at.
    destruct (strip_prefix (chars "Found ") (c :: (chars pre ++ chars "Found " ++ tail)))
      as [r|] eqn:E; [|reflexivity].
    exfalso.
    destruct (found_within (c :: chars pre) tail r ltac:(discriminate) E) as [p' Hp'].
    assert (Hs : startsWith (String c pre) "Found " = true).
    { apply startsWith_chars. by exists p'. }
    unfold startsWith in Hs. congruence. }
  rewrite Hat. by apply IH.
Qed.

(** X2.  The error count of [tsc] (line 124): when the first occurrence of
    [Found ] in a chunk without clear-screen sequence is followed by a
    number and [ error], the worker is reported in state [ERROR] exactly
    when the number is not written [0]. *)
Theorem lint_stdout_error_count (id pre n post : string) :
  endsWith id ":tsc" = true →
  includes pre "Found " = false →
  n ≠ "" → Forall (fun d => is_digit d = true) (chars n) →
  includes (pre +:+ "Found " +:+ n +:+ " error" +:+ post) clear_screen = false →
  In (WORKER_UPDATE id ERROR)
     (lint_stdout id (pre +:+ "Found " +:+ n +:+ " error" +:+ post))
  ↔ n ≠ "0".
Proof.
  intros Htsc Hpre Hne Hds Hclear. unfold lint_stdout. cbv zeta.
  rewrite !Hclear, Htsc. simpl orb. cbv iota. rewrite !Hclear. simpl orb. cbv iota.
  assert (Hfound : found_errors (pre +:+ "Found " +:+ n +:+ " error" +:+ post) = Some n).
  { unfold found_errors. rewrite !chars_app, found_chars_skip by exact Hpre.
    rewrite (found_chars_here _ (chars n)).
    - simpl. by rewrite str_chars.
    - apply found_at_count; [|exact Hds]. intros E. apply Hne.
      by rewrite <- (str_chars n), E. }
  rewrite Hfound. simpl app.
  destruct (String.eqb_spec n "0") as [->|Hn0].
  - split; [|done]. intros Hin. exfalso.
    destruct (watching _); simpl in Hin; repeat (destruct Hin as [Hin|Hin]; try discriminate); done.
  - split; [done|]. intros _.
    destruct (watching _); simpl; auto.
Qed.

Lemma lint_stdout_error_count_witness :
  In (WORKER_UPDATE "lintall:tsc" ERROR)
     (lint_stdout "lintall:tsc"
        ("File change detected. " +:+ "Found " +:+ "12" +:+ " error"
         +:+ "s. Watching for file changes."))
  ↔ "12" ≠ "0".
Proof.
  apply (lint_stdout_error_count "lintall:tsc" "File change detected. " "12"
           "s. Watching for file changes.");
    [reflexivity|reflexivity|discriminate| |reflexivity].
  repeat (constructor; [reflexivity|]). constructor.
Defined.

(* ===================================================================== *)
(** ** What the bundle stage copies *)
(* ===================================================================== *)

Lemma startsWith_longer (s p : string) :
  (String.length s < String.length p)%nat → startsWith s p = false.
Proof.
  intros Hlt. destruct (startsWith s p) eqn:E; [|reflexivity].
  apply startsWith_chars in E as [rest E].
  apply (f_equal List.length) in E. rewrite length_app in E.
  assert (Hl : ∀ x, List.length (chars x) = String.length x).
  { induction x; simpl; [reflexivity|]. unfold chars in *. simpl. by f_equal. }
  rewrite !Hl in E. lia.
Qed.

Lemma startsWith_app (p rest : string) : startsWith (p +:+ rest) p = true.
Proof. apply startsWith_chars. exists (chars rest). apply chars_app. Qed.

(** X3.  The filter of the copy of the build directory to the output
    directory (lines 282-287): the build directory itself passes, and
    whatever path continues [web_modules], or the [dist] option without its
    first character, below the build directory is left out; the test is on
    the text of the path, so a sibling such as [web_modules2] is left out as
    well, and a [dist] of at most one character leaves out everything below
    the build directory. *)
Theorem copy_filter_spec (buildDirectoryLoc dist : string) :
  copy_filter buildDirectoryLoc dist buildDirectoryLoc = true
  ∧ (∀ rest, copy_filter buildDirectoryLoc dist
               (buildDirectoryLoc +:+ "/web_modules" +:+ rest) = false)
  ∧ (∀ rest, copy_filter buildDirectoryLoc dist
               (buildDirectoryLoc +:+ "/" +:+ substr1 dist +:+ rest) = false)
  ∧ ((String.length dist <= 1)%nat →
     ∀ rest, copy_filter buildDirectoryLoc dist (buildDirectoryLoc +:+ "/" +:+ rest) = false).
Proof.
  assert (Hpre : ∀ a b c rest : string,
             startsWith (a +:+ b +:+ c +:+ rest) (a +:+ b +:+ c) = true).
  { intros a b c rest. apply startsWith_chars. exists (chars rest).
    rewrite !chars_app. by rewrite <- !app_assoc. }
  assert (H3 : ∀ rest, copy_filter buildDirectoryLoc dist
               (buildDirectoryLoc +:+ "/" +:+ substr1 dist +:+ rest) = false).
  { intros rest. unfold copy_filter. rewrite (Hpre _ "/" (substr1 dist) rest).
    apply andb_false_r. }
  split; [|split; [|split]].
  - unfold copy_filter. rewrite !startsWith_longer; [reflexivity| |];
      rewrite !length_append; simpl; lia.
  - intros rest. unfold copy_filter.
    change (buildDirectoryLoc +:+ "/web_modules" +:+ rest)
      with (buildDirectoryLoc +:+ "/" +:+ "web_modules" +:+ rest).
    by rewrite (Hpre _ "/" "web_modules" rest).
  - exact H3.
  - intros Hlen rest. specialize (H3 rest).
    assert (E : substr1 dist = "").
    { destruct dist as [|c [|d dist]]; simpl in *; try reflexivity; lia. }
    by rewrite E in H3.
Qed.

(* ===================================================================== *)
(** ** What a mount worker copies *)
(* ===================================================================== *)







(** X5.  In a run that reaches the mount stage (the import map is loaded,
    some script id starts with [build], the loop of lines 52-69 has come to
    its end), whatever makes a mount step throw (a command that is not a
    mount command, a missing directory argument, a copy that fails), the
    command throws the same error, and has by then run no build command and
    no plugin, written no file and bundled nothing. *)
Theorem mount_failure_aborts
    (tbl : gmap string string) (W : World) (dependencyImportMap : gmap string string)
    (cwd : string) (config : SnowpackConfig) (index : gmap string (list worker))
    (pre post : list worker) (w : worker) (e : error) :
  has_build_script (scripts config) = true →
  extToWorkerMap (scripts config) = inr index →
  relevantWorkers config = pre ++ w :: post →
  outcome (for_each pre (mount_worker W cwd (buildDirectoryLoc W cwd config))) = inr tt →
  outcome (mount_worker W cwd (buildDirectoryLoc W cwd config) w) = inl e →
  let run := command tbl W (inr dependencyImportMap) cwd config in
  outcome run = inl e
  ∧ Forall (fun x => later_stage_effect x = false) (trace run).
Proof.
  intros Hb Hreg Hrel Hpre Hw run. subst run.
  rewrite (command_past_early_return tbl W dependencyImportMap cwd config Hb).
  simpl trace. simpl outcome.
  rewrite (run_stages_registered tbl W dependencyImportMap cwd config index Hreg).
  set (build := buildDirectoryLoc W cwd config) in *.
  set (mounts := for_each (relevantWorkers config) (mount_worker W cwd build)).
  assert (Hmo : outcome mounts = inl e).
  { subst mounts. rewrite Hrel, for_each_app, outcome_bind, Hpre.
    by rewrite for_each_cons, outcome_bind, Hw. }
  assert (Hmt : Forall (fun x => later_stage_effect x = false) (trace mounts)).
  { apply for_each_trace_Forall. intros w' _. apply mount_worker_early_stage. }
  split.
  - rewrite outcome_bind. simpl.
    rewrite outcome_bind, for_each_outcome_ok by (intros; apply start_lint_returns).
    by rewrite outcome_bind, Hmo.
  - do 3 (constructor; [reflexivity|]).
    apply Forall_app. split; [destruct (_ =? _)%string; repeat constructor|].
    rewrite trace_bind. apply Forall_app. split; [repeat constructor|]. simpl.
    rewrite trace_bind. apply Forall_app. split.
    { apply for_each_trace_Forall. intros w' _. apply start_lint_early_stage. }
    rewrite for_each_outcome_ok by (intros; apply start_lint_returns).
    rewrite trace_bind, Hmo. by rewrite app_nil_r.
Qed.

Lemma mount_failure_aborts_witness :
  outcome (command Sample.mapping (Sample.world_of (Some (Error "ENOENT"))) (inr ∅) "/proj"
             (Sample.config [("build:ts", Sample.script "cat");
                             ("mount:public", Sample.script "mount public")] false))
  = inl (Error "ENOENT").
Proof.
  refine (proj1 (mount_failure_aborts Sample.mapping (Sample.world_of (Some (Error "ENOENT")))
            ∅ "/proj"
            (Sample.config [("build:ts", Sample.script "cat");
                            ("mount:public", Sample.script "mount public")] false)
            {[ "ts" := [("build:ts", Sample.script "cat")] ]}
            [("build:ts", Sample.script "cat")] []
            ("mount:public", Sample.script "mount public") (Error "ENOENT")
            eq_refl _ eq_refl eq_refl eq_refl)).
  vm_compute. reflexivity.
Defined.

(* ===================================================================== *)
(** ** One file under one worker *)
(* ===================================================================== *)

Lemma build_not_plugin (id : string) :
  startsWith id "build:" = true → startsWith id "plugin:" = false.
Proof.
  intros [rest H]%startsWith_chars.
  destruct (startsWith id "plugin:") eqn:E; [|reflexivity].
  apply startsWith_chars in E as [rest' E]. rewrite H in E. discriminate E.
Qed.

Lemma plugin_not_build (id : string) :
  startsWith id "plugin:" = true → startsWith id "build:" = false.
Proof.
  intros H. destruct (startsWith id "build:") eqn:E; [|reflexivity].
  apply build_not_plugin in E. congruence.
Qed.

Lemma write_output_returns (tbl : gmap string string) (W : World) (k : worker_kind)
    (dependencyImportMap : gmap string string) (f outPath code : string) :
  outcome (write_output W outPath code (resolver tbl k dependencyImportMap f)) = inr tt.
Proof.
  unfold write_output. rewrite outcome_bind.
  destruct (_ =? _)%string; [|reflexivity].
  unfold transformEsmImports. by rewrite rewrite_segments_returns.
Qed.

Lemma resolver_emits (tbl : gmap string string) (k : worker_kind)
    (dependencyImportMap : gmap string string) (f spec : string) :
  ∃ evs, trace (resolver tbl k dependencyImportMap f spec) = map Emit evs.
Proof.
  destruct k; unfold resolver, build_resolver, plugin_resolver, resolve_relative;
    repeat (match goal with
            | |- context [if ?b then _ else _] => destruct b
            | |- context [match truthy_str ?o with _ => _ end] => destruct (truthy_str o)
            end; simpl);
    unfold mbind, M_bind, bind, console_error, emit, tell, ret; simpl;
    first [by exists [] | by eexists [_]].
Qed.

(** What [write_output] does: the events of the resolver, then the
    directory and the file. *)
Lemma write_output_trace (tbl : gmap string string) (W : World) (k : worker_kind)
    (dependencyImportMap : gmap string string) (f outPath code : string) :
  ∃ evs code',
    trace (write_output W outPath code (resolver tbl k dependencyImportMap f))
    = map Emit evs ++ [Mkdir (path_dirname W outPath); WriteFile outPath code'].
Proof.
  unfold write_output. rewrite trace_bind.
  destruct (_ =? _)%string.
  - rewrite transformEsmImports_trace.
    unfold transformEsmImports. rewrite rewrite_segments_returns.
    assert (H : ∃ evs, flat_map (fun s => trace (resolver tbl k dependencyImportMap f s))
                                (specifiers (scan W code)) = map Emit evs).
    { induction (specifiers _) as [|s l [evs IH]]; [by exists []|].
      destruct (resolver_emits tbl k dependencyImportMap f s) as [evs0 H0].
      exists (evs0 ++ evs). simpl. by rewrite H0, IH, map_app. }
    destruct H as [evs ->]. by eexists evs, _.
  - by exists [], code.
Qed.

Lemma WriteFile_not_emitted (evs : list event) (l : list effect) (path code : string) :
  In (WriteFile path code) (map Emit evs ++ l) → In (WriteFile path code) l.
Proof.
  rewrite in_app_iff. intros [H|H]; [|exact H].
  apply in_map_iff in H as (e & He & _). discriminate He.
Qed.

Lemma build_file_run (tbl : gmap string string) (W : World)
    (dependencyImportMap : gmap string string) (include_ dist command_line f : string) :
  build_file tbl W dependencyImportMap include_ dist command_line f
  = match execa_command W command_line f with
    | inl e => ([ExecaBuild command_line f], inl e)
    | inr (out, err) =>
        let said := if (err =? "")%string then [] else [Emit (CONSOLE error_level [err])] in
        if (out =? "")%string then (ExecaBuild command_line f :: said, inr false)
        else (ExecaBuild command_line f :: said
                ++ trace (write_output W (out_path tbl include_ dist f) out
                            (resolver tbl BuildWorker dependencyImportMap f)),
              inr true)
    end.
Proof.
  unfold build_file.
  destruct (execa_command W command_line f) as [e|[out err]]; [reflexivity|].
  pose proof (write_output_returns tbl W BuildWorker dependencyImportMap f
                (out_path tbl include_ dist f) out) as Hw.
  change (resolver tbl BuildWorker dependencyImportMap f)
    with (build_resolver tbl dependencyImportMap f) in *.
  msimpl.
  destruct (write_output _ _ _ _) as [l r]. simpl in Hw. subst r.
  destruct (err =? "")%string, (out =? "")%string; simpl; by rewrite ?app_nil_r.
Qed.

Lemma plugin_file_run (tbl : gmap string string) (W : World)
    (cwd include_ dist id command_line f : string) :
  plugin_file tbl W cwd include_ dist id command_line f
  = match require_resolve W command_line cwd with
    | inl e => ([], inl e)
    | inr modulePath =>
        match plugin_build W modulePath f with
        | inl (Exception err) =>
            let err := with_message err ("[" +:+ id +:+ "] " +:+ message_of err) in
            ([PluginBuild modulePath f; Emit (CONSOLE error_level [toString err]);
              Emit (WORKER_COMPLETE id (Some err))], inr tt)
        | inl (Value shown) =>
            ([PluginBuild modulePath f],
             inl (TypeError ("Cannot create property 'message' on " +:+ shown)))
        | inr result =>
            (PluginBuild modulePath f
               :: trace (write_output W (out_path tbl include_ dist f) result
                           (resolver tbl PluginWorker ∅ f)),
             inr tt)
        end
    end.
Proof.
  unfold plugin_file.
  destruct (require_resolve W command_line cwd) as [e|m]; [reflexivity|].
  msimpl.
  destruct (plugin_build W m f) as [[err|shown]|result]; [reflexivity|reflexivity|].
  pose proof (write_output_returns tbl W PluginWorker ∅ f
                (out_path tbl include_ dist f) result) as Hw.
  change (resolver tbl PluginWorker ∅ f) with (plugin_resolver tbl f) in *.
  msimpl.
  destruct (write_output _ _ _ _) as [l r]. simpl in Hw. subst r.
  reflexivity.
Qed.

Lemma dispatch_file_build (tbl : gmap string string) (W : World)
    (dependencyImportMap : gmap string string) (cwd include_ dist id : string)
    (sc : DevScript) (f : string) :
  startsWith id "build:" = true →
  dispatch_file tbl W dependencyImportMap cwd include_ dist (id, sc) f
  = if handles id (substr1 (extname f)) then
      let run := build_file tbl W dependencyImportMap include_ dist (cmd sc) f in
      (trace run, match outcome run with inl e => inl e | inr _ => inr tt end)
    else ([], inr tt).
Proof.
  intros Hb. unfold dispatch_file. rewrite Hb, (build_not_plugin id Hb).
  destruct (handles _ _); [|reflexivity]. cbn [negb].
  destruct (build_file _ _ _ _ _ _ _) as [l [e|go_on]]; [reflexivity|].
  msimpl. rewrite andb_false_r. by rewrite app_nil_r.
Qed.

Lemma dispatch_file_plugin (tbl : gmap string string) (W : World)
    (dependencyImportMap : gmap string string) (cwd include_ dist id : string)
    (sc : DevScript) (f : string) :
  startsWith id "plugin:" = true →
  dispatch_file tbl W dependencyImportMap cwd include_ dist (id, sc) f
  = if handles id (substr1 (extname f))
    then plugin_file tbl W cwd include_ dist id (cmd sc) f
    else ([], inr tt).
Proof.
  intros Hp. unfold dispatch_file. rewrite Hp, (plugin_not_build id Hp).
  destruct (handles _ _); [|reflexivity]. cbn [negb].
  msimpl. by destruct (plugin_file _ _ _ _ _ _ _ _).
Qed.

Lemma dispatch_file_writes (tbl : gmap string string) (W : World)
    (dependencyImportMap : gmap string string) (cwd include_ dist id : string)
    (sc : DevScript) (f path code : string) :
  is_build_or_plugin id = true →
  In (WriteFile path code)
     (trace (dispatch_file tbl W dependencyImportMap cwd include_ dist (id, sc) f)) →
  handles id (substr1 (extname f)) = true
  ∧ path = out_path tbl include_ dist f
  ∧ (startsWith id "build:" = true →
     ∃ out err, execa_command W (cmd sc) f = inr (out, err) ∧ out ≠ "").
Proof.
  intros Hk Hin.
  assert (Hw : ∀ k map out,
             In (WriteFile path code)
                (trace (write_output W (out_path tbl include_ dist f) out
                          (resolver tbl k map f))) →
             path = out_path tbl include_ dist f).
  { intros k map out H.
    destruct (write_output_trace tbl W k map f (out_path tbl include_ dist f) out)
      as (evs & code' & Ht).
    rewrite Ht in H. apply WriteFile_not_emitted in H.
    destruct H as [H|[H|[]]]; [discriminate H|]. by injection H as -> _. }
  unfold is_build_or_plugin in Hk.
  destruct (startsWith id "build:") eqn:Hb.
  - rewrite dispatch_file_build in Hin by exact Hb.
    destruct (handles _ _); [|destruct Hin]. split; [reflexivity|].
    rewrite build_file_run in Hin.
    destruct (execa_command W (cmd sc) f) as [e|[out err]].
    { destruct Hin as [H|[]]. discriminate H. }
    cbv zeta in Hin. destruct (String.eqb_spec out "") as [->|Hne].
    { simpl in Hin. destruct Hin as [H|H]; [discriminate H|].
      destruct (err =? "")%string; [destruct H|destruct H as [H|[]]; discriminate H]. }
    simpl in Hin. destruct Hin as [H|H]; [discriminate H|].
    apply in_app_iff in H as [H|H].
    { destruct (err =? "")%string; [destruct H|destruct H as [H|[]]; discriminate H]. }
    split; [by apply (Hw BuildWorker dependencyImportMap out)|].
    intros _. by exists out, err.
  - simpl in Hk. rewrite dispatch_file_plugin in Hin by exact Hk.
    destruct (handles _ _); [|destruct Hin]. split; [reflexivity|].
    split; [|discriminate].
    rewrite plugin_file_run in Hin.
    destruct (require_resolve W (cmd sc) cwd) as [e|m]; [destruct Hin|].
    destruct (plugin_build W m f) as [[err|shown]|result].
    { simpl in Hin. repeat (destruct Hin as [Hin|Hin]; try discriminate Hin). destruct Hin. }
    { simpl in Hin. destruct Hin as [Hin|[]]. discriminate Hin. }
    simpl in Hin. destruct Hin as [H|H]; [discriminate H|].
    by apply (Hw PluginWorker ∅ result).
Qed.

Lemma for_each_trace_In {A} (x : effect) (xs : list A) (body : A → M unit) :
  In x (trace (for_each xs body)) → ∃ a, In a xs ∧ In x (trace (body a)).
Proof.
  induction xs as [|a xs IH]; [intros []|].
  rewrite for_each_cons, trace_bind, in_app_iff. intros [H|H].
  - exists a. split; [by left|exact H].
  - destruct (outcome (body a)); [destruct H|].
    destruct (IH H) as (b & Hb & Hx). exists b. split; [by right|exact Hx].
Qed.

(** X6.  Every file a build or plugin worker writes is the output of a file
    found under the include root whose extension passes the test of line
    176, at the place the destination of lines 194-199 and 239-244 gives;
    for a build worker the command printed something for that file. *)
Theorem dispatch_worker_writes (tbl : gmap string string) (W : World)
    (dependencyImportMap : gmap string string) (cwd include_ dist : string)
    (allFiles : list string) (id : string) (sc : DevScript) (path code : string) :
  In (WriteFile path code)
     (trace (dispatch_worker tbl W dependencyImportMap cwd include_ dist allFiles (id, sc))) →
  ∃ f, In f allFiles
       ∧ handles id (substr1 (extname f)) = true
       ∧ path = out_path tbl include_ dist f
       ∧ (startsWith id "build:" = true →
          ∃ out err, execa_command W (cmd sc) f = inr (out, err) ∧ out ≠ "").
Proof.
  unfold dispatch_worker. cbn [fst].
  destruct (negb (startsWith id "build:") && negb (startsWith id "plugin:")) eqn:Hg;
    [intros []|].
  assert (Hk : is_build_or_plugin id = true).
  { unfold is_build_or_plugin.
    destruct (startsWith id "build:"), (startsWith id "plugin:"); done. }
  rewrite trace_bind. simpl. intros [H|H]; [discriminate H|].
  rewrite trace_bind in H. apply in_app_iff in H as [H|H].
  - apply for_each_trace_In in H as (f & Hf & H).
    exists f. split; [exact Hf|]. by apply (dispatch_file_writes _ _ _ _ _ _ _ _ _ _ _ Hk H).
  - destruct (outcome (for_each _ _)); [destruct H|].
    destruct H as [H|[]]. discriminate H.
Qed.

Lemma dispatch_worker_writes_witness :
  ∃ f, In f ["src/a.ts"; "src/logo.png"]
       ∧ handles "build:ts" (substr1 (extname f)) = true
       ∧ "out/_dist_/a.js" = out_path Sample.mapping "src" "out/_dist_" f
       ∧ (startsWith "build:ts" "build:" = true →
          ∃ out err, execa_command Sample.world "cat" f = inr (out, err) ∧ out ≠ "").
Proof.
  apply (dispatch_worker_writes Sample.mapping Sample.world ∅ "/proj" "src" "out/_dist_"
           ["src/a.ts"; "src/logo.png"] "build:ts" (Sample.script "cat") "out/_dist_/a.js"
           "export const x = 1;
import z from './b.js';").
  vm_compute. tauto.
Defined.

(** X7.  A build command that is rejected for a file (a non-zero exit, for
    one) is not caught: the worker throws that error right after the command
    was run, and no completion event is sent for it; the files after that
    one are not looked at. *)
Theorem rejected_build_command_aborts (tbl : gmap string string) (W : World)
    (dependencyImportMap : gmap string string) (cwd include_ dist : string)
    (pre post : list string) (f id : string) (sc : DevScript) (e : error) :
  startsWith id "build:" = true →
  handles id (substr1 (extname f)) = true →
  execa_command W (cmd sc) f = inl e →
  outcome (for_each pre (dispatch_file tbl W dependencyImportMap cwd include_ dist (id, sc)))
  = inr tt →
  let run := dispatch_worker tbl W dependencyImportMap cwd include_ dist
               (pre ++ f :: post) (id, sc) in
  outcome run = inl e
  ∧ last (trace run) = Some (ExecaBuild (cmd sc) f)
  ∧ ∀ id', completions id' (trace run) = [].
Proof.
  intros Hb Hh He Hpre run.
  set (body := dispatch_file tbl W dependencyImportMap cwd include_ dist (id, sc)) in *.
  assert (Hf : body f = ([ExecaBuild (cmd sc) f], inl e)).
  { subst body. cbv beta. rewrite dispatch_file_build by exact Hb.
    rewrite Hh, build_file_run, He. reflexivity. }
  assert (Hloop : for_each (pre ++ f :: post) body
                  = (trace (for_each pre body) ++ [ExecaBuild (cmd sc) f], inl e)).
  { rewrite for_each_app, for_each_cons, Hf.
    destruct (for_each pre body) as [l r]. simpl in Hpre. subst r. reflexivity. }
  assert (Hrun : run = (Emit (WORKER_UPDATE id RUNNING)
                          :: trace (for_each pre body) ++ [ExecaBuild (cmd sc) f], inl e)).
  { subst run. unfold dispatch_worker. cbn [fst]. rewrite Hb. cbn [negb andb].
    fold body. rewrite Hloop. reflexivity. }
  rewrite Hrun. split; [reflexivity|]. split.
  - simpl trace. rewrite app_comm_cons. apply last_snoc.
  - intros id'. apply completions_silent. simpl trace.
    constructor; [reflexivity|]. apply Forall_app. split; [|by repeat constructor].
    apply for_each_trace_Forall. intros f' _. subst body. cbv beta.
    rewrite dispatch_file_build by exact Hb.
    destruct (handles id (substr1 (extname f'))); [|constructor]. cbv zeta. simpl trace.
    rewrite build_file_run.
    destruct (execa_command W (cmd sc) f') as [e'|[out err]]; [by repeat constructor|].
    cbv zeta.
    assert (Hsaid : Forall (silent id')
                      (if (err =? "")%string then []
                       else [Emit (CONSOLE error_level [err])])).
    { destruct (err =? "")%string; by repeat constructor. }
    destruct (out =? "")%string; simpl; (constructor; [reflexivity|]); [exact Hsaid|].
    apply Forall_app. split; [exact Hsaid|].
    apply (write_output_silent tbl W BuildWorker).
Qed.

Lemma rejected_build_command_aborts_witness :
  outcome (dispatch_worker Sample.mapping (Sample.rejecting (Error "exit 2")) ∅ "/proj"
             "src" "out/_dist_" (["src/logo.png"] ++ "src/a.ts" :: ["src/b.ts"])
             ("build:ts", Sample.script "tsc"))
  = inl (Error "exit 2").
Proof.
  exact (proj1 (rejected_build_command_aborts Sample.mapping
                  (Sample.rejecting (Error "exit 2")) ∅ "/proj" "src" "out/_dist_"
                  ["src/logo.png"] ["src/b.ts"] "src/a.ts" "build:ts" (Sample.script "tsc")
                  (Error "exit 2") eq_refl eq_refl eq_refl eq_refl)).
Defined.

(** X8.  A plugin worker whose module loads and whose plugin, where it
    throws, throws an exception object, does not throw.  Its completion
    events are one event with the error, the worker id put before the
    message, for each file that passes the test of line 176 and on which
    the plugin throws, in the order of the files, and then the event
    without error of line 270. *)
Theorem plugin_worker_completions (tbl : gmap string string) (W : World)
    (dependencyImportMap : gmap string string) (cwd include_ dist : string)
    (allFiles : list string) (id : string) (sc : DevScript) (modulePath : string) :
  startsWith id "plugin:" = true →
  require_resolve W (cmd sc) cwd = inr modulePath →
  Forall (fun f => handles id (substr1 (extname f)) = true →
                   throws_object (plugin_build W modulePath f) = true) allFiles →
  let run := dispatch_worker tbl W dependencyImportMap cwd include_ dist allFiles (id, sc) in
  outcome run = inr tt
  ∧ completions id (trace run) = omap (plugin_failure W id modulePath) allFiles ++ [None].
Proof.
  intros Hp Hm Hobj run.
  set (body := dispatch_file tbl W dependencyImportMap cwd include_ dist (id, sc)).
  assert (Hself : ∀ err, completions id [Emit (WORKER_COMPLETE id err)] = [err]).
  { intros err. simpl. by rewrite String.eqb_refl. }
  assert (Hfile : ∀ f, (handles id (substr1 (extname f)) = true →
                        throws_object (plugin_build W modulePath f) = true) →
                       outcome (body f) = inr tt
                       ∧ completions id (trace (body f))
                         = option_list (plugin_failure W id modulePath f)).
  { intros f Hf. subst body. cbv beta. rewrite dispatch_file_plugin by exact Hp.
    unfold plugin_failure.
    destruct (handles id (substr1 (extname f))); [|by split].
    specialize (Hf eq_refl).
    rewrite plugin_file_run, Hm.
    destruct (plugin_build W modulePath f) as [[err|shown]|result];
      [|discriminate Hf|]; (split; [reflexivity|]).
    - cbv zeta. simpl trace.
      change [PluginBuild modulePath f;
              Emit (CONSOLE error_level
                      [toString (with_message err ("[" +:+ id +:+ "] " +:+ message_of err))]);
              Emit (WORKER_COMPLETE id
                      (Some (with_message err ("[" +:+ id +:+ "] " +:+ message_of err))))]
        with ([PluginBuild modulePath f;
               Emit (CONSOLE error_level
                       [toString (with_message err ("[" +:+ id +:+ "] " +:+ message_of err))])]
              ++ [Emit (WORKER_COMPLETE id
                          (Some (with_message err ("[" +:+ id +:+ "] " +:+ message_of err))))]).
      rewrite completions_app, Hself. reflexivity.
    - simpl trace. apply completions_silent. constructor; [reflexivity|].
      apply (write_output_silent tbl W PluginWorker). }
  assert (Hloop : outcome (for_each allFiles body) = inr tt
                  ∧ completions id (trace (for_each allFiles body))
                    = omap (plugin_failure W id modulePath) allFiles).
  { induction Hobj as [|f files Hf _ [IHo IHc]]; [by split|].
    destruct (Hfile f Hf) as [Ho Hc].
    rewrite for_each_cons, outcome_bind, trace_bind, Ho, completions_app, Hc, IHc.
    split; [exact IHo|]. simpl. by destruct (plugin_failure W id modulePath f). }
  destruct Hloop as [Ho Hc].
  assert (Hk : is_build_or_plugin (fst (id, sc)) = true).
  { unfold is_build_or_plugin. simpl. rewrite Hp. apply orb_true_r. }
  subst run.
  rewrite (dispatch_worker_finished tbl W dependencyImportMap cwd include_ dist allFiles
             (id, sc) Hk Ho).
  split; [reflexivity|]. simpl trace. fold body.
  rewrite app_comm_cons, completions_app, Hself.
  change (Emit (WORKER_UPDATE id RUNNING) :: trace (for_each allFiles body))
    with ([Emit (WORKER_UPDATE id RUNNING)] ++ trace (for_each allFiles body)).
  by rewrite completions_app, Hc.
Qed.

Lemma plugin_worker_completions_witness :
  completions "plugin:svelte,vue"
    (trace (dispatch_worker Sample.mapping Sample.world ∅ "/proj" "src" "out/_dist_"
              ["src/App.svelte"; "src/a.ts"; "src/Card.vue"]
              ("plugin:svelte,vue", Sample.script "my-plugin")))
  = [Some (Error "[plugin:svelte,vue] boom"); Some (Error "[plugin:svelte,vue] boom"); None].
Proof.
  exact (proj2 (plugin_worker_completions Sample.mapping Sample.world ∅ "/proj" "src"
                  "out/_dist_" ["src/App.svelte"; "src/a.ts"; "src/Card.vue"]
                  "plugin:svelte,vue" (Sample.script "my-plugin") "my-plugin"
                  eq_refl eq_refl
                  ltac:(repeat (constructor; [reflexivity|]); constructor))).
Defined.

(* ===================================================================== *)
(** ** What the resolvers return, and where the output goes *)
(* ===================================================================== *)

Lemma resolve_relative_stays_relative (tbl : gmap string string) (f spec s' : string) :
  relative spec → outcome (resolve_relative tbl f spec) = inr s' → relative s'.
Proof.
  intros Hrel. unfold resolve_relative.
  set (ext := substr1 (extname spec)).
  destruct (ext =? "")%string eqn:Eext; [by intros [= <-]|].
  destruct (truthy_str (tbl !! ext)) as [rep|] eqn:Erep; [|by intros [= <-]].
  unfold replace_at_end.
  destruct (strip_suffix spec ext) as [stem|] eqn:Estem; [|by intros [= <-]].
  intros [= <-].
  apply String.eqb_neq in Eext.
  apply strip_suffix_Some in Estem.
  destruct (extension_of_spec spec Eext)
    as (s0 & rpre & rest & Hp & Hs & Hes & Hed & Hene & Hps & Hpne & Hr).
  fold ext in Hp, Hes, Hed, Hene.
  assert (Hspec : rev (chars spec) = rev (chars ext) ++ rev (chars stem)).
  { by rewrite Estem, chars_app, rev_app_distr. }
  assert (Hs0 : s0 = []).
  { destruct s0 as [|c s0]; [reflexivity|]. exfalso.
    apply Forall_cons in Hs as [Hc _]. rewrite Hspec in Hp.
    apply slash_free_rev in Hes.
    destruct (rev (chars ext)) as [|d re] eqn:Er.
    - apply Hene. by rewrite <- (rev_involutive (chars ext)), Er.
    - simpl in Hp. injection Hp as -> _. inversion Hes; congruence. }
  subst s0. simpl in Hp. rewrite Hspec in Hp. apply app_inv_head in Hp.
  assert (Hstem : chars stem = rev (rpre ++ rest) ++ ["."%char]).
  { rewrite <- (rev_involutive (chars stem)), Hp. reflexivity. }
  rewrite <- (str_chars (stem +:+ rep)), chars_app, Hstem, <- app_assoc. simpl.
  apply (relative_stem _ (chars ext)); try done.
  - rewrite <- (str_chars spec), Estem, chars_app, Hstem, <- app_assoc in Hrel.
    exact Hrel.
  - intros H. apply (f_equal (@rev ascii)) in H. rewrite rev_involutive in H.
    simpl in H. by destruct rpre.
Qed.

(** X9.  Both resolvers return, whatever the specifier and the tables: the
    result begins with [http], [/], [./] or [../], so the only specifiers
    that are left bare are those that begin with [http], and at most one
    event is sent for the occurrence. *)
Theorem resolver_result_is_a_location (tbl : gmap string string) (k : worker_kind)
    (dependencyImportMap : gmap string string) (f spec : string) :
  ∃ s', outcome (resolver tbl k dependencyImportMap f spec) = inr s'
        ∧ startsWith s' "http" || startsWith s' "/"
          || startsWith s' "./" || startsWith s' "../" = true
        ∧ (List.length (trace (resolver tbl k dependencyImportMap f spec)) <= 1)%nat.
Proof.
  exists (resolved tbl k dependencyImportMap f spec).
  split; [apply resolver_returns|]. split.
  - destruct (startsWith spec "http" || startsWith spec "/") eqn:H1.
    { rewrite (resolved_rooted tbl k dependencyImportMap f spec H1), H1. reflexivity. }
    destruct (startsWith spec "./" || startsWith spec "../") eqn:H2.
    + assert (Hrel : relative spec) by (apply orb_true_iff in H2; exact H2).
      pose proof (resolver_returns tbl k dependencyImportMap f spec) as Hret.
      rewrite resolver_relative in Hret by exact Hrel.
      destruct (resolve_relative_stays_relative tbl f spec _ Hrel Hret) as [-> | ->];
        rewrite ?orb_true_r; reflexivity.
    + unfold resolved, value_or.
      destruct k; unfold resolver, build_resolver, plugin_resolver; rewrite H1, H2;
        [destruct (truthy_str _)|]; reflexivity.
  - destruct k; unfold resolver, build_resolver, plugin_resolver, resolve_relative;
      repeat (match goal with
              | |- context [if ?b then _ else _] => destruct b
              | |- context [match truthy_str ?o with _ => _ end] => destruct (truthy_str o)
              end; simpl);
      lia.
Qed.

Lemma append_assoc (a b c : string) : (a +:+ b) +:+ c = a +:+ b +:+ c.
Proof. apply chars_inj. by rewrite !chars_app, app_assoc. Qed.

Lemma append_empty (a : string) : a +:+ "" = a.
Proof. apply chars_inj. rewrite chars_app. apply app_nil_r. Qed.

Lemma first_slash (a b x y : list ascii) (c d : ascii) :
  slash_free a → is_slash c = false → is_slash d = true →
  a ++ c :: x = b ++ d :: y → ∃ z, b = a ++ c :: z.
Proof.
  intros Ha Hc Hd. revert b. induction Ha as [|a0 a Ha0 _ IH]; intros b H.
  - destruct b as [|b0 b]; simpl in H.
    + injection H as -> _. congruence.
    + injection H as -> _. by exists b.
  - destruct b as [|b0 b]; simpl in H.
    + injection H as -> _. congruence.
    + injection H as -> H. destruct (IH b H) as [z ->]. by exists z.
Qed.

(** X10.  Where the output of a file goes (lines 194-199 and 239-244): for a
    file below the include root, the include root is replaced with the
    [dist] directory and the extension remapped by the table; the path in
    between is kept. *)
Theorem out_path_below_dist (tbl : gmap string string) (include_ dist rest : string) :
  let f := include_ +:+ "/" +:+ rest in
  endsWith f "/" = false →
  ∃ stem, f = include_ +:+ stem +:+ substr1 (extname f)
          ∧ out_path tbl include_ dist f
            = dist +:+ stem +:+ remap tbl (substr1 (extname f)).
Proof.
  intros f Hslash. unfold out_path, remap.
  set (ext := substr1 (extname f)).
  assert (Hrep : replace_first f include_ dist = dist +:+ "/" +:+ rest).
  { apply replace_first_here. }
  rewrite Hrep.
  destruct (String.eqb_spec ext "") as [Hext|Hext].
  { exists ("/" +:+ rest). rewrite Hext. split.
    - unfold f. by rewrite append_empty.
    - destruct (truthy_str (tbl !! "")) as [rep|]; simpl.
      + unfold replace_at_end.
        rewrite (proj2 (strip_suffix_Some (dist +:+ "/" +:+ rest) "" (dist +:+ "/" +:+ rest))).
        * by rewrite append_assoc.
        * by rewrite append_empty.
      + by rewrite append_empty. }
  destruct (extension_ends_spec f Hext Hslash) as (body & Hf & _). fold ext in Hf.
  destruct (extension_of_spec f Hext) as (_ & _ & _ & _ & _ & Hes & _ & _).
  fold ext in Hes.
  assert (Hz : ∃ z, rev (chars rest) = rev (chars ext) ++ "."%char :: z).
  { apply (first_slash _ _ (rev body) (rev (chars include_)) _ "/"%char);
      [by apply slash_free_rev|reflexivity|reflexivity|].
    apply (f_equal chars) in Hf. unfold f in Hf.
    rewrite !chars_app, chars_str in Hf. apply (f_equal (@rev ascii)) in Hf.
    rewrite !rev_app_distr in Hf. simpl in Hf. rewrite <- !app_assoc in Hf. simpl in Hf.
    symmetry. exact Hf. }
  destruct Hz as [z Hz].
  assert (Hrest : rest = str (rev z) +:+ "." +:+ ext).
  { apply chars_inj. rewrite !chars_app, chars_str.
    rewrite <- (rev_involutive (chars rest)), Hz, rev_app_distr, rev_involutive.
    simpl. by rewrite <- app_assoc. }
  exists ("/" +:+ str (rev z) +:+ ".").
  assert (Hshape : ∀ root : string,
             root +:+ "/" +:+ rest = (root +:+ "/" +:+ str (rev z) +:+ ".") +:+ ext).
  { intros root. rewrite Hrest. apply chars_inj. rewrite !chars_app.
    by rewrite <- !app_assoc. }
  split.
  - unfold f. rewrite (Hshape include_). apply chars_inj. rewrite !chars_app.
    by rewrite <- !app_assoc.
  - destruct (truthy_str (tbl !! ext)) as [rep|]; simpl.
    + unfold replace_at_end.
      rewrite (proj2 (strip_suffix_Some _ ext _) (Hshape dist)).
      apply chars_inj. rewrite !chars_app. by rewrite <- !app_assoc.
    + rewrite (Hshape dist). apply chars_inj. rewrite !chars_app. by rewrite <- !app_assoc.
Qed.

Lemma out_path_below_dist_witness :
  ∃ stem, "src/components/App.tsx" = "src" +:+ stem +:+ "tsx"
          ∧ out_path Sample.mapping "src" "out/_dist_" "src/components/App.tsx"
            = "out/_dist_" +:+ stem +:+ "js".
Proof.
  exact (out_path_below_dist Sample.mapping "src" "out/_dist_" "components/App.tsx" eq_refl).
Defined.

(* ===================================================================== *)
(** ** The extension index *)
(* ===================================================================== *)

Lemma register_extension_listed (m m' : gmap string (list worker)) (w w' : worker)
    (e ext : string) :
  register_extension m w e = inr m' →
  (∃ l, m' !! ext = Some l ∧ In w' l)
  ↔ (∃ l, m !! ext = Some l ∧ In w' l) ∨ (w' = w ∧ ext = e).
Proof.
  unfold register_extension.
  destruct (m !! e) as [l0|] eqn:Hl0.
  - intros [= <-]. destruct (decide (e = ext)) as [->|Hne].
    + rewrite lookup_insert_eq, Hl0. split.
      * intros (l & [= <-] & Hin). apply in_app_iff in Hin as [Hin|[<-|[]]]; [|by right].
        left. by exists l0.
      * intros [(l & [= <-] & Hin)|[-> _]]; eexists; (split; [reflexivity|]);
          apply in_app_iff; [by left|right; by left].
    + rewrite lookup_insert_ne by exact Hne. split; [by left|].
      intros [H|[_ ->]]; [exact H|done].
  - destruct (inherited e); [discriminate|]. intros [= <-].
    destruct (decide (e = ext)) as [->|Hne].
    + rewrite lookup_insert_eq, Hl0. split.
      * intros (l & [= <-] & [<-|[]]). by right.
      * intros [(l & Hl & _)|[-> _]]; [discriminate Hl|].
        eexists. split; [reflexivity|by left].
    + rewrite lookup_insert_ne by exact Hne. split; [by left|].
      intros [H|[_ ->]]; [exact H|done].
Qed.

Lemma register_extensions_listed (exts : list string) (m m' : gmap string (list worker))
    (w w' : worker) (ext : string) :
  register_extensions m w exts = inr m' →
  (∃ l, m' !! ext = Some l ∧ In w' l)
  ↔ (∃ l, m !! ext = Some l ∧ In w' l) ∨ (w' = w ∧ In ext exts).
Proof.
  revert m. induction exts as [|e exts IH]; intros m; simpl.
  - intros [= <-]. split; [by left|]. by intros [H|[_ []]].
  - destruct (register_extension m w e) as [err|m1] eqn:He; [discriminate|].
    intros Hrest. rewrite (IH m1 Hrest), (register_extension_listed m m1 w w' e ext He).
    split.
    + intros [[H|[-> ->]]|[-> H]]; auto.
    + intros [H|[-> [->|H]]]; auto.
Qed.

Lemma register_worker_listed (m m' : gmap string (list worker)) (w w' : worker)
    (ext : string) :
  register_worker m w = inr m' →
  (∃ l, m' !! ext = Some l ∧ In w' l)
  ↔ (∃ l, m !! ext = Some l ∧ In w' l)
    ∨ (w' = w ∧ is_build_or_plugin (fst w) = true ∧ In ext (declared_extensions (fst w))).
Proof.
  unfold register_worker. destruct (is_build_or_plugin (fst w)) eqn:Hk.
  - intros H. rewrite (register_extensions_listed _ m m' w w' ext H). split.
    + intros [H'|[-> Hin]]; auto.
    + intros [H'|(-> & _ & Hin)]; auto.
  - intros [= <-]. split; [by left|]. intros [H|(_ & Hf & _)]; [exact H|discriminate Hf].
Qed.

(** X11.  When the loop of lines 52-69 comes to its end, the index lists a
    worker under an extension exactly when the worker is a build or plugin
    worker and the extension is an element of the list its id declares. *)
Theorem extToWorkerMap_lists (allRegisteredWorkers : list worker)
    (index : gmap string (list worker)) (w : worker) (ext : string) :
  extToWorkerMap allRegisteredWorkers = inr index →
  (∃ l, index !! ext = Some l ∧ In w l)
  ↔ In w allRegisteredWorkers
    ∧ is_build_or_plugin (fst w) = true
    ∧ In ext (declared_extensions (fst w)).
Proof.
  unfold extToWorkerMap.
  assert (H : ∀ ws (m : gmap string (list worker)),
             register_workers m ws = inr index →
             (∃ l, index !! ext = Some l ∧ In w l)
             ↔ (∃ l, m !! ext = Some l ∧ In w l)
               ∨ (In w ws ∧ is_build_or_plugin (fst w) = true
                  ∧ In ext (declared_extensions (fst w)))).
  { induction ws as [|w0 ws IH]; intros m; simpl.
    - intros [= <-]. split; [by left|]. by intros [H|[[] _]].
    - destruct (register_worker m w0) as [err|m1] eqn:H0; [discriminate|].
      intros Hrest. rewrite (IH m1 Hrest), (register_worker_listed m m1 w0 w ext H0).
      split.
      + intros [[H|(-> & H2 & H3)]|(H1 & H2 & H3)]; auto.
      + intros [H|([<-|H1] & H2 & H3)]; auto. }
  intros Hreg. rewrite (H _ _ Hreg). split; [|by right].
  intros [(l & Hl & _)|H']; [|exact H']. by rewrite lookup_empty in Hl.
Qed.

Lemma extToWorkerMap_lists_witness :
  (∃ l, ({[ "ts" := [("build:ts,tsx", Sample.script "cat")];
            "tsx" := [("build:ts,tsx", Sample.script "cat")] ]}
           : gmap string (list worker)) !! "tsx" = Some l
        ∧ In ("build:ts,tsx", Sample.script "cat") l)
  ↔ In ("build:ts,tsx", Sample.script "cat")
       [("mount:public", Sample.script "mount public"); ("build:ts,tsx", Sample.script "cat")]
    ∧ is_build_or_plugin "build:ts,tsx" = true
    ∧ In "tsx" (declared_extensions "build:ts,tsx").
Proof.
  apply (extToWorkerMap_lists
           [("mount:public", Sample.script "mount public");
            ("build:ts,tsx", Sample.script "cat")]
           _ ("build:ts,tsx", Sample.script "cat") "tsx").
  vm_compute. reflexivity.
Defined.

(* ===================================================================== *)
(** ** The bundle stage *)
(* ===================================================================== *)

(** The effects of [prepareBuildDirectoryForParcel]. *)
Lemma prepare_trace (W : World) (cwd build final : string) :
  Forall (fun x => match x with
                   | CopyAssets _ _ | WriteManifest _ _ | WriteFile _ _
                   | Emit (WORKER_MSG _ _ _) => True
                   | Emit (WORKER_COMPLETE _ err) => copy W build final = err ∧ err ≠ None
                   | _ => False
                   end)
         (trace (prepareBuildDirectoryForParcel W cwd build final)).
Proof.
  unfold prepareBuildDirectoryForParcel.
  destruct (copy W build final) as [err|] eqn:Hc; [by repeat constructor|].
  destruct (read_manifest W _) as [e|m]; [by repeat constructor|]. msimpl.
  destruct (prepare_manifest m) as [e|m']; [by repeat constructor|]. msimpl.
  destruct (resolve_babel_plugin W) as [e|p]; by repeat constructor.
Qed.

Lemma bundle_run (W : World) (cwd build final : string) (config : SnowpackConfig) :
  let prep := prepareBuildDirectoryForParcel W cwd build final in
  bundle W cwd build final config
  = match outcome prep with
    | inl e => (Emit (WORKER_UPDATE "bundle:*" RUNNING) :: trace prep, inl e)
    | inr _ =>
        match parcel W (devOptions_fallback config) final build with
        | Some err =>
            (Emit (WORKER_UPDATE "bundle:*" RUNNING) :: trace prep
               ++ [Parcel (devOptions_fallback config) final build;
                   Emit (WORKER_MSG "bundle:*" error_level (toString err));
                   Emit (WORKER_COMPLETE "bundle:*" (Some err))], inl err)
        | None =>
            (Emit (WORKER_UPDATE "bundle:*" RUNNING) :: trace prep
               ++ [Parcel (devOptions_fallback config) final build;
                   Emit (WORKER_COMPLETE "bundle:*" None)]
               ++ (if (final =? build)%string then [] else [Rimraf build]), inr tt)
        end
    end.
Proof.
  intros prep. unfold bundle. fold prep.
  destruct prep as [l [e|[]]]; [reflexivity|]. msimpl.
  destruct (parcel W _ _ _) as [err|]; [reflexivity|].
  by destruct (final =? build)%string.
Qed.

(** X12.  The bundle stage removes the intermediate build directory exactly
    when the directory was prepared, [parcel] succeeded and the directory is
    not the output directory; it returns exactly when the first two hold.
    After a failure the build directory is left in place. *)
Theorem bundle_removes_build_directory
    (W : World) (cwd build final : string) (config : SnowpackConfig) :
  let prepared := outcome (prepareBuildDirectoryForParcel W cwd build final) = inr tt in
  let bundled := parcel W (devOptions_fallback config) final build = None in
  let run := bundle W cwd build final config in
  (outcome run = inr tt ↔ prepared ∧ bundled)
  ∧ (In (Rimraf build) (trace run) ↔ prepared ∧ bundled ∧ final ≠ build).
Proof.
  intros prepared bundled run. subst prepared bundled run.
  rewrite bundle_run. cbv zeta.
  pose proof (prepare_trace W cwd build final) as Hprep.
  set (prep := prepareBuildDirectoryForParcel W cwd build final) in *.
  assert (Hno : ¬ In (Rimraf build) (trace prep)).
  { intros H. rewrite Forall_forall in Hprep. by apply (Hprep _ (proj2 (list_elem_of_In _ _) H)). }
  destruct (outcome prep) as [e|[]].
  { split; split.
    - discriminate.
    - by intros [? _].
    - intros [H|H]; [discriminate H|by destruct Hno].
    - by intros [? _]. }
  destruct (parcel W _ _ _) as [err|].
  { split; split.
    - discriminate.
    - by intros [_ ?].
    - simpl. intros [H|H]; [discriminate H|].
      apply in_app_iff in H as [H|H]; [by destruct Hno|].
      repeat (destruct H as [H|H]; try discriminate H). destruct H.
    - by intros (_ & ? & _). }
  split; [done|]. simpl. split.
  - intros [H|H]; [discriminate H|].
    apply in_app_iff in H as [H|H]; [by destruct Hno|].
    destruct H as [H|[H|H]]; try discriminate H.
    destruct (String.eqb_spec final build); [destruct H|done].
  - intros (_ & _ & Hne). right. apply in_app_iff. right. right. right.
    destruct (String.eqb_spec final build); [done|by left].
Qed.

(** X13.  When the preparation of the build directory fails, [parcel] is not
    started and the command throws the error of the preparation.  The
    completion event of the bundle worker is sent for a failed copy only:
    after a manifest that cannot be read or a Babel plugin that cannot be
    found, the worker is left without completion event. *)
Theorem bundle_preparation_failure
    (W : World) (cwd build final : string) (config : SnowpackConfig) (e : error) :
  outcome (prepareBuildDirectoryForParcel W cwd build final) = inl e →
  let run := bundle W cwd build final config in
  outcome run = inl e
  ∧ (∀ entry outDir dir, ¬ In (Parcel entry outDir dir) (trace run))
  ∧ completions "bundle:*" (trace run) = option_list (option_map Some (copy W build final)).
Proof.
  intros He run. subst run. rewrite bundle_run. cbv zeta. rewrite He.
  split; [reflexivity|].
  pose proof (prepare_trace W cwd build final) as Hprep.
  simpl trace. split.
  - intros entry outDir dir [H|H]; [discriminate H|].
    rewrite Forall_forall in Hprep. by apply (Hprep _ (proj2 (list_elem_of_In _ _) H)).
  - clear Hprep. revert He. unfold prepareBuildDirectoryForParcel.
    destruct (copy W build final) as [err|]; [reflexivity|].
    destruct (read_manifest W _) as [e'|m]; [reflexivity|]. msimpl.
    destruct (prepare_manifest m) as [e'|m']; [reflexivity|]. msimpl.
    destruct (resolve_babel_plugin W) as [e'|p]; [reflexivity|discriminate].
Qed.

Lemma bundle_preparation_failure_witness :
  completions "bundle:*"
    (trace (bundle (Sample.unreadable (Error "ENOENT")) "/proj" "/proj/.build" "out"
              (Sample.config [("build:ts", Sample.script "cat")] true)))
  = [].
Proof.
  exact (proj2 (proj2 (bundle_preparation_failure (Sample.unreadable (Error "ENOENT"))
                         "/proj" "/proj/.build" "out"
                         (Sample.config [("build:ts", Sample.script "cat")] true)
                         (Error "ENOENT") eq_refl))).
Defined.

(* ===================================================================== *)
(** ** A run without workers *)
(* ===================================================================== *)

(** X14.  The test of line 39 looks for an id that begins with [build], the
    stages for ids that begin with [build:], [plugin:], [lintall:] or
    [mount:].  When some id passes the first test and none the second (a
    script named [build], for one), the command, without bundling, removes
    and recreates the output directory and returns: nothing is built. *)
Theorem command_without_relevant_workers
    (tbl : gmap string string) (W : World) (dependencyImportMap : gmap string string)
    (cwd : string) (config : SnowpackConfig) :
  has_build_script (scripts config) = true →
  Forall (fun w => is_relevant (fst w) = false) (scripts config) →
  devOptions_bundle config = false →
  let relDest := path_relative W cwd (devOptions_out config) in
  command tbl W (inr dependencyImportMap) cwd config
  = ([SetNodeEnv "production";
      Rimraf (devOptions_out config); Mkdirp (devOptions_out config);
      Paint [] (if startsWith relDest "../" then relDest else "./" +:+ relDest)],
     inr tt).
Proof.
  intros Hb Hrel Hbundle relDest.
  rewrite (command_past_early_return tbl W dependencyImportMap cwd config Hb).
  cbv zeta.
  assert (Hws : relevantWorkers config = []).
  { unfold relevantWorkers. rewrite Hbundle, app_nil_r.
    revert Hrel. generalize (scripts config). intros ws Hrel.
    induction Hrel as [|w ws Hw _ IH]; [reflexivity|]. cbn [List.filter].
    rewrite Hw. exact IH. }
  assert (Hdir : buildDirectoryLoc W cwd config = devOptions_out config).
  { unfold buildDirectoryLoc. by rewrite Hbundle. }
  assert (Hreg : extToWorkerMap (scripts config) = inr ∅).
  { unfold extToWorkerMap. generalize (∅ : gmap string (list worker)).
    clear Hb Hws. revert Hrel. generalize (scripts config). intros ws Hrel.
    induction Hrel as [|w ws Hw _ IH]; intros m; [reflexivity|].
    cbn [register_workers]. unfold register_worker.
    unfold is_relevant in Hw. apply orb_false_iff in Hw as [Hw _].
    apply orb_false_iff in Hw as [Hw _].
    unfold is_build_or_plugin. rewrite Hw. apply IH. }
  rewrite Hdir, String.eqb_refl.
  rewrite (run_stages_registered tbl W dependencyImportMap cwd config ∅ Hreg).
  unfold start_paint, dispatch. rewrite Hws, Hbundle. fold relDest.
  by destruct (truthy_str (include config)).
Qed.

Lemma command_without_relevant_workers_witness :
  command Sample.mapping Sample.world (inr ∅) "/proj"
    (Sample.config [("build", Sample.script "tsc"); ("test", Sample.script "jest")] false)
  = ([SetNodeEnv "production"; Rimraf "out"; Mkdirp "out"; Paint [] "./out"], inr tt).
Proof.
  exact (command_without_relevant_workers Sample.mapping Sample.world ∅ "/proj"
           (Sample.config [("build", Sample.script "tsc"); ("test", Sample.script "jest")] false)
           eq_refl ltac:(repeat constructor) eq_refl).
Defined.

(* ===================================================================== *)
(** ** The watch message of tsc *)
(* ===================================================================== *)

(** What the pattern of line 119 looks for. *)
Lemma watching_chars_spec (l : list ascii) :
  watching_chars l = true
  ↔ ∃ pre rest, l = pre ++ chars "Watching for file changes" ++ rest
                ∧ rest ≠ [] ∧ at_line_terminator rest = false.
Proof.
  split.
  - induction l as [|x l IH]; [discriminate|].
    unfold watching_chars; fold watching_chars. intros H.
    apply orb_true_iff in H as [H|H].
    + unfold watching_at in H.
      destruct (strip_prefix _ _) as [[|c rest]|] eqn:E; try discriminate H.
      apply strip_prefix_Some in E. exists [], (c :: rest).
      split; [exact E|]. split; [done|]. by apply negb_true_iff.
    + destruct (IH H) as (pre & rest & -> & Hne & Hc).
      by exists (x :: pre), rest.
  - intros (pre & rest & -> & Hne & Hc).
    induction pre as [|x pre IH].
    + change ([] ++ chars "Watching for file changes" ++ rest)
        with ("W"%char :: (chars "atching for file changes" ++ rest)).
      unfold watching_chars; fold watching_chars. apply orb_true_iff. left.
      change ("W"%char :: (chars "atching for file changes" ++ rest))
        with (chars "Watching for file changes" ++ rest).
      unfold watching_at. rewrite strip_prefix_app, Hc. by destruct rest.
    + change ((x :: pre) ++ chars "Watching for file changes" ++ rest)
        with (x :: (pre ++ chars "Watching for file changes" ++ rest)).
      unfold watching_chars; fold watching_chars. rewrite IH. apply orb_true_r.
Qed.

(** X18.  The pattern of line 119 ends with a dot, which stands for any
    character that is not a line terminator (line feed, carriage return,
    U+2028, U+2029).  For a chunk without clear-screen sequence, a [tsc]
    worker is reported as [WATCHING] exactly when, somewhere in the chunk,
    the text [Watching for file changes] is followed by such a character: a
    chunk in which the text is only found at the very end, or in front of a
    line terminator, does not report it. *)
Theorem lint_stdout_watching (id b : string) :
  endsWith id ":tsc" = true →
  includes b clear_screen = false →
  In (WORKER_UPDATE id WATCHING) (lint_stdout id b)
  ↔ ∃ pre rest, b = pre +:+ "Watching for file changes" +:+ rest
                ∧ rest ≠ "" ∧ at_line_terminator (chars rest) = false.
Proof.
  intros Htsc Hclear. unfold lint_stdout. cbv zeta.
  rewrite !Hclear, Htsc. simpl orb. cbv iota. rewrite !Hclear. simpl orb. cbv iota.
  assert (Hw : watching b = true
               ↔ ∃ pre rest, b = pre +:+ "Watching for file changes" +:+ rest
                             ∧ rest ≠ "" ∧ at_line_terminator (chars rest) = false).
  { unfold watching. rewrite watching_chars_spec. split.
    - intros (pre & rest & Hb & Hne & Hc). exists (str pre), (str rest).
      split; [|split].
      + apply chars_inj. by rewrite Hb, !chars_app, !chars_str.
      + intros E. apply Hne. by rewrite <- (chars_str rest), E.
      + by rewrite chars_str.
    - intros (pre & rest & -> & Hne & Hc). exists (chars pre), (chars rest).
      split; [by rewrite !chars_app|]. split; [|exact Hc].
      intros E. apply Hne. by rewrite <- (str_chars rest), E. }
  rewrite <- Hw. destruct (watching b); split; try done.
  - intros _. by left.
  - intros Hin. simpl in Hin.
    destruct (found_errors b) as [n|]; [destruct (n =? "0")%string|]; simpl in Hin;
      repeat (destruct Hin as [Hin|Hin]; try discriminate Hin); done.
Qed.

Lemma lint_stdout_watching_witness :
  In (WORKER_UPDATE "lintall:tsc" WATCHING)
     (lint_stdout "lintall:tsc" "Found 0 errors. Watching for file changes.")
  ↔ ∃ pre rest,
      "Found 0 errors. Watching for file changes."
      = pre +:+ "Watching for file changes" +:+ rest
      ∧ rest ≠ "" ∧ at_line_terminator (chars rest) = false.
Proof.
  apply (lint_stdout_watching "lintall:tsc" "Found 0 errors. Watching for file changes.");
    reflexivity.
Defined.

(* ===================================================================== *)
(** ** The lint workers are started first *)
(* ===================================================================== *)

Lemma bind_Forall {A B} (P : effect → Prop) (m : M A) (k : A → M B) :
  Forall P (trace m) → (∀ a, Forall P (trace (k a))) → Forall P (trace (m ≫= k)).
Proof.
  intros Hm Hk. rewrite trace_bind. apply Forall_app. split; [exact Hm|].
  destruct (outcome m); [constructor|apply Hk].
Qed.

Lemma start_lint_run (ws : list worker) :
  for_each ws start_lint = (flat_map lint_start ws, inr tt).
Proof.
  induction ws as [|[id sc] ws IH]; [reflexivity|].
  rewrite for_each_cons, IH. unfold start_lint, lint_start. simpl.
  by destruct (startsWith id "lintall:").
Qed.

Lemma mount_worker_no_lint (W : World) (cwd build : string) (w : worker) :
  Forall (fun x => starts_lint x = false) (trace (mount_worker W cwd build w)).
Proof.
  destruct w as [id sc]. unfold mount_worker.
  destruct (startsWith id "mount:"); simpl; [|constructor].
  destruct (bool_decide _); simpl; [|constructor].
  destruct (tail (split_ws (cmd sc))) as [|d [|d' l]]; msimpl; [constructor| |].
  - destruct (_ =? _)%string; simpl; destruct (copy W _ _); simpl; by repeat constructor.
  - destruct (yargs_to W _) as [url|]; simpl; [|constructor].
    destruct (url =? "/")%string; simpl; destruct (copy W _ _); simpl; by repeat constructor.
Qed.

Lemma write_output_no_lint (tbl : gmap string string) (W : World) (k : worker_kind)
    (dependencyImportMap : gmap string string) (f outPath code : string) :
  Forall (fun x => starts_lint x = false)
         (trace (write_output W outPath code (resolver tbl k dependencyImportMap f))).
Proof.
  destruct (write_output_trace tbl W k dependencyImportMap f outPath code)
    as (evs & code' & ->).
  apply Forall_app. split; [|by repeat constructor].
  apply Forall_forall. intros x Hx. apply list_elem_of_In, in_map_iff in Hx as (e & <- & _).
  reflexivity.
Qed.

Lemma dispatch_worker_no_lint (tbl : gmap string string) (W : World)
    (dependencyImportMap : gmap string string) (cwd include_ dist : string)
    (allFiles : list string) (w : worker) :
  Forall (fun x => starts_lint x = false)
         (trace (dispatch_worker tbl W dependencyImportMap cwd include_ dist allFiles w)).
Proof.
  destruct w as [id sc]. unfold dispatch_worker. cbn [fst].
  destruct (negb (startsWith id "build:") && negb (startsWith id "plugin:")); [constructor|].
  apply bind_Forall; [by repeat constructor|]. intros _.
  apply bind_Forall; [|intros; by repeat constructor].
  apply for_each_trace_Forall. intros f _.
  unfold dispatch_file. destruct (handles _ _); simpl; [|constructor].
  apply bind_Forall.
  - destruct (startsWith id "build:"); [|constructor].
    rewrite build_file_run.
    destruct (execa_command W (cmd sc) f) as [e|[out err]]; [by repeat constructor|].
    cbv zeta.
    assert (Hsaid : Forall (fun x => starts_lint x = false)
                      (if (err =? "")%string then []
                       else [Emit (CONSOLE error_level [err])])).
    { destruct (err =? "")%string; by repeat constructor. }
    destruct (out =? "")%string; simpl; (constructor; [reflexivity|]); [exact Hsaid|].
    apply Forall_app. split; [exact Hsaid|apply write_output_no_lint].
  - intros go_on. destruct (go_on && _); [|constructor].
    rewrite plugin_file_run.
    destruct (require_resolve W (cmd sc) cwd) as [e|m]; [constructor|].
    destruct (plugin_build W m f) as [[err|shown]|result];
      [by repeat constructor|by repeat constructor|].
    simpl. constructor; [reflexivity|apply write_output_no_lint].
Qed.

Lemma settle_lint_no_lint (W : World) (w : worker) :
  Forall (fun x => starts_lint x = false) (trace (settle_lint W w)).
Proof.
  destruct w as [id sc]. unfold settle_lint.
  destruct (startsWith id "lintall:"); simpl; [|constructor].
  destruct (execa_lint W id); by repeat constructor.
Qed.

Lemma bundle_no_lint (W : World) (cwd build final : string) (config : SnowpackConfig) :
  Forall (fun x => starts_lint x = false) (trace (bundle W cwd build final config)).
Proof.
  rewrite bundle_run. cbv zeta.
  assert (Hprep : Forall (fun x => starts_lint x = false)
                    (trace (prepareBuildDirectoryForParcel W cwd build final))).
  { eapply Forall_impl; [apply prepare_trace|].
    intros [| | | |[]| | | | | | | | | |]; simpl; done. }
  destruct (outcome _) as [e|[]]; [by constructor|].
  destruct (parcel W _ _ _) as [err|]; simpl; (constructor; [reflexivity|]);
    (apply Forall_app; split; [exact Hprep|]); [by repeat constructor|].
  destruct (final =? build)%string; by repeat constructor.
Qed.

(** X19.  Past the early return and the loop of lines 52-69, right after
    the directories have been reset and the dashboard started, every lint
    worker is marked as running and started, in the order of the scripts
    and before any directory is mounted or any file built; nothing later in
    the run starts one again. *)
Theorem lint_workers_started_first
    (tbl : gmap string string) (W : World) (dependencyImportMap : gmap string string)
    (cwd : string) (config : SnowpackConfig) (index : gmap string (list worker)) :
  has_build_script (scripts config) = true →
  extToWorkerMap (scripts config) = inr index →
  let final := devOptions_out config in
  let build := buildDirectoryLoc W cwd config in
  ∃ dest rest,
    trace (command tbl W (inr dependencyImportMap) cwd config)
    = [SetNodeEnv "production"; Rimraf final; Mkdirp final]
      ++ (if (final =? build)%string then [] else [Rimraf build; Mkdirp build])
      ++ Paint (map fst (relevantWorkers config)) dest
         :: flat_map lint_start (relevantWorkers config) ++ rest
    ∧ Forall (fun x => starts_lint x = false) rest.
Proof.
  intros Hb Hreg final build.
  rewrite (command_past_early_return tbl W dependencyImportMap cwd config Hb).
  cbv zeta. fold final build. simpl trace.
  rewrite (run_stages_registered tbl W dependencyImportMap cwd config index Hreg).
  fold build. unfold start_paint.
  set (dest := if startsWith (path_relative W cwd (devOptions_out config)) "../"
               then path_relative W cwd (devOptions_out config)
               else "./" +:+ path_relative W cwd (devOptions_out config)).
  set (later := for_each (relevantWorkers config) (mount_worker W cwd build) ≫= _).
  exists dest, (trace later). split.
  - rewrite tell_bind. simpl trace. rewrite trace_bind, start_lint_run. reflexivity.
  - subst later. apply bind_Forall.
    { apply for_each_trace_Forall. intros w _. apply mount_worker_no_lint. }
    intros _. apply bind_Forall.
    { unfold dispatch. destruct (truthy_str _); [|constructor].
      apply for_each_trace_Forall. intros w _. apply dispatch_worker_no_lint. }
    intros _. apply bind_Forall.
    { apply for_each_trace_Forall. intros w _. apply settle_lint_no_lint. }
    intros _. destruct (devOptions_bundle config); [apply bundle_no_lint|constructor].
Qed.

Lemma lint_workers_started_first_witness :
  ∃ dest rest,
    trace (command Sample.mapping Sample.world (inr ∅) "/proj"
             (Sample.config [("lintall:tsc", Sample.script "tsc --noEmit");
                             ("mount:public", Sample.script "mount public");
                             ("build:ts", Sample.script "cat")] false))
    = [SetNodeEnv "production"; Rimraf "out"; Mkdirp "out"]
      ++ []
      ++ Paint ["lintall:tsc"; "mount:public"; "build:ts"] dest
         :: [Emit (WORKER_UPDATE "lintall:tsc" RUNNING); ExecaLint "lintall:tsc" "tsc --noEmit"]
         ++ rest
    ∧ Forall (fun x => starts_lint x = false) rest.
Proof.
  refine (lint_workers_started_first Sample.mapping Sample.world ∅ "/proj"
            (Sample.config [("lintall:tsc", Sample.script "tsc --noEmit");
                            ("mount:public", Sample.script "mount public");
                            ("build:ts", Sample.script "cat")] false)
            {[ "ts" := [("build:ts", Sample.script "cat")] ]} eq_refl _).
  vm_compute. reflexivity.
Defined.

(* ===================================================================== *)
(** ** Names that every object inherits *)
(* ===================================================================== *)

Lemma inherited_names (s text : string) :
  inherited s = Some text →
  In s ("constructor" :: "__proto__" :: prototype_methods).
Proof.
  unfold inherited.
  destruct (String.eqb_spec s "constructor") as [->|_]; [by left|].
  destruct (String.eqb_spec s "__proto__") as [->|_]; [by right; left|].
  destruct (existsb (String.eqb s) prototype_methods) eqn:E; [|discriminate].
  intros _. apply existsb_exists in E as (x & Hx & Hs).
  apply String.eqb_eq in Hs. subst x. by right; right.
Qed.

(** X20.  The lookup of line 218 is a property read on the object parsed
    from [import-map.json]: for a specifier that has no entry in the map
    but names a property that every object inherits ([constructor],
    [toString], ...), the build resolver takes the inherited value for the
    entry: the specifier is replaced with [/web_modules/] followed by that
    value as text, and no [MISSING_WEB_MODULE] event is sent. *)
Theorem build_resolver_inherited (tbl dependencyImportMap : gmap string string)
    (f s text : string) :
  dependencyImportMap !! s = None →
  inherited s = Some text →
  resolver tbl BuildWorker dependencyImportMap f s = ([], inr ("/web_modules/" +:+ text))
  ∧ text ≠ s +:+ ".js".
Proof.
  intros Hown Hin.
  pose proof (inherited_names s text Hin) as Hs.
  assert (Hcases : s = "constructor" ∨ s = "__proto__" ∨ In s prototype_methods).
  { destruct Hs as [<-|[<-|Hs]]; auto. }
  unfold resolver, build_resolver, get. rewrite Hown, Hin.
  destruct Hcases as [->|[->|Hm]].
  - injection Hin as <-. split; [reflexivity|discriminate].
  - injection Hin as <-. split; [reflexivity|discriminate].
  - unfold prototype_methods in Hm. simpl in Hm.
    repeat (destruct Hm as [<-|Hm]; [injection Hin as <-; split; [reflexivity|discriminate]|]).
    destruct Hm.
Qed.

Lemma build_resolver_inherited_witness :
  resolver Sample.mapping BuildWorker {[ "preact" := "./preact.js" ]} "src/a.ts" "constructor"
  = ([], inr "/web_modules/function Object() { [native code] }").
Proof.
  exact (proj1 (build_resolver_inherited Sample.mapping {[ "preact" := "./preact.js" ]}
                  "src/a.ts" "constructor" "function Object() { [native code] }"
                  eq_refl eq_refl)).
Defined.

(* ===================================================================== *)
(** ** When the loop of lines 52-69 throws *)
(* ===================================================================== *)

Lemma register_extensions_clean (w : worker) (exts : list string)
    (m : gmap string (list worker)) :
  (∀ ext, is_Some (inherited ext) → m !! ext = None) →
  if existsb (fun ext => bool_decide (is_Some (inherited ext))) exts
  then ∃ msg, register_extensions m w exts = inl (TypeError msg)
  else ∃ m', register_extensions m w exts = inr m'
             ∧ (∀ ext, is_Some (inherited ext) → m' !! ext = None).
Proof.
  revert m. induction exts as [|e exts IH]; intros m Hclean; simpl.
  - by exists m.
  - unfold register_extension.
    destruct (bool_decide (is_Some (inherited e))) eqn:He.
    + apply bool_decide_eq_true in He. rewrite (Hclean e He).
      destruct He as [text ->]. simpl. by eexists.
    + apply bool_decide_eq_false in He. simpl.
      assert (Hnone : inherited e = None).
      { destruct (inherited e); [destruct He; by eexists|reflexivity]. }
      rewrite Hnone.
      assert (Hnext : ∀ l, ∀ ext, is_Some (inherited ext) → <[e := l]> m !! ext = None).
      { intros l ext Hext. rewrite lookup_insert_ne; [by apply Hclean|].
        intros <-. by apply He. }
      destruct (m !! e) as [l0|]; apply IH, Hnext.
Qed.

Lemma register_workers_clean (ws : list worker) (m : gmap string (list worker)) :
  (∀ ext, is_Some (inherited ext) → m !! ext = None) →
  if existsb declares_inherited ws
  then ∃ msg, register_workers m ws = inl (TypeError msg)
  else ∃ m', register_workers m ws = inr m'.
Proof.
  revert m. induction ws as [|w ws IH]; intros m Hclean; simpl; [by exists m|].
  unfold register_worker, declares_inherited.
  destruct (is_build_or_plugin (fst w)); simpl; [|by apply IH].
  pose proof (register_extensions_clean w (declared_extensions (fst w)) m Hclean) as H.
  destruct (existsb _ (declared_extensions (fst w))); simpl.
  - destruct H as [msg ->]. by eexists.
  - destruct H as (m' & -> & Hclean'). by apply IH.
Qed.

(** X21.  A build or plugin id that declares an extension named like a
    property every object inherits ([build:constructor], for one) makes the
    loop of lines 52-69 throw a [TypeError]: past the early return, the
    command throws it right after the directories have been reset, before
    the dashboard and every worker.  With no such id the loop comes to its
    end. *)
Theorem inherited_extension_aborts
    (tbl : gmap string string) (W : World) (dependencyImportMap : gmap string string)
    (cwd : string) (config : SnowpackConfig) :
  has_build_script (scripts config) = true →
  let final := devOptions_out config in
  let build := buildDirectoryLoc W cwd config in
  if existsb declares_inherited (scripts config)
  then ∃ msg,
         command tbl W (inr dependencyImportMap) cwd config
         = ([SetNodeEnv "production"; Rimraf final; Mkdirp final]
              ++ (if (final =? build)%string then [] else [Rimraf build; Mkdirp build]),
            inl (TypeError msg))
  else ∃ index, extToWorkerMap (scripts config) = inr index.
Proof.
  intros Hb final build.
  pose proof (register_workers_clean (scripts config) ∅
                (fun ext _ => lookup_empty ext)) as H.
  fold (extToWorkerMap (scripts config)) in H.
  destruct (existsb declares_inherited (scripts config)); [|exact H].
  destruct H as [msg Hreg]. exists msg.
  rewrite (command_past_early_return tbl W dependencyImportMap cwd config Hb).
  cbv zeta. fold final build.
  rewrite (run_stages_unregistered tbl W dependencyImportMap cwd config _ Hreg).
  simpl. by rewrite app_nil_r.
Qed.

Lemma inherited_extension_aborts_witness :
  ∃ msg,
    command Sample.mapping Sample.world (inr ∅) "/proj"
      (Sample.config [("build:ts", Sample.script "cat");
                      ("build:constructor", Sample.script "cat")] false)
    = ([SetNodeEnv "production"; Rimraf "out"; Mkdirp "out"] ++ [], inl (TypeError msg)).
Proof.
  exact (inherited_extension_aborts Sample.mapping Sample.world ∅ "/proj"
           (Sample.config [("build:ts", Sample.script "cat");
                           ("build:constructor", Sample.script "cat")] false) eq_refl).
Defined.

(* ===================================================================== *)
(** ** A plugin that throws what is no object *)
(* ===================================================================== *)

Lemma plugin_file_completions (tbl : gmap string string) (W : World)
    (dependencyImportMap : gmap string string) (cwd include_ dist id : string)
    (sc : DevScript) (modulePath f : string) :
  startsWith id "plugin:" = true →
  require_resolve W (cmd sc) cwd = inr modulePath →
  outcome (dispatch_file tbl W dependencyImportMap cwd include_ dist (id, sc) f) = inr tt →
  completions id (trace (dispatch_file tbl W dependencyImportMap cwd include_ dist (id, sc) f))
  = option_list (plugin_failure W id modulePath f).
Proof.
  intros Hp Hm. rewrite dispatch_file_plugin by exact Hp. unfold plugin_failure.
  destruct (handles id (substr1 (extname f))); [|reflexivity].
  rewrite plugin_file_run, Hm.
  destruct (plugin_build W modulePath f) as [[err|shown]|result]; [| discriminate |]; intros _.
  - cbv zeta. simpl. by rewrite String.eqb_refl.
  - simpl trace. apply completions_silent. constructor; [reflexivity|].
    apply (write_output_silent tbl W PluginWorker).
Qed.

Lemma plugin_loop_completions (tbl : gmap string string) (W : World)
    (dependencyImportMap : gmap string string) (cwd include_ dist id : string)
    (sc : DevScript) (modulePath : string) (files : list string) :
  startsWith id "plugin:" = true →
  require_resolve W (cmd sc) cwd = inr modulePath →
  outcome (for_each files
             (dispatch_file tbl W dependencyImportMap cwd include_ dist (id, sc))) = inr tt →
  completions id
    (trace (for_each files
              (dispatch_file tbl W dependencyImportMap cwd include_ dist (id, sc))))
  = omap (plugin_failure W id modulePath) files.
Proof.
  intros Hp Hm. induction files as [|f files IH]; [reflexivity|].
  rewrite for_each_cons, outcome_bind, trace_bind.
  destruct (outcome (dispatch_file _ _ _ _ _ _ _ f)) as [e|[]] eqn:Hf; [discriminate|].
  intros Hrest. rewrite completions_app, (plugin_file_completions _ _ _ _ _ _ _ _ _ _ Hp Hm Hf).
  rewrite (IH Hrest). simpl. by destruct (plugin_failure W id modulePath f).
Qed.

(** X22.  When the plugin throws, for a file that passes the test of line
    176, a value that is no object ([undefined], [null], a string), the
    assignment of line 234 throws a [TypeError] inside the [catch]: the
    worker throws it, the files after that one are skipped and the
    completion event of line 270 is not sent; the completion events are the
    errors reported for the files before. *)
Theorem plugin_throwing_value_aborts (tbl : gmap string string) (W : World)
    (dependencyImportMap : gmap string string) (cwd include_ dist : string)
    (pre post : list string) (f id : string) (sc : DevScript) (modulePath shown : string) :
  startsWith id "plugin:" = true →
  handles id (substr1 (extname f)) = true →
  require_resolve W (cmd sc) cwd = inr modulePath →
  plugin_build W modulePath f = inl (Value shown) →
  outcome (for_each pre (dispatch_file tbl W dependencyImportMap cwd include_ dist (id, sc)))
  = inr tt →
  let run := dispatch_worker tbl W dependencyImportMap cwd include_ dist
               (pre ++ f :: post) (id, sc) in
  (∃ msg, outcome run = inl (TypeError msg))
  ∧ last (trace run) = Some (PluginBuild modulePath f)
  ∧ completions id (trace run) = omap (plugin_failure W id modulePath) pre.
Proof.
  intros Hp Hh Hm Hv Hpre run.
  set (body := dispatch_file tbl W dependencyImportMap cwd include_ dist (id, sc)) in *.
  assert (Hf : ∃ msg, body f = ([PluginBuild modulePath f], inl (TypeError msg))).
  { subst body. cbv beta. rewrite dispatch_file_plugin by exact Hp.
    rewrite Hh, plugin_file_run, Hm, Hv. by eexists. }
  destruct Hf as [msg Hf]. 
  assert (Hloop : for_each (pre ++ f :: post) body
                  = (trace (for_each pre body) ++ [PluginBuild modulePath f],
                     inl (TypeError msg))).
  { rewrite for_each_app, for_each_cons, Hf.
    destruct (for_each pre body) as [l r]. simpl in Hpre. subst r. reflexivity. }
  assert (Hrun : run = (Emit (WORKER_UPDATE id RUNNING)
                          :: trace (for_each pre body) ++ [PluginBuild modulePath f],
                        inl (TypeError msg))).
  { subst run. unfold dispatch_worker. cbn [fst].
    rewrite Hp, (plugin_not_build id Hp). cbn [negb andb].
    fold body. rewrite Hloop. reflexivity. }
  rewrite Hrun. split; [by exists msg|]. split.
  - simpl trace. rewrite app_comm_cons. apply last_snoc.
  - simpl trace.
    change (Emit (WORKER_UPDATE id RUNNING)
              :: trace (for_each pre body) ++ [PluginBuild modulePath f])
      with ([Emit (WORKER_UPDATE id RUNNING)]
              ++ trace (for_each pre body) ++ [PluginBuild modulePath f]).
    rewrite !completions_app. subst body.
    rewrite (plugin_loop_completions tbl W dependencyImportMap cwd include_ dist id sc
               modulePath pre Hp Hm Hpre).
    simpl. by rewrite app_nil_r.
Qed.

Lemma plugin_throwing_value_aborts_witness :
  ∃ msg,
    outcome (dispatch_worker Sample.mapping (Sample.throwing "boom") ∅ "/proj" "src"
               "out/_dist_" (["src/a.ts"] ++ "src/App.svelte" :: ["src/Card.svelte"])
               ("plugin:svelte", Sample.script "my-plugin"))
    = inl (TypeError msg).
Proof.
  exact (proj1 (plugin_throwing_value_aborts Sample.mapping (Sample.throwing "boom") ∅
                  "/proj" "src" "out/_dist_" ["src/a.ts"] ["src/Card.svelte"]
                  "src/App.svelte" "plugin:svelte" (Sample.script "my-plugin")
                  "my-plugin" "boom" eq_refl eq_refl eq_refl eq_refl eq_refl)).
Defined.
